(** * QtOcv: conversions between QImage and cv::Mat (cvmatandqimage.cpp)

    A shallow embedding of the four conversion functions of namespace QtOcv
    ([image2Mat], [mat2Image], [image2Mat_shared], [mat2Image_shared]) over an
    explicit byte store, followed by the properties of the conversions.

    Pixel storage is a store of blocks; a QImage and a cv::Mat are headers
    that point into it, so that the copying conversions (fresh block) and the
    shared ones (same block) are told apart.  An access outside a block is
    undefined behaviour in C++ and makes the computation fail ([None]).

    [Q_ASSERT] expands to nothing under QT_NO_DEBUG; the embedding follows
    that build, for which the guards after the assertions are written. *)

From Stdlib Require Import ZArith Lia.
From Stdlib Require Import Strings.Byte.
From stdpp Require Import base tactics option list list_numbers.

Local Open Scope Z_scope.

(** ** Bytes *)

Definition uchar : Type := Byte.byte.

(** The value of a byte read into an [int] (integral promotion). *)
Definition uchar_val (b : uchar) : Z := Z.of_N (Byte.to_N b).

(** Conversion of an [int] to [uchar]: reduction modulo 256. *)
Definition to_uchar (z : Z) : uchar :=
  default Byte.x00 (Byte.of_N (Z.to_N (z mod 256))).

(** ** The byte store

    Blocks are numbered from 1; block 0 is never allocated, so that
    [nullptr] dereferences to nothing. *)

Record ptr : Type := Ptr { p_block : nat; p_off : Z }.

Definition nullptr : ptr := Ptr 0 0.

Definition ptr_add (p : ptr) (k : Z) : ptr := Ptr (p_block p) (p_off p + k).
Infix "+ₚ" := ptr_add (at level 50, left associativity).

Definition is_null (p : ptr) : bool := Nat.eqb (p_block p) 0.

Global Instance ptr_eq_dec : EqDecision ptr.
Proof. solve_decision. Defined.

Abbreviation mem := (list (list uchar)).

Definition block_of (m : mem) (b : nat) : option (list uchar) :=
  match b with
  | O => None
  | S k => m !! k
  end.

Definition load (m : mem) (p : ptr) : option uchar :=
  match block_of m (p_block p) with
  | Some blk => if decide (0 <= p_off p) then blk !! Z.to_nat (p_off p) else None
  | None => None
  end.

Definition store (m : mem) (p : ptr) (v : uchar) : option mem :=
  match p_block p with
  | O => None
  | S k =>
      match m !! k with
      | Some blk =>
          if decide (0 <= p_off p < Z.of_nat (length blk))
          then Some (<[k := <[Z.to_nat (p_off p) := v]> blk]> m)
          else None
      | None => None
      end
  end.

(** Computations over the store that may be undefined. *)
Definition M (A : Type) : Type := mem -> option (A * mem).

Definition ret {A} (a : A) : M A := fun m => Some (a, m).

Definition bind {A B} (c : M A) (k : A -> M B) : M B :=
  fun m => match c m with
           | Some (a, m') => k a m'
           | None => None
           end.

Declare Scope M_scope.
Delimit Scope M_scope with M.
Notation "x <- c ;; k" := (bind c (fun x => k))
  (at level 100, c at next level, right associativity) : M_scope.
Notation "c ;; k" := (bind c (fun _ => k))
  (at level 100, right associativity) : M_scope.
Local Open Scope M_scope.

(** [*p] as an rvalue and [*p = v]. *)
Definition read (p : ptr) : M uchar :=
  fun m => match load m p with
           | Some v => Some (v, m)
           | None => None
           end.

Definition write (p : ptr) (v : uchar) : M unit :=
  fun m => match store m p v with
           | Some m' => Some (tt, m')
           | None => None
           end.

(** [*data++ = v]. *)
Definition put (data : ptr) (v : uchar) : M ptr :=
  write data v ;; ret (data +ₚ 1).

(** [for (int i = 0; i < n; ++i) body], the loop carrying a local state
    (a moving pointer, or nothing). *)
Fixpoint iter_from {S} (fuel : nat) (i : Z) (body : Z -> S -> M S) (s : S) : M S :=
  match fuel with
  | O => ret s
  | Datatypes.S fuel' => s' <- body i s ;; iter_from fuel' (i + 1) body s'
  end.

Definition for_ {S} (n : Z) (body : Z -> S -> M S) (s : S) : M S :=
  iter_from (Z.to_nat n) 0 body s.

(** [std::memcpy(dst, src, n)] on regions that do not overlap. *)
Definition memcpy (dst src : ptr) (n : Z) : M unit :=
  for_ n (fun k _ => v <- read (src +ₚ k) ;; write (dst +ₚ k) v) tt.

(** ** Qt: QImage

    QImage is a class of Qt, declared outside this repository.  What the
    conversions use of it is modelled here from its interface: the pixel
    buffer of the specification (width, height, format, bytes per row that
    may exceed the bytes of the pixels of a row, bytes, optional palette)
    with the constructors and accessors as Qt documents them.

    The [int] sizes and indices of the source are integers of [Z]: images
    are taken small enough for [int] arithmetic on their sizes not to
    overflow, and allocation to succeed. *)

Inductive Format : Type :=
| Format_Invalid
| Format_Mono
| Format_MonoLSB
| Format_Indexed8
| Format_RGB32
| Format_ARGB32
| Format_ARGB32_Premultiplied
| Format_RGB16
| Format_ARGB8565_Premultiplied
| Format_RGB666
| Format_ARGB6666_Premultiplied
| Format_RGB555
| Format_ARGB8555_Premultiplied
| Format_RGB888
| Format_RGB444
| Format_ARGB4444_Premultiplied.

Global Instance Format_eq_dec : EqDecision Format.
Proof. solve_decision. Defined.

(** Bits per pixel of a format ([QImage::depth]). *)
Definition depthForFormat (f : Format) : Z :=
  match f with
  | Format_Invalid => 0
  | Format_Mono | Format_MonoLSB => 1
  | Format_Indexed8 => 8
  | Format_RGB32 | Format_ARGB32 | Format_ARGB32_Premultiplied => 32
  | Format_RGB555 | Format_RGB16 | Format_RGB444
  | Format_ARGB4444_Premultiplied => 16
  | Format_RGB666 | Format_ARGB6666_Premultiplied
  | Format_ARGB8565_Premultiplied | Format_ARGB8555_Premultiplied
  | Format_RGB888 => 24
  end.

Definition QRgb : Type := Z.

(** [qRgb(r, g, b)]: 0xffRRGGBB. *)
Definition qRgb (r g b : Z) : QRgb :=
  Z.lor (Z.shiftl 255 24)
    (Z.lor (Z.shiftl (Z.land r 255) 16)
       (Z.lor (Z.shiftl (Z.land g 255) 8) (Z.land b 255))).

Definition qRed (c : QRgb) : Z := Z.land (Z.shiftr c 16) 255.
Definition qGreen (c : QRgb) : Z := Z.land (Z.shiftr c 8) 255.
Definition qBlue (c : QRgb) : Z := Z.land c 255.
Definition qAlpha (c : QRgb) : Z := Z.land (Z.shiftr c 24) 255.

Record QImageData : Type := mkQImageData {
  qd_width : Z;
  qd_height : Z;
  qd_format : Format;
  qd_bytes_per_line : Z;
  qd_data : ptr;
  qd_colortable : list QRgb
}.

(** A QImage is null or holds image data.  Qt shares image data between
    copies of a QImage and copies the bytes when a shared image is about to
    be written; the copy has the bytes of the original, and the conversions
    write to no image but the one they have just made, so that a QImage is
    here the header of its bytes. *)
Definition QImage : Type := option QImageData.

Definition QImage_null : QImage := None.

Definition QImage_isNull (img : QImage) : bool :=
  match img with
  | None => true
  | Some _ => false
  end.

Definition QImage_width (img : QImage) : Z := from_option qd_width 0 img.
Definition QImage_height (img : QImage) : Z := from_option qd_height 0 img.
Definition QImage_format (img : QImage) : Format :=
  from_option qd_format Format_Invalid img.
Definition QImage_depth (img : QImage) : Z :=
  from_option (fun d => depthForFormat (qd_format d)) 0 img.
Definition QImage_bytesPerLine (img : QImage) : Z :=
  from_option qd_bytes_per_line 0 img.
Definition QImage_bits (img : QImage) : ptr := from_option qd_data nullptr img.
Definition QImage_colorTable (img : QImage) : list QRgb :=
  from_option qd_colortable [] img.

Definition QImage_scanLine (img : QImage) (i : Z) : ptr :=
  match img with
  | None => nullptr
  | Some d => qd_data d +ₚ (i * qd_bytes_per_line d)
  end.

Definition QImage_setColorTable (img : QImage) (colors : list QRgb) : QImage :=
  match img with
  | None => None
  | Some d =>
      Some (mkQImageData (qd_width d) (qd_height d) (qd_format d)
              (qd_bytes_per_line d) (qd_data d) colors)
  end.

(** Bytes per scan line of an image that Qt allocates: scan lines are
    aligned on 32 bits, [((width * depth + 31) >> 5) << 2]. *)
Definition scanline_bytes (width depth : Z) : Z :=
  Z.shiftl (Z.shiftr (width * depth + 31) 5) 2.

(** [QImage(uchar *data, int width, int height, int bytesPerLine, Format)]:
    an image over bytes it does not own, null for an invalid format, an
    empty size, no data, or a scan line too short for a row of pixels. *)
Definition QImage_of_data (data : ptr) (width height bpl : Z) (format : Format)
  : QImage :=
  let depth := depthForFormat format in
  let min_bytes_per_line := (width * depth + 7) `quot` 8 in
  let bpl' := if bpl <=? 0 then scanline_bytes width depth else bpl in
  if bool_decide (format = Format_Invalid) then None
  else if (width <=? 0) || (height <=? 0) || is_null data
          || (bpl' <=? 0) || (bpl' <? min_bytes_per_line)
  then None
  else Some (mkQImageData width height format bpl' data []).

(** ** OpenCV: cv::Mat

    cv::Mat is a class of OpenCV, declared outside this repository; it is
    modelled in the same way: the type (depth and channels, with the macros
    of OpenCV), rows, columns, step and data pointer of a 2-dimensional
    matrix. *)

Definition CV_8U : Z := 0.
Definition CV_8S : Z := 1.
Definition CV_16U : Z := 2.
Definition CV_16S : Z := 3.
Definition CV_32S : Z := 4.
Definition CV_32F : Z := 5.
Definition CV_64F : Z := 6.

Definition CV_MAKETYPE (depth cn : Z) : Z :=
  Z.land depth 7 + Z.shiftl (cn - 1) 3.
Definition CV_8UC (n : Z) : Z := CV_MAKETYPE CV_8U n.
Definition CV_8UC1 : Z := CV_MAKETYPE CV_8U 1.
Definition CV_8UC3 : Z := CV_MAKETYPE CV_8U 3.
Definition CV_8UC4 : Z := CV_MAKETYPE CV_8U 4.

Definition CV_MAT_DEPTH (type : Z) : Z := Z.land type 7.
Definition CV_MAT_CN (type : Z) : Z := Z.shiftr (Z.land type 4088) 3 + 1.

(** Bytes of one channel value of a depth. *)
Definition CV_ELEM_SIZE1 (type : Z) : Z :=
  let d := CV_MAT_DEPTH type in
  if d <? 2 then 1 else if d <? 4 then 2 else if d <? 6 then 4 else 8.
Definition CV_ELEM_SIZE (type : Z) : Z := CV_MAT_CN type * CV_ELEM_SIZE1 type.

Record Mat : Type := mkMat {
  m_type : Z;
  m_rows : Z;
  m_cols : Z;
  m_step : Z;
  m_data : ptr
}.

(** [cv::Mat()]. *)
Definition Mat_default : Mat := mkMat 0 0 0 0 nullptr.

Definition Mat_depth (mat : Mat) : Z := CV_MAT_DEPTH (m_type mat).
Definition Mat_channels (mat : Mat) : Z := CV_MAT_CN (m_type mat).

(** [mat.empty()]: [data == 0 || total() == 0]. *)
Definition Mat_empty (mat : Mat) : bool :=
  is_null (m_data mat) || (m_rows mat * m_cols mat =? 0).

(** [cv::Mat(rows, cols, type, data, step)]: a header over bytes it does not
    own, [step] being the bytes from a row to the next. *)
Definition Mat_of_data (rows cols type : Z) (data : ptr) (step : Z) : Mat :=
  mkMat type rows cols step data.

(** [mat.row(i).data]. *)
Definition Mat_row_data (mat : Mat) (i : Z) : ptr :=
  m_data mat +ₚ (m_step mat * i).

(** The address of [mat.at<T>(i, j)[c]], [esz] being [sizeof(T)]. *)
Definition Mat_at (mat : Mat) (esz i j c : Z) : ptr :=
  Mat_row_data mat i +ₚ (j * esz + c).

(** ** What the conversions take from the two libraries

    Pixel conversions of Qt and OpenCV whose code is not part of this
    repository, and the contents of storage that has been allocated and not
    yet written. *)

(** The scale factors passed to [convertTo]: the [double] literals
    [255./65535.] and [255.]. *)
Inductive Scale : Type := Scale_255_over_65535 | Scale_255.

Inductive ColorConversion : Type := CV_BGR2GRAY | CV_BGRA2GRAY.

Class Libs : Type := {
  uninit : nat -> Z -> uchar;
  QImage_convertToFormat : QImage -> Format -> M QImage;
  Mat_convertTo : Mat -> Z -> Scale -> M Mat;
  cv_cvtColor : Mat -> ColorConversion -> Z -> M Mat
}.

Section Conversions.
Context `{Libs}.

(** Allocation of [n] bytes: a new block, distinct from every block in use. *)
Definition alloc (n : Z) : M ptr :=
  fun m =>
    let b := Datatypes.S (length m) in
    Some (Ptr b 0, m ++ [uninit b <$> seqZ 0 n]).

(** [QImage(int width, int height, Format)]: an image that owns its bytes,
    with scan lines of [scanline_bytes]; null for an empty size or an
    invalid format. *)
Definition QImage_new (width height : Z) (format : Format) : M QImage :=
  if (width <=? 0) || (height <=? 0) || bool_decide (format = Format_Invalid)
  then ret None
  else
    let bpl := scanline_bytes width (depthForFormat format) in
    let colors :=
      match format with
      | Format_Mono | Format_MonoLSB => [qRgb 0 0 0; qRgb 255 255 255]
      | _ => []
      end in
    data <- alloc (bpl * height) ;;
    ret (Some (mkQImageData width height format bpl data colors)).

(** [cv::Mat(rows, cols, type)]: a matrix that owns its bytes, rows
    contiguous; no storage for an empty one. *)
Definition Mat_new (rows cols type : Z) : M Mat :=
  let step := cols * CV_ELEM_SIZE type in
  if 0 <? rows * cols
  then data <- alloc (rows * step) ;; ret (mkMat type rows cols step data)
  else ret (mkMat type rows cols step nullptr).

(** The [switch] at the head of [image2Mat]. *)
Definition normalize (img : QImage) : M QImage :=
  match QImage_format img with
  | Format_Indexed8 | Format_RGB32 | Format_ARGB32 | Format_RGB888 =>
      ret img
  | Format_Mono | Format_MonoLSB =>
      QImage_convertToFormat img Format_Indexed8
  | Format_RGB444 | Format_RGB555 | Format_RGB666 | Format_RGB16 =>
      QImage_convertToFormat img Format_RGB888
  | _ => QImage_convertToFormat img Format_RGB32
  end.

(** The grey value the source computes from three bytes read at [data],
    [data+1] and [data+2]: the sum is at most 255 * 32764, within [int],
    and the quotient at most 254, within [uchar]. *)
Definition gray_of (d0 d1 d2 : uchar) : uchar :=
  to_uchar ((uchar_val d0 * 3728 + uchar_val d1 * 19238 + uchar_val d2 * 9798)
              `quot` 32768).

(** The three branches on [channels] of [image2Mat]: the loops over the
    rows of [mat] for a destination of 1, 3 and 4 channels. *)
Definition image2Mat_rows1 (img image : QImage) (mat : Mat) : M unit :=
  for_ (m_rows mat) (fun i _ =>
    let data := QImage_scanLine image i in
    if bool_decide (QImage_format image = Format_Indexed8) then
      memcpy (Mat_row_data mat i) data (QImage_width img)
    else
      for_ (m_cols mat) (fun j data =>
        d0 <- read data ;;
        d1 <- read (data +ₚ 1) ;;
        d2 <- read (data +ₚ 2) ;;
        write (Mat_at mat 1 i j 0) (gray_of d0 d1 d2) ;;
        ret (data +ₚ (QImage_depth image `quot` 8))) data ;;
      ret tt) tt.

Definition image2Mat_rows3 (img image : QImage) (mat : Mat) : M unit :=
  for_ (m_rows mat) (fun i _ =>
    let data := QImage_scanLine image i in
    if bool_decide (QImage_format image = Format_Indexed8) then
      for_ (m_cols mat) (fun j data =>
        d <- read data ;;
        write (Mat_at mat 3 i j 0) d ;;
        d <- read data ;;
        write (Mat_at mat 3 i j 1) d ;;
        d <- read data ;;
        write (Mat_at mat 3 i j 2) d ;;
        ret (data +ₚ 1)) data ;;
      ret tt
    else if bool_decide (QImage_format image = Format_RGB888) then
      memcpy (Mat_row_data mat i) data (QImage_width img * 3)
    else
      for_ (m_cols mat) (fun j data =>
        d <- read (data +ₚ 0) ;;
        write (Mat_at mat 3 i j 0) d ;;
        d <- read (data +ₚ 1) ;;
        write (Mat_at mat 3 i j 1) d ;;
        d <- read (data +ₚ 2) ;;
        write (Mat_at mat 3 i j 2) d ;;
        ret (data +ₚ 4)) data ;;
      ret tt) tt.

Definition image2Mat_rows4 (img image : QImage) (mat : Mat) : M unit :=
  for_ (m_rows mat) (fun i _ =>
    let data := QImage_scanLine image i in
    if bool_decide (QImage_format image = Format_Indexed8) then
      for_ (m_cols mat) (fun j data =>
        d <- read data ;;
        write (Mat_at mat 4 i j 0) d ;;
        d <- read data ;;
        write (Mat_at mat 4 i j 1) d ;;
        d <- read data ;;
        write (Mat_at mat 4 i j 2) d ;;
        write (Mat_at mat 4 i j 3) (to_uchar 255) ;;
        ret (data +ₚ 1)) data ;;
      ret tt
    else if bool_decide (QImage_format image = Format_RGB888) then
      for_ (m_cols mat) (fun j data =>
        d <- read (data +ₚ 0) ;;
        write (Mat_at mat 4 i j 0) d ;;
        d <- read (data +ₚ 1) ;;
        write (Mat_at mat 4 i j 1) d ;;
        d <- read (data +ₚ 2) ;;
        write (Mat_at mat 4 i j 2) d ;;
        write (Mat_at mat 4 i j 3) (to_uchar 255) ;;
        ret (data +ₚ 3)) data ;;
      ret tt
    else
      memcpy (Mat_row_data mat i) data (QImage_width img * 4)) tt.

Definition image2Mat (img : QImage) (mat_channels : Z) : M Mat :=
  if bool_decide (mat_channels <> 0) && bool_decide (mat_channels <> 1)
     && bool_decide (mat_channels <> 3) && bool_decide (mat_channels <> 4)
  then ret Mat_default
  else if QImage_isNull img then ret Mat_default
  else
    image <- normalize img ;;
    let channels :=
      if mat_channels =? 0 then QImage_depth image `quot` 8 else mat_channels in
    mat <- Mat_new (QImage_height image) (QImage_width image) (CV_8UC channels) ;;
    (if channels =? 1 then image2Mat_rows1 img image mat
     else if channels =? 3 then image2Mat_rows3 img image mat
     else if channels =? 4 then image2Mat_rows4 img image mat
     else ret tt) ;;
    ret mat.

(** The depth normalisation at the head of [mat2Image]; [mat_b] stays the
    default matrix for a depth that is none of the three. *)
Definition to_8bit (mat : Mat) : M Mat :=
  if Mat_depth mat =? CV_8U then ret mat
  else if Mat_depth mat =? CV_16U then Mat_convertTo mat CV_8U Scale_255_over_65535
  else if Mat_depth mat =? CV_32F then Mat_convertTo mat CV_8U Scale_255
  else ret Mat_default.

(** The colour table both matrix-to-image functions build:
    [for (int i=0; i<256; ++i) colorTable.append(qRgb(i,i,i))]. *)
Definition gray_color_table : list QRgb :=
  fold_left (fun colorTable i => colorTable ++ [qRgb i i i]) (seqZ 0 256) [].

(** The loops over the rows of [mat_b] in the three branches on [format]
    of [mat2Image]. *)
Definition mat2Image_rows_RGB32 (mat_b : Mat) (outImage : QImage) : M unit :=
  for_ (m_rows mat_b) (fun i _ =>
    let data := QImage_scanLine outImage i in
    if m_type mat_b =? CV_8UC1 then
      for_ (m_cols mat_b) (fun j data =>
        v <- read (Mat_at mat_b 1 i j 0) ;;
        data <- put data v ;;
        v <- read (Mat_at mat_b 1 i j 0) ;;
        data <- put data v ;;
        v <- read (Mat_at mat_b 1 i j 0) ;;
        data <- put data v ;;
        put data (to_uchar 255)) data ;;
      ret tt
    else if m_type mat_b =? CV_8UC3 then
      for_ (m_cols mat_b) (fun j data =>
        v <- read (Mat_at mat_b 3 i j 0) ;;
        data <- put data v ;;
        v <- read (Mat_at mat_b 3 i j 1) ;;
        data <- put data v ;;
        v <- read (Mat_at mat_b 3 i j 2) ;;
        data <- put data v ;;
        put data (to_uchar 255)) data ;;
      ret tt
    else if m_type mat_b =? CV_8UC4 then
      memcpy data (Mat_row_data mat_b i) (m_cols mat_b * 4)
    else ret tt) tt.

Definition mat2Image_rows_RGB888 (mat_b : Mat) (outImage : QImage) : M unit :=
  for_ (m_rows mat_b) (fun i _ =>
    let data := QImage_scanLine outImage i in
    if m_type mat_b =? CV_8UC1 then
      for_ (m_cols mat_b) (fun j data =>
        v <- read (Mat_at mat_b 1 i j 0) ;;
        data <- put data v ;;
        v <- read (Mat_at mat_b 1 i j 0) ;;
        data <- put data v ;;
        v <- read (Mat_at mat_b 1 i j 0) ;;
        put data v) data ;;
      ret tt
    else if m_type mat_b =? CV_8UC3 then
      memcpy data (Mat_row_data mat_b i) (m_cols mat_b * 3)
    else if m_type mat_b =? CV_8UC4 then
      for_ (m_cols mat_b) (fun j data =>
        v <- read (Mat_at mat_b 4 i j 0) ;;
        data <- put data v ;;
        v <- read (Mat_at mat_b 4 i j 1) ;;
        data <- put data v ;;
        v <- read (Mat_at mat_b 4 i j 2) ;;
        put data v) data ;;
      ret tt
    else ret tt) tt.

Definition mat2Image_rows_Indexed8 (mat_b : Mat) (outImage : QImage) : M unit :=
  for_ (m_rows mat_b) (fun i _ =>
    let data := QImage_scanLine outImage i in
    memcpy data (Mat_row_data mat_b i) (m_cols mat_b)) tt.

Definition mat2Image (mat : Mat) (format : Format) : M QImage :=
  if Mat_empty mat then ret QImage_null
  else
    mat_b <- to_8bit mat ;;
    if bool_decide (format = Format_RGB32) then
      outImage <- QImage_new (m_cols mat_b) (m_rows mat) Format_RGB32 ;;
      mat2Image_rows_RGB32 mat_b outImage ;;
      ret outImage
    else if bool_decide (format = Format_RGB888) then
      outImage <- QImage_new (m_cols mat_b) (m_rows mat) Format_RGB888 ;;
      mat2Image_rows_RGB888 mat_b outImage ;;
      ret outImage
    else if bool_decide (format = Format_Indexed8) then
      mat_b <- (if m_type mat_b =? CV_8UC3 then cv_cvtColor mat_b CV_BGR2GRAY 1
                else if m_type mat_b =? CV_8UC4 then cv_cvtColor mat_b CV_BGRA2GRAY 1
                else ret mat_b) ;;
      outImage <- QImage_new (m_cols mat_b) (m_rows mat_b) Format_Indexed8 ;;
      let outImage := QImage_setColorTable outImage gray_color_table in
      mat2Image_rows_Indexed8 mat_b outImage ;;
      ret outImage
    else ret QImage_null.

Definition image2Mat_shared (img : QImage) : M Mat :=
  if QImage_isNull img then ret Mat_default
  else
    match QImage_format img with
    | Format_Indexed8 | Format_RGB888 | Format_RGB32 | Format_ARGB32 =>
        ret (Mat_of_data (QImage_height img) (QImage_width img)
               (CV_8UC (QImage_depth img `quot` 8))
               (QImage_bits img) (QImage_bytesPerLine img))
    | _ => ret Mat_default
    end.

Definition mat2Image_shared (mat : Mat) : M QImage :=
  if Mat_empty mat then ret QImage_null
  else if m_type mat =? CV_8UC1 then
    let img := QImage_of_data (m_data mat) (m_cols mat) (m_rows mat)
                 (m_step mat) Format_Indexed8 in
    ret (QImage_setColorTable img gray_color_table)
  else if m_type mat =? CV_8UC3 then
    ret (QImage_of_data (m_data mat) (m_cols mat) (m_rows mat)
           (m_step mat) Format_RGB888)
  else if m_type mat =? CV_8UC4 then
    ret (QImage_of_data (m_data mat) (m_cols mat) (m_rows mat)
           (m_step mat) Format_ARGB32)
  else ret QImage_null.

End Conversions.

(** ** Vocabulary of the statements *)

(** [p] can be dereferenced in [m]. *)
Definition valid (m : mem) (p : ptr) : Prop := is_Some (load m p).

(** [m'] is [m] with the [n] bytes at [p] replaced by [f 0 .. f (n-1)]. *)
Definition updated (m m' : mem) (p : ptr) (n : Z) (f : Z -> uchar) : Prop :=
  (forall k, 0 <= k < n -> valid m (p +ₚ k)) /\
  (forall q, load m' q =
             if decide (p_block q = p_block p /\ p_off p <= p_off q < p_off p + n)
             then Some (f (p_off q - p_off p))
             else load m q).

(** [m'] differs from [m] on block [b] at most, and has the same valid
    addresses. *)
Definition same_outside (b : nat) (m m' : mem) : Prop :=
  (forall q, p_block q <> b -> load m' q = load m q) /\
  (forall q, valid m' q <-> valid m q).

(** Bytes of a row of pixels. *)
Definition QImage_row_bytes (img : QImage) : Z :=
  QImage_width img * (QImage_depth img `quot` 8).
Definition Mat_row_bytes (mat : Mat) : Z := m_cols mat * CV_ELEM_SIZE (m_type mat).

(** A non-null image whose rows of pixels lie in the store. *)
Definition QImage_ok (m : mem) (img : QImage) : Prop :=
  QImage_isNull img = false /\
  0 < QImage_width img /\ 0 < QImage_height img /\
  QImage_row_bytes img <= QImage_bytesPerLine img /\
  forall i k, 0 <= i < QImage_height img -> 0 <= k < QImage_row_bytes img ->
              valid m (QImage_scanLine img i +ₚ k).

(** A non-empty matrix whose rows of pixels lie in the store. *)
Definition Mat_ok (m : mem) (mat : Mat) : Prop :=
  0 < m_rows mat /\ 0 < m_cols mat /\
  Mat_row_bytes mat <= m_step mat /\
  forall i k, 0 <= i < m_rows mat -> 0 <= k < Mat_row_bytes mat ->
              valid m (Mat_row_data mat i +ₚ k).

(** The byte [k] of row [i] of an image, of a matrix. *)
Definition QImage_byte (m : mem) (img : QImage) (i k : Z) : option uchar :=
  load m (QImage_scanLine img i +ₚ k).
Definition Mat_byte (m : mem) (mat : Mat) (i k : Z) : option uchar :=
  load m (Mat_row_data mat i +ₚ k).

(** The byte at [p], for addresses that are valid. *)
Definition byte_at (m : mem) (p : ptr) : uchar := default Byte.x00 (load m p).

(** The source pixel of column [j] of row [i], [k] bytes per pixel. *)
Definition src_px (image : QImage) (k i j : Z) : ptr :=
  QImage_scanLine image i +ₚ (j * k).

(** The weighted sum of the specification, on the values of three bytes. *)
Definition luma (r g b : Z) : Z := (r * 9798 + g * 19238 + b * 3728) / 32768.

(** The identity grey palette: entry [i] is the grey (i, i, i). *)
Definition identity_palette : list QRgb := (fun i => qRgb i i i) <$> seqZ 0 256.

(** Executable forms of [QImage_ok] and [Mat_ok]. *)
Definition rows_validb (m : mem) (rowp : Z -> ptr) (h n : Z) : bool :=
  forallb (fun i =>
    forallb (fun k => bool_decide (is_Some (load m (rowp i +ₚ k)))) (seqZ 0 n))
    (seqZ 0 h).

Definition QImage_okb (m : mem) (img : QImage) : bool :=
  negb (QImage_isNull img) && (0 <? QImage_width img) && (0 <? QImage_height img)
  && (QImage_row_bytes img <=? QImage_bytesPerLine img)
  && rows_validb m (QImage_scanLine img) (QImage_height img) (QImage_row_bytes img).

Definition Mat_okb (m : mem) (mat : Mat) : bool :=
  (0 <? m_rows mat) && (0 <? m_cols mat) && (Mat_row_bytes mat <=? m_step mat)
  && rows_validb m (Mat_row_data mat) (m_rows mat) (Mat_row_bytes mat).

(** ** Inputs on which the conversions are evaluated *)

(** The libraries for inputs that need none of their pixel conversions:
    storage is allocated zeroed and the three conversions are left
    undefined. *)
Definition eval_libs : Libs :=
  {| uninit := fun _ _ => Byte.x00;
     QImage_convertToFormat := fun _ _ _ => None;
     Mat_convertTo := fun _ _ _ _ => None;
     cv_cvtColor := fun _ _ _ _ => None |}.

(** One RGB32 pixel, bytes B=10, G=20, R=30, A=255. *)
Definition mem_bgra : mem := [[Byte.x0a; Byte.x14; Byte.x1e; Byte.xff]].
Definition img_bgra : QImage :=
  Some (mkQImageData 1 1 Format_RGB32 4 (Ptr 1 0) []).

(** One white RGB32 pixel. *)
Definition mem_white : mem := [[Byte.xff; Byte.xff; Byte.xff; Byte.xff]].
Definition img_white : QImage :=
  Some (mkQImageData 1 1 Format_RGB32 4 (Ptr 1 0) []).

(** One RGB888 pixel, bytes R=30, G=20, B=10, in a scan line of 4 bytes. *)
Definition mem_rgb : mem := [[Byte.x1e; Byte.x14; Byte.x0a; Byte.x00]].
Definition img_rgb : QImage :=
  Some (mkQImageData 1 1 Format_RGB888 4 (Ptr 1 0) []).

(** A row of four RGB888 pixels: 12 bytes, no padding. *)
Definition mem_rgb4 : mem :=
  [[Byte.x01; Byte.x02; Byte.x03; Byte.x04; Byte.x05; Byte.x06;
    Byte.x07; Byte.x08; Byte.x09; Byte.x0a; Byte.x0b; Byte.x0c]].
Definition img_rgb4 : QImage :=
  Some (mkQImageData 4 1 Format_RGB888 12 (Ptr 1 0) []).

(** One grey pixel of value 7, as an Indexed8 image and as matrices. *)
Definition mem_gray : mem := [[Byte.x07; Byte.x00; Byte.x00; Byte.x00]].
Definition img_gray : QImage :=
  Some (mkQImageData 1 1 Format_Indexed8 4 (Ptr 1 0) []).
Definition mat_gray : Mat := mkMat CV_8UC1 1 1 1 (Ptr 1 0).

(** Two rows of one RGB888 pixel each: 3 bytes of pixels in scan lines of
    4 bytes; the same bytes as a 3-channel matrix with a step of 4. *)
Definition mem_rgb_2rows : mem :=
  [[Byte.x01; Byte.x02; Byte.x03; Byte.x00; Byte.x04; Byte.x05; Byte.x06; Byte.x00]].
Definition img_rgb_2rows : QImage :=
  Some (mkQImageData 1 2 Format_RGB888 4 (Ptr 1 0) []).
Definition mat_bgr_2rows : Mat := mkMat CV_8UC3 2 1 4 (Ptr 1 0).

(** Eight 1-bit pixels: an image of a format the shared conversion does
    not support. *)
Definition img_mono : QImage :=
  Some (mkQImageData 8 1 Format_Mono 4 (Ptr 1 0) [qRgb 0 0 0; qRgb 255 255 255]).

(** One 3-channel pixel as a matrix, and a 2-channel matrix. *)
Definition mat_bgr : Mat := mkMat CV_8UC3 1 1 3 (Ptr 1 0).
Definition mat_2ch : Mat := mkMat (CV_8UC 2) 1 1 2 (Ptr 1 0).

(** One 4-channel pixel as a matrix, over the bytes of [mem_bgra]. *)
Definition mat_bgra : Mat := mkMat CV_8UC4 1 1 4 (Ptr 1 0).

(** ** What the copying conversions compute, byte by byte

    The four formats the loops of [image2Mat] read, with the bytes of their
    pixels. *)
Definition canonical (fmt : Format) : Prop :=
  fmt = Format_Indexed8 \/ fmt = Format_RGB888 \/
  fmt = Format_RGB32 \/ fmt = Format_ARGB32.

(** The byte at offset [k] of row [i] of the matrix of [ch] channels that
    [image2Mat] fills from [image]: pixel [k / ch], channel [k mod ch]. *)
Definition image2Mat_byte (m : mem) (image : QImage) (ch i k : Z) : uchar :=
  let s := QImage_depth image `quot` 8 in
  let t := k mod ch in
  let p := src_px image s i (k / ch) in
  if ch =? 1 then
    if s =? 1 then byte_at m p
    else gray_of (byte_at m p) (byte_at m (p +ₚ 1)) (byte_at m (p +ₚ 2))
  else if s =? 1 then
    if t =? 3 then to_uchar 255 else byte_at m p
  else if (s =? 3) && (t =? 3) then to_uchar 255
  else byte_at m (p +ₚ t).

(** The byte at offset [k] of row [i] of the image of [bpp] bytes per pixel
    that [mat2Image] fills from an 8-bit matrix of [cn] channels. *)
Definition mat2Image_byte (m : mem) (mat : Mat) (cn bpp i k : Z) : uchar :=
  let t := k mod bpp in
  if (bpp =? 4) && (t =? 3) && negb (cn =? 4) then to_uchar 255
  else byte_at m (Mat_at mat cn i (k / bpp) (if cn =? 1 then 0 else t)).

(** The bytes per pixel of the three formats [mat2Image] produces. *)
Definition bytes_per_pixel (fmt : Format) : Z := depthForFormat fmt `quot` 8.

(** The format in which [image2Mat] reads an image of format [f]: [f]
    itself for the four formats its loops handle, and otherwise the format
    its [switch] converts the image to. *)
Definition read_format (f : Format) : Format :=
  match f with
  | Format_Indexed8 | Format_RGB32 | Format_ARGB32 | Format_RGB888 => f
  | Format_Mono | Format_MonoLSB => Format_Indexed8
  | Format_RGB444 | Format_RGB555 | Format_RGB666 | Format_RGB16 => Format_RGB888
  | _ => Format_RGB32
  end.

(** Libraries for the inputs that go through a pixel conversion of Qt or
    OpenCV: each conversion returns new zeroed storage of the size and
    type the library documents for its result.  The values of the pixels
    are not those of the libraries; only the shape of the result is used
    where these stand for them. *)
Definition shape_libs : Libs :=
  {| uninit := fun _ _ => Byte.x00;
     QImage_convertToFormat := fun img fmt =>
       @QImage_new eval_libs (QImage_width img) (QImage_height img) fmt;
     Mat_convertTo := fun mat rtype _ =>
       @Mat_new eval_libs (m_rows mat) (m_cols mat)
         (CV_MAKETYPE rtype (Mat_channels mat));
     cv_cvtColor := fun mat _ dcn =>
       @Mat_new eval_libs (m_rows mat) (m_cols mat)
         (CV_MAKETYPE (Mat_depth mat) dcn) |}.

(** One 16-bit pixel as a matrix, over two bytes of [mem_gray]; the
    8-bit matrix and the store [shape_libs] returns for it. *)
Definition mat_16u : Mat := mkMat (CV_MAKETYPE CV_16U 1) 1 1 2 (Ptr 1 0).
Definition mat_16u_as_8u : Mat := mkMat CV_8UC1 1 1 1 (Ptr 2 0).
Definition mem_16u_as_8u : mem := mem_gray ++ [[Byte.x00]].

(** One pixel of signed bytes: a depth [mat2Image] does not convert. *)
Definition mat_8s : Mat := mkMat (CV_MAKETYPE CV_8S 1) 1 1 1 (Ptr 1 0).

(** The Indexed8 image and the store [shape_libs] returns for [img_mono]
    in [mem_gray]. *)
Definition img_mono_as_indexed8 : QImage :=
  Some (mkQImageData 8 1 Format_Indexed8 8 (Ptr 2 0) []).
Definition mem_mono_as_indexed8 : mem :=
  mem_gray ++ [[Byte.x00; Byte.x00; Byte.x00; Byte.x00;
                Byte.x00; Byte.x00; Byte.x00; Byte.x00]].

(** The grey matrix and the store [shape_libs] returns for [mat_bgr] in
    [mem_rgb]. *)
Definition mat_bgr_as_gray : Mat := mkMat CV_8UC1 1 1 1 (Ptr 2 0).
Definition mem_bgr_as_gray : mem := mem_rgb ++ [[Byte.x00]].

(** The stores [mem_rgb] and [mem_rgb_2rows] with other padding bytes. *)
Definition mem_rgb_pad : mem := [[Byte.x1e; Byte.x14; Byte.x0a; Byte.xff]].
Definition mem_rgb_2rows_pad : mem :=
  [[Byte.x01; Byte.x02; Byte.x03; Byte.xaa; Byte.x04; Byte.x05; Byte.x06; Byte.xbb]].

(** ** OpenCV: cv::Mat::convertTo from 16 bits to 8

    [convertTo] is a routine of OpenCV, outside this repository.  It is
    modelled here from OpenCV's documentation, for the call of [mat2Image]
    on a matrix of depth 16U: the destination is created anew, continuous,
    with the size and the channels of the source and the depth asked for,
    and each of its elements is [saturate_cast<uchar>(alpha * v)] of the
    element [v] of the source; [saturate_cast] to an integer type "first
    rounds the floating-point value to the nearest integer" and then clips
    it to the range of the type.

    The product is computed by OpenCV in floating point.  With
    [alpha = 255/65535] it is [v / 257], which for an integer [v] is at
    least 1/514 away from every half-integer ([rescale_16U_margin] below):
    neither the error of the floating-point product nor the way a tie is
    rounded can change the integer it is rounded to, which is the integer
    nearest to the exact quotient.  The elements of the source are read in
    the byte order of the host, taken to be little-endian. *)

Definition CV_16UC1 : Z := CV_MAKETYPE CV_16U 1.

(** The integer nearest to [a / b] for [0 < b], a tie going to the even
    one ([cvRound]). *)
Definition cvRound_ratio (a b : Z) : Z :=
  let q := a / b in
  let r := a mod b in
  if 2 * r <? b then q
  else if b <? 2 * r then q + 1
  else if Z.even q then q else q + 1.

(** [saturate_cast<uchar>] of an integer. *)
Definition saturate_cast_uchar (v : Z) : Z := Z.max 0 (Z.min 255 v).

(** [saturate_cast<uchar>(v * 255./65535.)]. *)
Definition rescale_16U (v : Z) : Z :=
  saturate_cast_uchar (cvRound_ratio (v * 255) 65535).

(** The [ushort] stored at [p]. *)
Definition u16_at (m : mem) (p : ptr) : Z :=
  uchar_val (byte_at m p) + 256 * uchar_val (byte_at m (p +ₚ 1)).

(** [mat.convertTo(dst, CV_8U, 255./65535.)] on a matrix of depth 16U:
    [dst] and the store with the storage of [dst]. *)
Definition convertTo_16U_8U (mat : Mat) : M Mat :=
  fun m =>
    let cn := Mat_channels mat in
    let n := m_cols mat * cn in
    if negb (0 <? m_rows mat * m_cols mat) then
      Some (mkMat (CV_8UC cn) (m_rows mat) (m_cols mat) n nullptr, m)
    else if rows_validb m (Mat_row_data mat) (m_rows mat) (2 * n) then
      let b := Datatypes.S (length m) in
      let element idx :=
        to_uchar (rescale_16U
                    (u16_at m (Mat_row_data mat (idx / n) +ₚ 2 * (idx mod n)))) in
      Some (mkMat (CV_8UC cn) (m_rows mat) (m_cols mat) n (Ptr b 0),
            m ++ [element <$> seqZ 0 (m_rows mat * n)])
    else None.

(** The libraries do as documented for the rescale of 16-bit matrices. *)
Definition convertTo_as_documented `{Libs} : Prop :=
  forall mat m, Mat_depth mat = CV_16U ->
    Mat_convertTo mat CV_8U Scale_255_over_65535 m = convertTo_16U_8U mat m.

(** Libraries with this [convertTo] and none of the other conversions. *)
Definition opencv_libs : Libs :=
  {| uninit := fun _ _ => Byte.x00;
     QImage_convertToFormat := fun _ _ _ => None;
     Mat_convertTo := fun mat rtype scale =>
       match scale with
       | Scale_255_over_65535 =>
           if (Mat_depth mat =? CV_16U) && (rtype =? CV_8U)
           then convertTo_16U_8U mat else fun _ => None
       | Scale_255 => fun _ => None
       end;
     cv_cvtColor := fun _ _ _ _ => None |}.

(** A row of three 16-bit pixels of values 0, 32768 and 65535. *)
Definition mem_16u_row : mem :=
  [[Byte.x00; Byte.x00; Byte.x00; Byte.x80; Byte.xff; Byte.xff]].
Definition mat_16u_row : Mat := mkMat CV_16UC1 1 3 6 (Ptr 1 0).

(** ** Facts on bytes and on the store *)

Lemma uchar_val_range (b : uchar) : 0 <= uchar_val b < 256.
Proof. unfold uchar_val. pose proof (Byte.to_N_bounded b) as Hb. lia. Qed.

Lemma uchar_val_to_uchar (z : Z) : uchar_val (to_uchar z) = z mod 256.
Proof.
  unfold uchar_val, to_uchar.
  pose proof (Z.mod_pos_bound z 256 ltac:(lia)) as Hr.
  destruct (Byte.of_N (Z.to_N (z mod 256))) as [b|] eqn:E.
  - simpl. apply Byte.to_of_N in E. rewrite E. lia.
  - apply Byte.of_N_None_iff in E. lia.
Qed.

Lemma to_uchar_uchar_val (b : uchar) : to_uchar (uchar_val b) = b.
Proof.
  unfold to_uchar. pose proof (uchar_val_range b) as Hr.
  rewrite Z.mod_small by lia. unfold uchar_val.
  rewrite N2Z.id, Byte.of_to_N. reflexivity.
Qed.

Lemma ptr_add_add (p : ptr) (a b : Z) : p +ₚ a +ₚ b = p +ₚ (a + b).
Proof. destruct p; unfold ptr_add; simpl. f_equal. lia. Qed.

Lemma ptr_add_0 (p : ptr) : p +ₚ 0 = p.
Proof. destruct p; unfold ptr_add; simpl. f_equal. lia. Qed.

Lemma ptr_eq (p q : ptr) : p = q <-> p_block p = p_block q /\ p_off p = p_off q.
Proof. destruct p, q; simpl. split; [intros [= -> ->]|intros [-> ->]]; done. Qed.

Lemma load_Some_block (m : mem) (q : ptr) :
  valid m q -> (0 < p_block q <= length m)%nat.
Proof.
  unfold valid, load, block_of. destruct (p_block q) as [|k]; [intros [? [=]]|].
  destruct (m !! k) as [blk|] eqn:E; [|intros [? [=]]].
  intros _. apply lookup_lt_Some in E. lia.
Qed.

Lemma load_store (m m' : mem) (p : ptr) (v : uchar) :
  store m p v = Some m' ->
  forall q, load m' q = if decide (q = p) then Some v else load m q.
Proof.
  unfold store. destruct p as [[|k] o]; simpl; [done|].
  destruct (m !! k) as [blk|] eqn:E; [|done].
  case_decide as Ho; [|done]. intros [= <-] [b o'].
  unfold load, block_of; simpl. destruct b as [|k'].
  { by rewrite (decide_False (P := Ptr _ _ = Ptr _ _)) by congruence. }
  destruct (decide (k' = k)) as [->|Hk].
  - rewrite list_lookup_insert_eq by (eapply lookup_lt_Some; eauto). rewrite E.
    destruct (decide (o' = o)) as [->|Hne].
    + rewrite (decide_True (P := Ptr _ _ = Ptr _ _)) by done.
      rewrite decide_True by lia. apply list_lookup_insert_eq. lia.
    + rewrite (decide_False (P := Ptr _ _ = Ptr _ _)) by congruence.
      case_decide; [|done]. apply list_lookup_insert_ne. lia.
  - rewrite list_lookup_insert_ne by done.
    by rewrite (decide_False (P := Ptr _ _ = Ptr _ _)) by congruence.
Qed.

Lemma store_valid (m : mem) (p : ptr) (v : uchar) :
  valid m p -> exists m', store m p v = Some m'.
Proof.
  unfold valid, load, store, block_of. destruct p as [[|k] o]; simpl.
  { intros [? [=]]. }
  destruct (m !! k) as [blk|]; [|intros [? [=]]].
  case_decide as Ho; [|intros [? [=]]]. intros [x Hx].
  apply lookup_lt_Some in Hx. rewrite decide_True by lia. eauto.
Qed.

Lemma write_updated (m : mem) (p : ptr) (v : uchar) :
  valid m p ->
  exists m', write p v m = Some (tt, m') /\ updated m m' p 1 (fun _ => v).
Proof.
  intros Hv. destruct (store_valid m p v Hv) as [m' Hs].
  exists m'. unfold write. rewrite Hs. split; [done|]. split.
  - intros k Hk. assert (k = 0) as -> by lia. by rewrite ptr_add_0.
  - intros q. rewrite (load_store _ _ _ _ Hs).
    destruct (decide (q = p)) as [->|Hne].
    + by rewrite decide_True by lia.
    + rewrite decide_False; [done|]. intros [Hb Ho]. apply Hne, ptr_eq. lia.
Qed.

Lemma load_byte_at (m : mem) (p : ptr) : valid m p -> load m p = Some (byte_at m p).
Proof. unfold valid, byte_at. intros [v ->]. done. Qed.

Lemma read_valid (m : mem) (p : ptr) :
  valid m p -> read p m = Some (byte_at m p, m).
Proof. intros Hv. unfold read. by rewrite (load_byte_at _ _ Hv). Qed.

Lemma updated_valid (m m' : mem) (p : ptr) (n : Z) (f : Z -> uchar) :
  updated m m' p n f -> forall q, valid m' q <-> valid m q.
Proof.
  intros [Hv Hl] q. unfold valid at 1. rewrite Hl. case_decide as Hin; [|done].
  split; [intros _|intros _; unfold is_Some; eauto].
  replace q with (p +ₚ (p_off q - p_off p)); [apply Hv; lia|].
  apply ptr_eq. simpl. split; [symmetry; apply Hin|lia].
Qed.

Lemma updated_other_block (m m' : mem) (p : ptr) (n : Z) (f : Z -> uchar) (q : ptr) :
  updated m m' p n f -> p_block q <> p_block p -> load m' q = load m q.
Proof. intros [_ Hl] Hne. rewrite Hl. by rewrite decide_False by tauto. Qed.

Lemma updated_inside (m m' : mem) (p : ptr) (n : Z) (f : Z -> uchar) (k : Z) :
  updated m m' p n f -> 0 <= k < n -> load m' (p +ₚ k) = Some (f k).
Proof.
  intros [_ Hl] Hk. rewrite Hl. simpl. rewrite decide_True by lia.
  do 2 f_equal. lia.
Qed.

Lemma updated_nil (m : mem) (p : ptr) (n : Z) (f : Z -> uchar) :
  n <= 0 -> updated m m p n f.
Proof.
  intros Hn. split; [intros; lia|]. intros q. by rewrite decide_False by lia.
Qed.

Lemma updated_ext (m m' : mem) (p : ptr) (n : Z) (f g : Z -> uchar) :
  (forall k, 0 <= k < n -> f k = g k) -> updated m m' p n f -> updated m m' p n g.
Proof.
  intros Hfg [Hv Hl]. split; [done|]. intros q. rewrite Hl.
  case_decide as Hin; [|done]. rewrite Hfg; [done|lia].
Qed.

(** One more byte written after the [a] bytes already replaced. *)
Lemma updated_write_step (m m1 : mem) (p : ptr) (a : Z) (f : Z -> uchar) (v : uchar) :
  updated m m1 p a f -> 0 <= a -> valid m (p +ₚ a) ->
  exists m2, write (p +ₚ a) v m1 = Some (tt, m2) /\
             updated m m2 p (a + 1) (fun k => if decide (k < a) then f k else v).
Proof.
  intros Hu Ha Hv.
  assert (valid m1 (p +ₚ a)) as Hv1 by (by apply (updated_valid _ _ _ _ _ Hu)).
  destruct (write_updated m1 (p +ₚ a) v Hv1) as (m2 & Hw & [_ Hl2]).
  exists m2. split; [done|]. destruct Hu as [Hv0 Hl1]. split.
  - intros k Hk. destruct (decide (k < a)); [apply Hv0; lia|].
    by replace k with a by lia.
  - intros q. rewrite Hl2, Hl1. simpl.
    repeat case_decide; try done; try lia; try (exfalso; intuition lia).
Qed.

(** ** Loops *)

Lemma iter_from_inv {S} (I : Z -> S -> mem -> Prop) (body : Z -> S -> M S)
    (fuel : nat) (i : Z) (s : S) (m : mem) :
  I i s m ->
  (forall j s m, i <= j < i + Z.of_nat fuel -> I j s m ->
                 exists s' m', body j s m = Some (s', m') /\ I (j + 1) s' m') ->
  exists s' m', iter_from fuel i body s m = Some (s', m') /\
                I (i + Z.of_nat fuel) s' m'.
Proof.
  revert i s m. induction fuel as [|fuel IH]; intros i s m HI Hbody.
  - exists s, m. simpl. rewrite Z.add_0_r. done.
  - destruct (Hbody i s m ltac:(lia) HI) as (s1 & m1 & Hb & HI1).
    destruct (IH (i + 1) s1 m1 HI1) as (s2 & m2 & Hit & HI2).
    { intros j s' m' Hj. apply Hbody. lia. }
    exists s2, m2. simpl. unfold bind at 1. rewrite Hb. split; [done|].
    by replace (i + Z.of_nat (Datatypes.S fuel)) with (i + 1 + Z.of_nat fuel) by lia.
Qed.

Lemma for_inv {S} (I : Z -> S -> mem -> Prop) (body : Z -> S -> M S)
    (n : Z) (s : S) (m : mem) :
  0 <= n -> I 0 s m ->
  (forall j s m, 0 <= j < n -> I j s m ->
                 exists s' m', body j s m = Some (s', m') /\ I (j + 1) s' m') ->
  exists s' m', for_ n body s m = Some (s', m') /\ I n s' m'.
Proof.
  intros Hn HI Hbody. unfold for_.
  destruct (iter_from_inv I body (Z.to_nat n) 0 s m HI) as (s' & m' & Hit & HI').
  { intros j s0 m0 Hj. apply Hbody. lia. }
  exists s', m'. split; [done|].
  replace (0 + Z.of_nat (Z.to_nat n)) with n in HI' by lia. done.
Qed.

(** A loop over the [n] pixels of a row, [c] bytes written per pixel at
    [dst], the local state following [σ]. *)
Lemma for_updated {S} (σ : Z -> S) (body : Z -> S -> M S) (n c : Z) (dst : ptr)
    (g : Z -> uchar) (m0 m : mem) :
  0 <= n -> 0 <= c ->
  updated m0 m dst 0 g ->
  (forall j mj, 0 <= j < n -> updated m0 mj dst (j * c) g ->
                exists mj', body j (σ j) mj = Some (σ (j + 1), mj') /\
                            updated m0 mj' dst ((j + 1) * c) g) ->
  exists m', for_ n body (σ 0) m = Some (σ n, m') /\ updated m0 m' dst (n * c) g.
Proof.
  intros Hn Hc H0 Hbody.
  destruct (for_inv (fun j s mj => s = σ j /\ updated m0 mj dst (j * c) g)
              body n (σ 0) m Hn) as (s' & m' & Hf & -> & Hu).
  - split; [done|]. by rewrite Z.mul_0_l.
  - intros j s mj Hj [-> Hu]. destruct (Hbody j mj Hj Hu) as (mj' & Hb & Hu').
    exists (σ (j + 1)), mj'. done.
  - exists m'. done.
Qed.

(** A loop over the [h] rows of a destination in block [b], row [i] being
    the [n] bytes at [rowp i]. *)
Lemma for_rows (body : Z -> unit -> M unit) (rowp : Z -> ptr) (b : nat)
    (o step h n : Z) (f : Z -> Z -> uchar) (m : mem) :
  0 <= h -> 0 <= n <= step ->
  (forall i, p_block (rowp i) = b /\ p_off (rowp i) = o + i * step) ->
  (forall i mi, 0 <= i < h -> same_outside b m mi ->
                exists mi', body i tt mi = Some (tt, mi') /\
                            updated mi mi' (rowp i) n (f i)) ->
  exists m', for_ h body tt m = Some (tt, m') /\ same_outside b m m' /\
             forall i k, 0 <= i < h -> 0 <= k < n ->
                         load m' (rowp i +ₚ k) = Some (f i k).
Proof.
  intros Hh Hn Hrow Hbody.
  destruct (for_inv
              (fun i (_ : unit) mi =>
                 same_outside b m mi /\
                 forall i' k, 0 <= i' < i -> 0 <= k < n ->
                              load mi (rowp i' +ₚ k) = Some (f i' k))
              body h tt m Hh) as ([] & m' & Hf & Hso & Hl).
  - split; [split; done|]. intros; lia.
  - intros i [] mi Hi [Hso Hl].
    destruct (Hbody i mi Hi Hso) as (mi' & Hb & Hu).
    exists tt, mi'. split; [done|]. split.
    + destruct Hso as [Hso1 Hso2]. split.
      * intros q Hq. rewrite <- Hso1 by done.
        apply (updated_other_block _ _ _ _ _ _ Hu).
        destruct (Hrow i) as [-> _]. done.
      * intros q. rewrite <- Hso2. apply (updated_valid _ _ _ _ _ Hu).
    + intros i' k Hi' Hk. destruct (decide (i' = i)) as [->|Hne].
      * by apply (updated_inside _ _ _ _ _ _ Hu).
      * destruct Hu as [_ Hlu]. rewrite Hlu. rewrite decide_False.
        { apply Hl; lia. }
        simpl. destruct (Hrow i) as [_ ->], (Hrow i') as [_ ->]. nia.
  - exists m'. done.
Qed.

Lemma scanline_bytes_eq (w d : Z) : scanline_bytes w d = (w * d + 31) / 32 * 4.
Proof.
  unfold scanline_bytes. rewrite Z.shiftl_mul_pow2, Z.shiftr_div_pow2 by lia.
  reflexivity.
Qed.

Lemma scanline_bytes_ge (w c : Z) : 0 <= w -> 0 <= c -> w * c <= scanline_bytes w (8 * c).
Proof.
  intros Hw Hc. rewrite scanline_bytes_eq.
  pose proof (Z.div_mod (w * (8 * c) + 31) 32 ltac:(lia)) as Hd.
  pose proof (Z.mod_pos_bound (w * (8 * c) + 31) 32 ltac:(lia)) as Hm.
  nia.
Qed.

Lemma scanline_bytes_round (w c : Z) :
  scanline_bytes w (8 * c) = (w * c + 3) / 4 * 4.
Proof.
  rewrite scanline_bytes_eq. f_equal.
  pose proof (Z.div_mod (w * c + 3) 4 ltac:(lia)) as Hd.
  pose proof (Z.mod_pos_bound (w * c + 3) 4 ltac:(lia)) as Hm.
  symmetry. apply (Z.div_unique _ _ _ (8 * ((w * c + 3) mod 4) + 7)); lia.
Qed.

Lemma round_up4_tight (r : Z) : (r + 3) / 4 * 4 = r <-> r mod 4 = 0.
Proof.
  pose proof (Z.div_mod (r + 3) 4 ltac:(lia)) as Hd.
  pose proof (Z.mod_pos_bound (r + 3) 4 ltac:(lia)) as Hm.
  pose proof (Z.div_mod r 4 ltac:(lia)) as Hd'.
  pose proof (Z.mod_pos_bound r 4 ltac:(lia)) as Hm'.
  split; intros E.
  - assert (r = 4 * ((r + 3) / 4)) as Er by lia.
    rewrite Er. rewrite Z.mul_comm. apply Z.mod_mul. lia.
  - assert ((r + 3) mod 4 = 3) as E3.
    { symmetry. apply (Z.mod_unique _ _ (r / 4)); lia. }
    lia.
Qed.

Lemma block_scanLine (img : QImage) (i k : Z) :
  p_block (QImage_scanLine img i +ₚ k) = p_block (QImage_bits img).
Proof. by destruct img. Qed.

Lemma QImage_ok_block (m : mem) (img : QImage) :
  QImage_ok m img -> 0 < QImage_row_bytes img ->
  (0 < p_block (QImage_bits img) <= length m)%nat.
Proof.
  intros (_ & Hw & Hh & _ & Hv) Hrb.
  rewrite <- (block_scanLine img 0 0). apply load_Some_block, Hv; lia.
Qed.

Lemma Mat_ok_block (m : mem) (mat : Mat) :
  Mat_ok m mat -> 0 < Mat_row_bytes mat ->
  (0 < p_block (m_data mat) <= length m)%nat.
Proof.
  intros (Hr & Hc & _ & Hv) Hrb.
  change (p_block (m_data mat)) with (p_block (Mat_row_data mat 0 +ₚ 0)).
  apply load_Some_block, Hv; lia.
Qed.

Lemma memcpy_updated (m : mem) (dst src : ptr) (n : Z) :
  0 <= n -> p_block src <> p_block dst ->
  (forall k, 0 <= k < n -> valid m (dst +ₚ k)) ->
  (forall k, 0 <= k < n -> valid m (src +ₚ k)) ->
  exists m', memcpy dst src n m = Some (tt, m') /\
             updated m m' dst n (fun k => byte_at m (src +ₚ k)).
Proof.
  intros Hn Hb Hd Hs. unfold memcpy.
  destruct (for_updated (fun _ => tt)
              (fun k (_ : unit) => v <- read (src +ₚ k) ;; write (dst +ₚ k) v)
              n 1 dst (fun k => byte_at m (src +ₚ k)) m m Hn ltac:(lia))
    as (m' & Hf & Hu).
  - by apply updated_nil.
  - intros j mj Hj Hu. rewrite Z.mul_1_r in Hu.
    assert (load mj (src +ₚ j) = load m (src +ₚ j)) as Hl
      by (apply (updated_other_block _ _ _ _ _ _ Hu); done).
    destruct (updated_write_step _ _ _ _ _ (byte_at m (src +ₚ j)) Hu)
      as (m2 & Hw & Hu2); [lia|by apply Hd|].
    exists m2. unfold bind, read. rewrite Hl, (load_byte_at _ _ (Hs j Hj)).
    destruct (write (dst +ₚ j) (byte_at m (src +ₚ j)) mj) as [[[] ?]|]; [|done].
    injection Hw as ->. split; [done|].
    replace ((j + 1) * 1) with (j + 1) by lia.
    eapply updated_ext; [|exact Hu2]. intros k Hk. simpl.
    case_decide; [done|]. by replace k with j by lia.
  - exists m'. by rewrite Z.mul_1_r in Hu.
Qed.

Section Facts.
Context `{Libs}.

Lemma alloc_spec (n : Z) (m : mem) :
  exists m', alloc n m = Some (Ptr (Datatypes.S (length m)) 0, m') /\
             (forall q, p_block q <> Datatypes.S (length m) -> load m' q = load m q) /\
             (forall k, 0 <= k < n -> valid m' (Ptr (Datatypes.S (length m)) 0 +ₚ k)) /\
             length m' = Datatypes.S (length m).
Proof.
  eexists. split; [reflexivity|]. split; [|split].
  - intros [b o] Hb. unfold load, block_of; simpl in *.
    destruct b as [|k]; [done|].
    destruct (decide (k < length m)%nat).
    + by rewrite lookup_app_l.
    + rewrite !lookup_ge_None_2; [done|lia|].
      rewrite length_app; simpl. lia.
  - intros k Hk. unfold valid, load, block_of; simpl.
    rewrite list_lookup_middle by done. rewrite decide_True by lia.
    apply lookup_lt_is_Some. rewrite length_fmap, length_seqZ. lia.
  - rewrite length_app; simpl. lia.
Qed.

Lemma Mat_new_spec (rows cols type : Z) (m : mem) :
  0 < rows -> 0 < cols ->
  let b := Datatypes.S (length m) in
  let mat := mkMat type rows cols (cols * CV_ELEM_SIZE type) (Ptr b 0) in
  exists m', Mat_new rows cols type m = Some (mat, m') /\
             (forall q, p_block q <> b -> load m' q = load m q) /\
             (forall k, 0 <= k < rows * (cols * CV_ELEM_SIZE type) ->
                        valid m' (Ptr b 0 +ₚ k)) /\
             length m' = b.
Proof.
  intros Hr Hc b mat. unfold Mat_new.
  assert ((0 <? rows * cols) = true) as -> by (apply Z.ltb_lt; nia).
  destruct (alloc_spec (rows * (cols * CV_ELEM_SIZE type)) m)
    as (m' & Ha & Hrest).
  exists m'. unfold bind. rewrite Ha. done.
Qed.

Lemma QImage_new_spec (width height : Z) (format : Format) (m : mem) :
  0 < width -> 0 < height -> format <> Format_Invalid ->
  let b := Datatypes.S (length m) in
  let bpl := scanline_bytes width (depthForFormat format) in
  let colors := match format with
                | Format_Mono | Format_MonoLSB => [qRgb 0 0 0; qRgb 255 255 255]
                | _ => []
                end in
  exists m',
    QImage_new width height format m =
      Some (Some (mkQImageData width height format bpl (Ptr b 0) colors), m') /\
    (forall q, p_block q <> b -> load m' q = load m q) /\
    (forall k, 0 <= k < bpl * height -> valid m' (Ptr b 0 +ₚ k)) /\
    length m' = b.
Proof.
  intros Hw Hh Hf b bpl colors. unfold QImage_new.
  assert ((width <=? 0) = false) as -> by lia.
  assert ((height <=? 0) = false) as -> by lia.
  rewrite bool_decide_eq_false_2 by done. cbn [orb]. cbv iota zeta.
  destruct (alloc_spec (bpl * height) m) as (m' & Ha & Hrest).
  exists m'. unfold bind. fold bpl. rewrite Ha. done.
Qed.

End Facts.

(** Stepping through a sequence of reads and writes. *)
Lemma bind_read {B} (p : ptr) (k : uchar -> M B) (m : mem) (v : uchar) :
  load m p = Some v -> bind (read p) k m = k v m.
Proof. intros Hl. unfold bind, read. by rewrite Hl. Qed.

Lemma bind_write {B} (p : ptr) (v : uchar) (k : unit -> M B) (m m' : mem) :
  write p v m = Some (tt, m') -> bind (write p v) k m = k tt m'.
Proof. intros Hw. unfold bind. by rewrite Hw. Qed.

Lemma bind_put {B} (p : ptr) (v : uchar) (k : ptr -> M B) (m m' : mem) :
  write p v m = Some (tt, m') -> bind (put p v) k m = k (p +ₚ 1) m'.
Proof. intros Hw. unfold bind, put, bind. by rewrite Hw. Qed.

Lemma put_write (p : ptr) (v : uchar) (m m' : mem) :
  write p v m = Some (tt, m') -> put p v m = Some (p +ₚ 1, m').
Proof. intros Hw. unfold put, bind. by rewrite Hw. Qed.

(** [for_updated] for a loop whose final state is dropped, started in a
    state equal to [σ 0]. *)
Lemma for_updated_tt {S} (σ : Z -> S) (c : Z) (body : Z -> S -> M S) (n : Z)
    (dst : ptr) (len : Z) (g : Z -> uchar) (s0 : S) (m : mem) :
  0 <= n -> 0 <= c -> len = n * c -> s0 = σ 0 ->
  (forall j mj, 0 <= j < n -> updated m mj dst (j * c) g ->
                exists mj', body j (σ j) mj = Some (σ (j + 1), mj') /\
                            updated m mj' dst ((j + 1) * c) g) ->
  exists m', (for_ n body s0 ;; ret tt) m = Some (tt, m') /\
             updated m m' dst len g.
Proof.
  intros Hn Hc -> -> Hbody.
  destruct (for_updated σ body n c dst g m m Hn Hc) as (m' & Hf & Hu);
    [by apply updated_nil|done|].
  exists m'. unfold bind. rewrite Hf. done.
Qed.

(** Reads from another block are not affected by the bytes written so far
    in the destination row. *)
Lemma load_frame (b : nat) (m mi mj : mem) (dst : ptr) (a : Z) (g : Z -> uchar)
    (q : ptr) :
  same_outside b m mi -> updated mi mj dst a g -> p_block dst = b ->
  p_block q <> b -> valid m q -> load mj q = Some (byte_at m q).
Proof.
  intros [Hso _] Hu Hd Hq Hv.
  rewrite (updated_other_block _ _ _ _ _ _ Hu) by congruence.
  rewrite Hso by done. by apply load_byte_at.
Qed.

Lemma Mat_at_row (mat : Mat) (esz i j c : Z) :
  Mat_at mat esz i j c = Mat_row_data mat i +ₚ (j * esz + c).
Proof. reflexivity. Qed.

Lemma Mat_row_data_block (mat : Mat) (i : Z) :
  p_block (Mat_row_data mat i) = p_block (m_data mat) /\
  p_off (Mat_row_data mat i) = p_off (m_data mat) + i * m_step mat.
Proof. simpl. split; [done|lia]. Qed.

Lemma QImage_scanLine_block (img : QImage) (i : Z) :
  p_block (QImage_scanLine img i) = p_block (QImage_bits img) /\
  p_off (QImage_scanLine img i) = p_off (QImage_bits img) + i * QImage_bytesPerLine img.
Proof. destruct img; simpl; split; (done || lia). Qed.

Lemma src_px_valid (m : mem) (image : QImage) (i j t : Z) :
  QImage_ok m image ->
  0 <= i < QImage_height image -> 0 <= j < QImage_width image ->
  0 <= t < QImage_depth image `quot` 8 ->
  valid m (src_px image (QImage_depth image `quot` 8) i j +ₚ t).
Proof.
  intros (_ & _ & _ & _ & Hv) Hi Hj Ht. unfold src_px. rewrite ptr_add_add.
  apply Hv; [done|]. unfold QImage_row_bytes. nia.
Qed.

(** Lines 82-83: the grey row of [image2Mat]. *)
Lemma image2Mat_rows1_gray (img image : QImage) (mat : Mat) (m : mem) :
  QImage_format image <> Format_Indexed8 ->
  3 <= QImage_depth image `quot` 8 ->
  QImage_ok m image ->
  p_block (QImage_bits image) <> p_block (m_data mat) ->
  m_rows mat = QImage_height image -> m_cols mat = QImage_width image ->
  m_cols mat <= m_step mat ->
  (forall i c, 0 <= i < m_rows mat -> 0 <= c < m_cols mat ->
               valid m (Mat_row_data mat i +ₚ c)) ->
  exists m', image2Mat_rows1 img image mat m = Some (tt, m') /\
    same_outside (p_block (m_data mat)) m m' /\
    forall i j, 0 <= i < m_rows mat -> 0 <= j < m_cols mat ->
      let p := src_px image (QImage_depth image `quot` 8) i j in
      load m' (Mat_row_data mat i +ₚ j) =
        Some (gray_of (byte_at m p) (byte_at m (p +ₚ 1)) (byte_at m (p +ₚ 2))).
Proof.
  intros Hfmt Hk Hok Hblk Hrows Hcols Hstep Hdst.
  set (k := QImage_depth image `quot` 8) in *.
  unfold image2Mat_rows1.
  apply (for_rows _ (Mat_row_data mat) (p_block (m_data mat)) (p_off (m_data mat))
           (m_step mat) (m_rows mat) (m_cols mat)
           (fun i j => let p := src_px image k i j in
                       gray_of (byte_at m p) (byte_at m (p +ₚ 1)) (byte_at m (p +ₚ 2)))).
  - destruct Hok as (_ & _ & ? & _). lia.
  - destruct Hok as (_ & ? & _). lia.
  - apply Mat_row_data_block.
  - intros i mi Hi Hso. cbv beta zeta.
    rewrite bool_decide_eq_false_2 by done.
    apply (for_updated_tt (fun j => src_px image k i j) 1).
    { destruct Hok as (_ & ? & _). lia. }
    { lia. }
    { lia. }
    { unfold src_px. by rewrite Z.mul_0_l, ptr_add_0. }
    intros j mj Hj Hu. rewrite Z.mul_1_r in Hu.
    assert (forall t, 0 <= t < k ->
              load mj (src_px image k i j +ₚ t) =
              Some (byte_at m (src_px image k i j +ₚ t))) as Hsrc.
    { intros t Ht.
      apply (load_frame (p_block (m_data mat)) m mi mj _ _ _ _ Hso Hu).
      - apply Mat_row_data_block.
      - unfold src_px. rewrite ptr_add_add. by rewrite block_scanLine.
      - apply src_px_valid; [done|lia|lia|done]. }
    pose proof (Hsrc 0 ltac:(lia)) as H0. rewrite ptr_add_0 in H0.
    destruct (updated_write_step _ _ _ _ _
                (gray_of (byte_at m (src_px image k i j))
                   (byte_at m (src_px image k i j +ₚ 1))
                   (byte_at m (src_px image k i j +ₚ 2))) Hu)
      as (m2 & Hw & Hu2); [lia| |].
    { apply (proj2 Hso). apply Hdst; lia. }
    exists m2. split.
    + rewrite (bind_read _ _ _ _ H0).
      rewrite (bind_read _ _ _ _ (Hsrc 1 ltac:(lia))).
      rewrite (bind_read _ _ _ _ (Hsrc 2 ltac:(lia))).
      rewrite Mat_at_row. replace (j * 1 + 0) with j by lia.
      rewrite (bind_write _ _ _ _ _ Hw). unfold ret. do 2 f_equal.
      unfold src_px. rewrite ptr_add_add. f_equal. lia.
    + replace ((j + 1) * 1) with (j + 1) by lia.
      eapply updated_ext; [|exact Hu2]. intros c Hc. simpl.
      case_decide; [done|]. by replace c with j by lia.
Qed.

(** Decide the comparisons of literals in the goal. *)
Ltac eval_eqb :=
  repeat match goal with
         | |- context [Z.eqb ?a ?b] =>
             let r := eval vm_compute in (Z.eqb a b) in
             progress change (Z.eqb a b) with r
         end;
  cbv iota.

Lemma CV_ELEM_SIZE_8UC (ch : Z) :
  ch = 1 \/ ch = 3 \/ ch = 4 -> CV_ELEM_SIZE (CV_8UC ch) = ch.
Proof. by intros [->|[->| ->]]. Qed.

Lemma gray_of_luma (d0 d1 d2 : uchar) :
  uchar_val (gray_of d0 d1 d2) = luma (uchar_val d2) (uchar_val d1) (uchar_val d0).
Proof.
  unfold gray_of, luma. rewrite uchar_val_to_uchar.
  pose proof (uchar_val_range d0). pose proof (uchar_val_range d1).
  pose proof (uchar_val_range d2).
  rewrite Z.quot_div_nonneg by lia.
  replace (uchar_val d2 * 9798 + uchar_val d1 * 19238 + uchar_val d0 * 3728)
    with (uchar_val d0 * 3728 + uchar_val d1 * 19238 + uchar_val d2 * 9798) by lia.
  apply Z.mod_small. split.
  - apply Z.div_pos; lia.
  - apply Z.div_lt_upper_bound; lia.
Qed.

Lemma gray_of_in_range (d0 d1 d2 : uchar) :
  let sum := uchar_val d0 * 3728 + uchar_val d1 * 19238 + uchar_val d2 * 9798 in
  0 <= sum < 2 ^ 31 /\ 0 <= sum `quot` 32768 <= 254.
Proof.
  pose proof (uchar_val_range d0). pose proof (uchar_val_range d1).
  pose proof (uchar_val_range d2). cbv zeta.
  set (sum := uchar_val d0 * 3728 + uchar_val d1 * 19238 + uchar_val d2 * 9798).
  assert (0 <= sum <= 255 * 32764) as Hs by (unfold sum; lia).
  split; [lia|]. rewrite Z.quot_div_nonneg by lia. split.
  - apply Z.div_pos; lia.
  - assert (sum / 32768 < 255) by (apply Z.div_lt_upper_bound; lia). lia.
Qed.

Section Image2Mat.
Context `{Libs}.

(** [image2Mat] up to its loops: the guards pass, the matrix is allocated
    in a new block with contiguous rows. *)
Lemma image2Mat_run (img image : QImage) (ch : Z) (m m1 : mem) :
  ch = 1 \/ ch = 3 \/ ch = 4 ->
  QImage_isNull img = false ->
  normalize img m = Some (image, m1) ->
  0 < QImage_width image -> 0 < QImage_height image ->
  let b := Datatypes.S (length m1) in
  let mat := mkMat (CV_8UC ch) (QImage_height image) (QImage_width image)
               (QImage_width image * ch) (Ptr b 0) in
  exists m2,
    (forall q, p_block q <> b -> load m2 q = load m1 q) /\
    (forall i k, 0 <= i < m_rows mat -> 0 <= k < m_cols mat * ch ->
                 valid m2 (Mat_row_data mat i +ₚ k)) /\
    image2Mat img ch m =
      match (if ch =? 1 then image2Mat_rows1 img image mat
             else if ch =? 3 then image2Mat_rows3 img image mat
             else image2Mat_rows4 img image mat) m2 with
      | Some (_, m') => Some (mat, m')
      | None => None
      end.
Proof.
  intros Hch Hnull Hnorm Hw Hh b mat.
  destruct (Mat_new_spec (QImage_height image) (QImage_width image) (CV_8UC ch) m1 Hh Hw)
    as (m2 & Hnew & Hframe & Hvalid & _).
  rewrite (CV_ELEM_SIZE_8UC ch Hch) in Hnew, Hvalid. fold b in Hnew, Hframe, Hvalid.
  exists m2. split; [done|]. split.
  - intros i k Hi Hk. unfold Mat_row_data. rewrite ptr_add_add. apply Hvalid.
    simpl in *. nia.
  - unfold image2Mat. rewrite Hnull.
    assert (bool_decide (ch <> 0) && bool_decide (ch <> 1) && bool_decide (ch <> 3)
            && bool_decide (ch <> 4) = false) as ->.
    { by destruct Hch as [->|[->| ->]]. }
    unfold bind at 1. rewrite Hnorm.
    assert ((ch =? 0) = false) as -> by lia.
    unfold bind at 1. rewrite Hnew. fold mat. unfold bind.
    destruct Hch as [->|[->| ->]]; eval_eqb;
      match goal with
      | |- context [?f img image mat m2] =>
          by destruct (f img image mat m2) as [[[] ?]|]
      end.
Qed.

(** The grey path of [image2Mat]: one destination channel, a source of 3 or
    4 bytes per pixel. *)
Lemma image2Mat_gray (img image : QImage) (m m1 : mem) :
  QImage_isNull img = false ->
  normalize img m = Some (image, m1) ->
  QImage_ok m1 image ->
  QImage_format image <> Format_Indexed8 ->
  3 <= QImage_depth image `quot` 8 ->
  exists mat m',
    image2Mat img 1 m = Some (mat, m') /\
    m_rows mat = QImage_height image /\ m_cols mat = QImage_width image /\
    m_type mat = CV_8UC1 /\ m_step mat = m_cols mat /\
    forall i j, 0 <= i < QImage_height image -> 0 <= j < QImage_width image ->
      let p := src_px image (QImage_depth image `quot` 8) i j in
      Mat_byte m' mat i j =
        Some (gray_of (byte_at m1 p) (byte_at m1 (p +ₚ 1)) (byte_at m1 (p +ₚ 2))).
Proof.
  intros Hnull Hnorm Hok Hfmt Hk.
  pose proof Hok as (_ & Hw & Hh & _ & Hv).
  destruct (image2Mat_run img image 1 m m1 ltac:(lia) Hnull Hnorm Hw Hh)
    as (m2 & Hframe & Hvalid & Hrun).
  cbv zeta in *. set (b := Datatypes.S (length m1)) in *.
  set (mat := mkMat _ _ _ _ _) in *.
  assert (p_block (QImage_bits image) <> b) as Hblk.
  { assert (0 < QImage_row_bytes image) by (unfold QImage_row_bytes; nia).
    pose proof (QImage_ok_block _ _ Hok). unfold b. lia. }
  assert (QImage_ok m2 image) as Hok2.
  { destruct Hok as (? & ? & ? & ? & ?). repeat split; try done.
    intros i k Hi Hk'. unfold valid. rewrite Hframe; [by apply Hv|].
    by rewrite block_scanLine. }
  destruct (image2Mat_rows1_gray img image mat m2 Hfmt Hk Hok2)
    as (m' & Hrows & _ & Hl); try done.
  { simpl. lia. }
  { intros i c Hi Hc. apply Hvalid; [done|lia]. }
  exists mat, m'. rewrite Hrun. eval_eqb. rewrite Hrows.
  split; [done|]. do 3 (split; [done|]). split; [simpl; lia|].
  intros i j Hi Hj. unfold Mat_byte. rewrite Hl by done.
  set (p := src_px image (QImage_depth image `quot` 8) i j).
  assert (forall t, 0 <= t < 3 -> byte_at m2 (p +ₚ t) = byte_at m1 (p +ₚ t)) as Hb.
  { intros t Ht. unfold byte_at. rewrite Hframe; [done|].
    unfold p, src_px. rewrite ptr_add_add. by rewrite block_scanLine. }
  pose proof (Hb 0 ltac:(lia)) as Hb0. rewrite ptr_add_0 in Hb0.
  by rewrite Hb0, !Hb by lia.
Qed.

End Image2Mat.

(** Rows copied by [memcpy], one call per row. *)
Lemma memcpy_rows (drow srow : Z -> ptr) (b : nat) (o step h n : Z) (m : mem) :
  0 <= h -> 0 <= n <= step ->
  (forall i, p_block (drow i) = b /\ p_off (drow i) = o + i * step) ->
  (forall i, 0 <= i < h -> p_block (srow i) <> b) ->
  (forall i k, 0 <= i < h -> 0 <= k < n -> valid m (drow i +ₚ k)) ->
  (forall i k, 0 <= i < h -> 0 <= k < n -> valid m (srow i +ₚ k)) ->
  exists m',
    for_ h (fun i _ => memcpy (drow i) (srow i) n) tt m = Some (tt, m') /\
    same_outside b m m' /\
    forall i k, 0 <= i < h -> 0 <= k < n ->
                load m' (drow i +ₚ k) = load m (srow i +ₚ k).
Proof.
  intros Hh Hn Hd Hs Hvd Hvs.
  destruct (for_rows (fun i _ => memcpy (drow i) (srow i) n) drow b o step h n
              (fun i k => byte_at m (srow i +ₚ k)) m Hh Hn Hd)
    as (m' & Hf & Hso & Hl).
  - intros i mi Hi [Hso1 Hso2].
    destruct (memcpy_updated mi (drow i) (srow i) n) as (mi' & Hc & Hu).
    + lia.
    + destruct (Hd i) as [-> _]. by apply Hs.
    + intros k Hk. apply Hso2. by apply Hvd.
    + intros k Hk. apply Hso2. by apply Hvs.
    + exists mi'. split; [done|]. eapply updated_ext; [|exact Hu].
      intros k Hk. simpl. unfold byte_at. rewrite Hso1; [done|].
      simpl. by apply Hs.
  - exists m'. split; [done|]. split; [done|]. intros i k Hi Hk.
    rewrite Hl by done. symmetry. apply load_byte_at. by apply Hvs.
Qed.

Lemma same_outside_ok_image (b : nat) (m m' : mem) (img : QImage) :
  (forall q, p_block q <> b -> load m' q = load m q) ->
  p_block (QImage_bits img) <> b ->
  QImage_ok m img -> QImage_ok m' img.
Proof.
  intros Hframe Hb (? & ? & ? & ? & Hv). repeat split; try done.
  intros i k Hi Hk. unfold valid. rewrite Hframe; [by apply Hv|].
  by rewrite block_scanLine.
Qed.

Lemma same_outside_ok_mat (b : nat) (m m' : mem) (mat : Mat) :
  (forall q, p_block q <> b -> load m' q = load m q) ->
  p_block (m_data mat) <> b ->
  Mat_ok m mat -> Mat_ok m' mat.
Proof.
  intros Hframe Hb (? & ? & ? & Hv). repeat split; try done.
  intros i k Hi Hk. unfold valid. rewrite Hframe; [by apply Hv|]. done.
Qed.

Lemma image2Mat_rows3_rgb888 (img image : QImage) (mat : Mat) (m : mem) :
  QImage_format image = Format_RGB888 ->
  QImage_width img = QImage_width image ->
  QImage_ok m image ->
  p_block (QImage_bits image) <> p_block (m_data mat) ->
  m_rows mat = QImage_height image -> m_cols mat = QImage_width image ->
  m_cols mat * 3 <= m_step mat ->
  (forall i k, 0 <= i < m_rows mat -> 0 <= k < m_cols mat * 3 ->
               valid m (Mat_row_data mat i +ₚ k)) ->
  exists m', image2Mat_rows3 img image mat m = Some (tt, m') /\
    same_outside (p_block (m_data mat)) m m' /\
    forall i k, 0 <= i < m_rows mat -> 0 <= k < m_cols mat * 3 ->
      load m' (Mat_row_data mat i +ₚ k) = load m (QImage_scanLine image i +ₚ k).
Proof.
  intros Hfmt Hwid Hok Hblk Hrows Hcols Hstep Hdst.
  pose proof Hok as (_ & Hw & Hh & _ & Hv).
  unfold image2Mat_rows3. rewrite Hfmt.
  rewrite bool_decide_eq_false_2 by done. rewrite bool_decide_eq_true_2 by done.
  rewrite Hwid, <- Hcols.
  apply (memcpy_rows (Mat_row_data mat) (QImage_scanLine image)
           (p_block (m_data mat)) (p_off (m_data mat)) (m_step mat)).
  - lia.
  - lia.
  - apply Mat_row_data_block.
  - intros i Hi. by rewrite (proj1 (QImage_scanLine_block image i)).
  - done.
  - intros i k Hi Hk. apply Hv; [lia|]. unfold QImage_row_bytes, QImage_depth.
    destruct image as [d|]; [|done]. simpl in *. rewrite Hfmt. simpl.
    change (24 `quot` 8) with 3. lia.
Qed.

Section CopyPaths.
Context `{Libs}.

(** [image2Mat] to 3 channels on a 24-bit source: the rows are copied. *)
Lemma image2Mat_copy3 (img image : QImage) (m m1 : mem) :
  QImage_isNull img = false ->
  normalize img m = Some (image, m1) ->
  QImage_ok m1 image ->
  QImage_format image = Format_RGB888 ->
  QImage_width img = QImage_width image ->
  exists mat m',
    image2Mat img 3 m = Some (mat, m') /\
    m_rows mat = QImage_height image /\ m_cols mat = QImage_width image /\
    m_type mat = CV_8UC3 /\ m_step mat = m_cols mat * 3 /\
    p_block (m_data mat) = Datatypes.S (length m1) /\
    Mat_ok m' mat /\
    (forall q, p_block q <> Datatypes.S (length m1) -> load m' q = load m1 q) /\
    forall i k, 0 <= i < QImage_height image -> 0 <= k < QImage_width image * 3 ->
      Mat_byte m' mat i k = QImage_byte m1 image i k.
Proof.
  intros Hnull Hnorm Hok Hfmt Hwid.
  pose proof Hok as (_ & Hw & Hh & _ & Hv).
  destruct (image2Mat_run img image 3 m m1 ltac:(lia) Hnull Hnorm Hw Hh)
    as (m2 & Hframe & Hvalid & Hrun).
  cbv zeta in *. set (b := Datatypes.S (length m1)) in *.
  set (mat := mkMat _ _ _ _ _) in *.
  assert (QImage_row_bytes image = QImage_width image * 3) as Hrb.
  { unfold QImage_row_bytes, QImage_depth. destruct image as [d|]; [|done].
    simpl in *. by rewrite Hfmt. }
  assert (p_block (QImage_bits image) <> b) as Hblk.
  { pose proof (QImage_ok_block _ _ Hok ltac:(lia)). unfold b. lia. }
  pose proof (same_outside_ok_image b m1 m2 image Hframe Hblk Hok) as Hok2.
  destruct (image2Mat_rows3_rgb888 img image mat m2 Hfmt Hwid Hok2)
    as (m' & Hrows & [Hso1 Hso2] & Hl); try done.
  exists mat, m'. rewrite Hrun. eval_eqb. rewrite Hrows.
  split; [done|]. do 5 (split; [done|]). split; [|split].
  - assert (Mat_row_bytes mat = m_cols mat * 3) as Hmb by done.
    split; [done|]. split; [done|]. rewrite Hmb. split; [simpl; lia|].
    intros i k Hi Hk. by apply Hso2, Hvalid.
  - intros q Hq. rewrite Hso1 by done. by apply Hframe.
  - intros i k Hi Hk. unfold Mat_byte, QImage_byte. rewrite Hl by done.
    apply Hframe. by rewrite block_scanLine.
Qed.

End CopyPaths.

Lemma scanline_bytes_nonneg (w d : Z) : 0 <= w -> 0 <= d -> 0 <= scanline_bytes w d.
Proof.
  intros Hw Hd. rewrite scanline_bytes_eq.
  assert (0 <= (w * d + 31) / 32) by (apply Z.div_pos; nia). lia.
Qed.

Lemma Mat_ok_not_empty (m : mem) (mat : Mat) :
  Mat_ok m mat -> 0 < Mat_row_bytes mat -> Mat_empty mat = false.
Proof.
  intros Hok Hrb. pose proof (Mat_ok_block m mat Hok Hrb) as Hb.
  destruct Hok as (Hr & Hc & _). unfold Mat_empty, is_null.
  apply orb_false_intro; [apply Nat.eqb_neq|apply Z.eqb_neq]; nia.
Qed.

Section Mat2Image.
Context `{Libs}.

(** [mat2Image] up to its loops, for an 8-bit matrix and a destination of
    24 or 32 bits: the image is allocated in a new block. *)
Lemma mat2Image_run (mat : Mat) (fmt : Format) (m : mem) :
  Mat_ok m mat -> 0 < Mat_row_bytes mat -> Mat_depth mat = CV_8U ->
  fmt = Format_RGB32 \/ fmt = Format_RGB888 ->
  let b := Datatypes.S (length m) in
  let bpl := scanline_bytes (m_cols mat) (depthForFormat fmt) in
  let out := Some (mkQImageData (m_cols mat) (m_rows mat) fmt bpl (Ptr b 0) []) in
  exists m2,
    (forall q, p_block q <> b -> load m2 q = load m q) /\
    (forall i k, 0 <= i < m_rows mat -> 0 <= k < bpl ->
                 valid m2 (QImage_scanLine out i +ₚ k)) /\
    mat2Image mat fmt m =
      match (if bool_decide (fmt = Format_RGB32)
             then mat2Image_rows_RGB32 mat out
             else mat2Image_rows_RGB888 mat out) m2 with
      | Some (_, m') => Some (out, m')
      | None => None
      end.
Proof.
  intros Hok Hrb Hdepth Hfmt b bpl out.
  pose proof Hok as (Hr & Hc & _).
  assert (fmt <> Format_Invalid) as Hinv by (by destruct Hfmt as [->| ->]).
  destruct (QImage_new_spec (m_cols mat) (m_rows mat) fmt m Hc Hr Hinv)
    as (m2 & Hnew & Hframe & Hvalid & _).
  cbv zeta in Hnew, Hframe, Hvalid. fold b bpl in Hnew, Hframe, Hvalid.
  assert (match fmt with
          | Format_Mono | Format_MonoLSB => [qRgb 0 0 0; qRgb 255 255 255]
          | _ => []
          end = []) as Hcol by (by destruct Hfmt as [->| ->]).
  rewrite Hcol in Hnew. fold out in Hnew.
  assert (0 <= bpl) as Hbpl.
  { apply scanline_bytes_nonneg; [lia|]. by destruct Hfmt as [->| ->]. }
  exists m2. split; [done|]. split.
  - intros i k Hi Hk. simpl. rewrite ptr_add_add. apply Hvalid. nia.
  - unfold mat2Image. rewrite (Mat_ok_not_empty m mat Hok Hrb).
    unfold to_8bit. rewrite Hdepth. rewrite Z.eqb_refl.
    unfold bind at 1. unfold ret at 1.
    destruct Hfmt as [->| ->].
    + rewrite bool_decide_eq_true_2 by done.
      unfold bind. rewrite Hnew.
      by destruct (mat2Image_rows_RGB32 mat out m2) as [[[] ?]|].
    + rewrite (bool_decide_eq_false_2 (Format_RGB888 = Format_RGB32)) by done.
      rewrite bool_decide_eq_true_2 by done.
      unfold bind. rewrite Hnew.
      by destruct (mat2Image_rows_RGB888 mat out m2) as [[[] ?]|].
Qed.

(** [mat2Image] to RGB888 on a 3-channel matrix: the rows are copied. *)
Lemma mat2Image_copy3 (mat : Mat) (m : mem) :
  Mat_ok m mat -> m_type mat = CV_8UC3 ->
  exists out m',
    mat2Image mat Format_RGB888 m = Some (out, m') /\
    QImage_width out = m_cols mat /\ QImage_height out = m_rows mat /\
    QImage_format out = Format_RGB888 /\
    QImage_bytesPerLine out = scanline_bytes (m_cols mat) 24 /\
    QImage_ok m' out /\
    (forall q, p_block q <> Datatypes.S (length m) -> load m' q = load m q) /\
    forall i k, 0 <= i < m_rows mat -> 0 <= k < m_cols mat * 3 ->
      QImage_byte m' out i k = Mat_byte m mat i k.
Proof.
  intros Hok Htype. pose proof Hok as (Hr & Hc & Hst & Hv).
  assert (Mat_row_bytes mat = m_cols mat * 3) as Hrb.
  { unfold Mat_row_bytes. by rewrite Htype. }
  rewrite Hrb in Hst, Hv.
  destruct (mat2Image_run mat Format_RGB888 m Hok) as (m2 & Hframe & Hvalid & Hrun).
  { lia. } { unfold Mat_depth. by rewrite Htype. } { by right. }
  cbv zeta in *. set (b := Datatypes.S (length m)) in *.
  change (depthForFormat Format_RGB888) with 24 in *.
  set (bpl := scanline_bytes (m_cols mat) 24) in *.
  set (out := Some (mkQImageData _ _ _ _ _ _)) in *.
  assert (m_cols mat * 3 <= bpl) as Hge.
  { unfold bpl. change 24 with (8 * 3). apply scanline_bytes_ge; lia. }
  assert (p_block (m_data mat) <> b) as Hblk.
  { pose proof (Mat_ok_block _ _ Hok ltac:(lia)). unfold b. lia. }
  destruct (memcpy_rows (QImage_scanLine out) (Mat_row_data mat) b 0 bpl
              (m_rows mat) (m_cols mat * 3) m2) as (m' & Hf & [Hso1 Hso2] & Hl).
  - lia.
  - lia.
  - intros i. simpl. split; [done|lia].
  - intros i Hi. done.
  - intros i k Hi Hk. apply Hvalid; [done|lia].
  - intros i k Hi Hk. unfold valid. rewrite Hframe by done. by apply Hv.
  - exists out, m'. rewrite Hrun.
    rewrite bool_decide_eq_false_2 by done.
    unfold mat2Image_rows_RGB888. rewrite Htype. eval_eqb. rewrite Hf.
    split; [done|]. do 4 (split; [done|]). split; [|split].
    + split; [done|]. split; [done|]. split; [done|]. split; [done|].
      intros i k Hi Hk. apply Hso2, Hvalid; [done|].
      change (QImage_row_bytes out) with (m_cols mat * (24 `quot` 8)) in Hk.
      change (24 `quot` 8) with 3 in Hk. lia.
    + intros q Hq. rewrite Hso1 by done. by apply Hframe.
    + intros i k Hi Hk. unfold QImage_byte, Mat_byte. rewrite Hl by done.
      by apply Hframe.
Qed.

End Mat2Image.

(** Division of a byte offset in a row of 4-byte pixels. *)
Lemma div4_pixel (j t : Z) : 0 <= t < 4 -> (j * 4 + t) / 4 = j /\ (j * 4 + t) mod 4 = t.
Proof.
  intros Ht. split.
  - symmetry. apply (Z.div_unique _ _ j t); lia.
  - symmetry. apply (Z.mod_unique _ _ j t); lia.
Qed.

(** The four bytes of pixel [j] of a row of 4-byte pixels, written one
    after the other; reads from other blocks are not affected meanwhile. *)
Lemma four_writes (m0 mj : mem) (dst : ptr) (j : Z) (g : Z -> uchar)
    (v0 v1 v2 v3 : uchar) :
  updated m0 mj dst (j * 4) g -> 0 <= j ->
  (forall t, 0 <= t < 4 -> valid m0 (dst +ₚ (j * 4 + t))) ->
  g (j * 4 + 0) = v0 -> g (j * 4 + 1) = v1 -> g (j * 4 + 2) = v2 ->
  g (j * 4 + 3) = v3 ->
  exists m1 m2 m3 m4,
    write (dst +ₚ (j * 4 + 0)) v0 mj = Some (tt, m1) /\
    write (dst +ₚ (j * 4 + 1)) v1 m1 = Some (tt, m2) /\
    write (dst +ₚ (j * 4 + 2)) v2 m2 = Some (tt, m3) /\
    write (dst +ₚ (j * 4 + 3)) v3 m3 = Some (tt, m4) /\
    (forall q, p_block q <> p_block dst ->
               load mj q = load m0 q /\ load m1 q = load m0 q /\
               load m2 q = load m0 q /\ load m3 q = load m0 q) /\
    updated m0 m4 dst ((j + 1) * 4) g.
Proof.
  intros Hu Hj Hv H0 H1 H2 H3.
  replace (j * 4 + 0) with (j * 4) in * by lia.
  destruct (updated_write_step _ _ _ _ _ v0 Hu) as (m1 & Hw1 & Hu1);
    [lia|by rewrite <- (Z.add_0_r (j * 4)); apply Hv|].
  destruct (updated_write_step _ _ _ _ _ v1 Hu1) as (m2 & Hw2 & Hu2);
    [lia|by apply Hv|].
  replace (j * 4 + 1 + 1) with (j * 4 + 2) in * by lia.
  destruct (updated_write_step _ _ _ _ _ v2 Hu2) as (m3 & Hw3 & Hu3);
    [lia|by apply Hv|].
  replace (j * 4 + 2 + 1) with (j * 4 + 3) in * by lia.
  destruct (updated_write_step _ _ _ _ _ v3 Hu3) as (m4 & Hw4 & Hu4);
    [lia|by apply Hv|].
  exists m1, m2, m3, m4. do 4 (split; [done|]). split.
  - intros q Hq. repeat split.
    + by apply (updated_other_block _ _ _ _ _ _ Hu).
    + by apply (updated_other_block _ _ _ _ _ _ Hu1).
    + by apply (updated_other_block _ _ _ _ _ _ Hu2).
    + by apply (updated_other_block _ _ _ _ _ _ Hu3).
  - replace ((j + 1) * 4) with (j * 4 + 3 + 1) by lia.
    eapply updated_ext; [|exact Hu4]. intros k Hk. simpl.
    repeat case_decide; try done; try lia.
    + by replace k with (j * 4) by lia.
    + by replace k with (j * 4 + 1) by lia.
    + by replace k with (j * 4 + 2) by lia.
    + by replace k with (j * 4 + 3) by lia.
Qed.

Lemma QImage_row_bytes_fmt (image : QImage) (fmt : Format) :
  QImage_format image = fmt -> fmt <> Format_Invalid ->
  QImage_depth image = depthForFormat fmt /\
  QImage_row_bytes image = QImage_width image * (depthForFormat fmt `quot` 8).
Proof.
  intros Hfmt Hinv. unfold QImage_row_bytes, QImage_depth.
  destruct image as [d|]; simpl in *; [by rewrite Hfmt|congruence].
Qed.

(** Lines 109-114: a grey row expanded to 4 channels. *)
Lemma image2Mat_rows4_indexed8 (img image : QImage) (mat : Mat) (m : mem) :
  QImage_format image = Format_Indexed8 ->
  QImage_ok m image ->
  p_block (QImage_bits image) <> p_block (m_data mat) ->
  m_rows mat = QImage_height image -> m_cols mat = QImage_width image ->
  m_cols mat * 4 <= m_step mat ->
  (forall i k, 0 <= i < m_rows mat -> 0 <= k < m_cols mat * 4 ->
               valid m (Mat_row_data mat i +ₚ k)) ->
  exists m', image2Mat_rows4 img image mat m = Some (tt, m') /\
    same_outside (p_block (m_data mat)) m m' /\
    forall i k, 0 <= i < m_rows mat -> 0 <= k < m_cols mat * 4 ->
      load m' (Mat_row_data mat i +ₚ k) =
        Some (if decide (k mod 4 = 3) then to_uchar 255
              else byte_at m (src_px image 1 i (k / 4))).
Proof.
  intros Hfmt Hok Hblk Hrows Hcols Hstep Hdst.
  pose proof Hok as (_ & Hw & Hh & _ & Hv).
  destruct (QImage_row_bytes_fmt image _ Hfmt ltac:(done)) as [_ Hrb].
  change (depthForFormat Format_Indexed8 `quot` 8) with 1 in Hrb.
  unfold image2Mat_rows4. rewrite Hfmt. rewrite bool_decide_eq_true_2 by done.
  apply (for_rows _ (Mat_row_data mat) (p_block (m_data mat)) (p_off (m_data mat))
           (m_step mat) (m_rows mat) (m_cols mat * 4)
           (fun i k => if decide (k mod 4 = 3) then to_uchar 255
                       else byte_at m (src_px image 1 i (k / 4)))).
  - lia.
  - lia.
  - apply Mat_row_data_block.
  - intros i mi Hi [Hso1 Hso2]. cbv beta zeta.
    apply (for_updated_tt (fun j => src_px image 1 i j) 4); [lia|lia|lia| |].
    { unfold src_px. by rewrite Z.mul_0_l, ptr_add_0. }
    intros j mj Hj Hu.
    set (p := src_px image 1 i j).
    assert (valid m p) as Hp.
    { unfold p, src_px. apply Hv; lia. }
    assert (p_block p <> p_block (m_data mat)) as Hpb.
    { unfold p, src_px. by rewrite block_scanLine. }
    destruct (four_writes mi mj (Mat_row_data mat i) j _
                (byte_at m p) (byte_at m p) (byte_at m p) (to_uchar 255) Hu)
      as (m1 & m2 & m3 & m4 & Hw0 & Hw1 & Hw2 & Hw3 & Hfr & Hu4).
    { lia. }
    { intros t Ht. apply Hso2, Hdst; lia. }
    { cbv beta. destruct (div4_pixel j 0 ltac:(lia)) as [-> ->]. by rewrite decide_False. }
    { cbv beta. destruct (div4_pixel j 1 ltac:(lia)) as [-> ->]. by rewrite decide_False. }
    { cbv beta. destruct (div4_pixel j 2 ltac:(lia)) as [-> ->]. by rewrite decide_False. }
    { cbv beta. destruct (div4_pixel j 3 ltac:(lia)) as [-> ->]. by rewrite decide_True. }
    destruct (Hfr p Hpb) as (Hl0 & Hl1 & Hl2 & _).
    rewrite (Hso1 p Hpb), (load_byte_at _ _ Hp) in Hl0, Hl1, Hl2.
    exists m4. split; [|done].
    rewrite (bind_read _ _ _ _ Hl0). rewrite Mat_at_row, (bind_write _ _ _ _ _ Hw0).
    rewrite (bind_read _ _ _ _ Hl1). rewrite Mat_at_row, (bind_write _ _ _ _ _ Hw1).
    rewrite (bind_read _ _ _ _ Hl2). rewrite Mat_at_row, (bind_write _ _ _ _ _ Hw2).
    rewrite Mat_at_row, (bind_write _ _ _ _ _ Hw3).
    unfold ret. do 2 f_equal. unfold p, src_px. rewrite ptr_add_add. f_equal. lia.
Qed.

(** Lines 116-121: a row of 3-byte pixels expanded to 4 channels. *)
Lemma image2Mat_rows4_rgb888 (img image : QImage) (mat : Mat) (m : mem) :
  QImage_format image = Format_RGB888 ->
  QImage_ok m image ->
  p_block (QImage_bits image) <> p_block (m_data mat) ->
  m_rows mat = QImage_height image -> m_cols mat = QImage_width image ->
  m_cols mat * 4 <= m_step mat ->
  (forall i k, 0 <= i < m_rows mat -> 0 <= k < m_cols mat * 4 ->
               valid m (Mat_row_data mat i +ₚ k)) ->
  exists m', image2Mat_rows4 img image mat m = Some (tt, m') /\
    same_outside (p_block (m_data mat)) m m' /\
    forall i k, 0 <= i < m_rows mat -> 0 <= k < m_cols mat * 4 ->
      load m' (Mat_row_data mat i +ₚ k) =
        Some (if decide (k mod 4 = 3) then to_uchar 255
              else byte_at m (src_px image 3 i (k / 4) +ₚ (k mod 4))).
Proof.
  intros Hfmt Hok Hblk Hrows Hcols Hstep Hdst.
  pose proof Hok as (_ & Hw & Hh & _ & Hv).
  destruct (QImage_row_bytes_fmt image _ Hfmt ltac:(done)) as [_ Hrb].
  change (depthForFormat Format_RGB888 `quot` 8) with 3 in Hrb.
  unfold image2Mat_rows4. rewrite Hfmt.
  rewrite bool_decide_eq_false_2 by done. rewrite bool_decide_eq_true_2 by done.
  apply (for_rows _ (Mat_row_data mat) (p_block (m_data mat)) (p_off (m_data mat))
           (m_step mat) (m_rows mat) (m_cols mat * 4)
           (fun i k => if decide (k mod 4 = 3) then to_uchar 255
                       else byte_at m (src_px image 3 i (k / 4) +ₚ (k mod 4)))).
  - lia.
  - lia.
  - apply Mat_row_data_block.
  - intros i mi Hi [Hso1 Hso2]. cbv beta zeta.
    apply (for_updated_tt (fun j => src_px image 3 i j) 4); [lia|lia|lia| |].
    { unfold src_px. by rewrite Z.mul_0_l, ptr_add_0. }
    intros j mj Hj Hu.
    set (p := src_px image 3 i j).
    assert (forall t, 0 <= t < 3 -> valid m (p +ₚ t)) as Hp.
    { intros t Ht. unfold p, src_px. rewrite ptr_add_add. apply Hv; lia. }
    assert (forall t, p_block (p +ₚ t) <> p_block (m_data mat)) as Hpb.
    { intros t. unfold p, src_px. rewrite ptr_add_add. by rewrite block_scanLine. }
    destruct (four_writes mi mj (Mat_row_data mat i) j _
                (byte_at m (p +ₚ 0)) (byte_at m (p +ₚ 1)) (byte_at m (p +ₚ 2))
                (to_uchar 255) Hu)
      as (m1 & m2 & m3 & m4 & Hw0 & Hw1 & Hw2 & Hw3 & Hfr & Hu4).
    { lia. }
    { intros t Ht. apply Hso2, Hdst; lia. }
    { cbv beta. destruct (div4_pixel j 0 ltac:(lia)) as [-> ->]. by rewrite decide_False. }
    { cbv beta. destruct (div4_pixel j 1 ltac:(lia)) as [-> ->]. by rewrite decide_False. }
    { cbv beta. destruct (div4_pixel j 2 ltac:(lia)) as [-> ->]. by rewrite decide_False. }
    { cbv beta. destruct (div4_pixel j 3 ltac:(lia)) as [-> ->]. by rewrite decide_True. }
    destruct (Hfr (p +ₚ 0) (Hpb 0)) as (Hl0 & _).
    destruct (Hfr (p +ₚ 1) (Hpb 1)) as (_ & Hl1 & _).
    destruct (Hfr (p +ₚ 2) (Hpb 2)) as (_ & _ & Hl2 & _).
    rewrite (Hso1 _ (Hpb 0)), (load_byte_at _ _ (Hp 0 ltac:(lia))) in Hl0.
    rewrite (Hso1 _ (Hpb 1)), (load_byte_at _ _ (Hp 1 ltac:(lia))) in Hl1.
    rewrite (Hso1 _ (Hpb 2)), (load_byte_at _ _ (Hp 2 ltac:(lia))) in Hl2.
    exists m4. split; [|done].
    rewrite (bind_read _ _ _ _ Hl0). rewrite Mat_at_row, (bind_write _ _ _ _ _ Hw0).
    rewrite (bind_read _ _ _ _ Hl1). rewrite Mat_at_row, (bind_write _ _ _ _ _ Hw1).
    rewrite (bind_read _ _ _ _ Hl2). rewrite Mat_at_row, (bind_write _ _ _ _ _ Hw2).
    rewrite Mat_at_row, (bind_write _ _ _ _ _ Hw3).
    unfold ret. do 2 f_equal. unfold p, src_px. rewrite ptr_add_add. f_equal. lia.
Qed.

(** Lines 163-168 and 170-175: a matrix row of 1 or 3 channels expanded
    to the 4 bytes per pixel of an RGB32 image. *)
Lemma mat2Image_rows_RGB32_fill (mat : Mat) (out : QImage) (cn : Z) (m : mem) :
  (cn = 1 \/ cn = 3) -> m_type mat = CV_8UC cn ->
  0 < m_rows mat -> 0 < m_cols mat ->
  (forall i k, 0 <= i < m_rows mat -> 0 <= k < m_cols mat * cn ->
               valid m (Mat_row_data mat i +ₚ k)) ->
  p_block (m_data mat) <> p_block (QImage_bits out) ->
  m_cols mat * 4 <= QImage_bytesPerLine out ->
  (forall i k, 0 <= i < m_rows mat -> 0 <= k < m_cols mat * 4 ->
               valid m (QImage_scanLine out i +ₚ k)) ->
  exists m', mat2Image_rows_RGB32 mat out m = Some (tt, m') /\
    same_outside (p_block (QImage_bits out)) m m' /\
    forall i k, 0 <= i < m_rows mat -> 0 <= k < m_cols mat * 4 ->
      load m' (QImage_scanLine out i +ₚ k) =
        Some (if decide (k mod 4 = 3) then to_uchar 255
              else byte_at m (Mat_at mat cn i (k / 4)
                                (if decide (cn = 1) then 0 else k mod 4))).
Proof.
  intros Hcn Htype Hr Hc Hsrc Hblk Hstep Hdst.
  unfold mat2Image_rows_RGB32. rewrite Htype.
  apply (for_rows _ (QImage_scanLine out) (p_block (QImage_bits out))
           (p_off (QImage_bits out)) (QImage_bytesPerLine out)
           (m_rows mat) (m_cols mat * 4)
           (fun i k => if decide (k mod 4 = 3) then to_uchar 255
                       else byte_at m (Mat_at mat cn i (k / 4)
                                         (if decide (cn = 1) then 0 else k mod 4)))).
  - lia.
  - lia.
  - apply QImage_scanLine_block.
  - intros i mi Hi [Hso1 Hso2]. cbv beta zeta.
    set (dst := QImage_scanLine out i).
    assert (p_block dst = p_block (QImage_bits out)) as Hdb
      by apply QImage_scanLine_block.
    assert (forall j c, 0 <= j < m_cols mat -> 0 <= c < cn ->
              valid m (Mat_at mat cn i j c) /\
              p_block (Mat_at mat cn i j c) <> p_block (QImage_bits out) /\
              p_block (Mat_at mat cn i j c) <> p_block dst) as Hpx.
    { intros j c Hj Hc'. rewrite Hdb. split; [|done].
      rewrite Mat_at_row. apply Hsrc; [done|nia]. }
    assert (forall j, dst +ₚ j * 4 = dst +ₚ (j * 4 + 0)) as E0
      by (intros; f_equal; lia).
    destruct Hcn as [-> | ->]; eval_eqb.
    + apply (for_updated_tt (fun j => dst +ₚ (j * 4)) 4); [lia|lia|lia| |].
      { by rewrite Z.mul_0_l, ptr_add_0. }
      intros j mj Hj Hu.
      destruct (Hpx j 0 Hj ltac:(lia)) as (Hp & Hpb & Hpd).
      destruct (four_writes mi mj dst j _
                  (byte_at m (Mat_at mat 1 i j 0)) (byte_at m (Mat_at mat 1 i j 0))
                  (byte_at m (Mat_at mat 1 i j 0)) (to_uchar 255) Hu)
        as (m1 & m2 & m3 & m4 & Hw0 & Hw1 & Hw2 & Hw3 & Hfr & Hu4).
      { lia. }
      { intros t Ht. apply Hso2, Hdst; lia. }
      { cbv beta. destruct (div4_pixel j 0 ltac:(lia)) as [-> ->]. by rewrite decide_False. }
      { cbv beta. destruct (div4_pixel j 1 ltac:(lia)) as [-> ->]. by rewrite decide_False. }
      { cbv beta. destruct (div4_pixel j 2 ltac:(lia)) as [-> ->]. by rewrite decide_False. }
      { cbv beta. destruct (div4_pixel j 3 ltac:(lia)) as [-> ->]. by rewrite decide_True. }
      destruct (Hfr _ Hpd) as (Hl0 & Hl1 & Hl2 & _).
      rewrite (Hso1 _ Hpb), (load_byte_at _ _ Hp) in Hl0, Hl1, Hl2.
      exists m4. split; [|done].
      rewrite (bind_read _ _ _ _ Hl0). rewrite E0, (bind_put _ _ _ _ _ Hw0).
      rewrite (bind_read _ _ _ _ Hl1). rewrite ptr_add_add.
      replace (j * 4 + 0 + 1) with (j * 4 + 1) by lia.
      rewrite (bind_put _ _ _ _ _ Hw1).
      rewrite (bind_read _ _ _ _ Hl2). rewrite ptr_add_add.
      replace (j * 4 + 1 + 1) with (j * 4 + 2) by lia.
      rewrite (bind_put _ _ _ _ _ Hw2). rewrite ptr_add_add.
      replace (j * 4 + 2 + 1) with (j * 4 + 3) by lia.
      rewrite (put_write _ _ _ _ Hw3). do 2 f_equal.
      rewrite ptr_add_add. f_equal. lia.
    + apply (for_updated_tt (fun j => dst +ₚ (j * 4)) 4); [lia|lia|lia| |].
      { by rewrite Z.mul_0_l, ptr_add_0. }
      intros j mj Hj Hu.
      destruct (Hpx j 0 Hj ltac:(lia)) as (Hp0 & Hpb0 & Hpd0).
      destruct (Hpx j 1 Hj ltac:(lia)) as (Hp1 & Hpb1 & Hpd1).
      destruct (Hpx j 2 Hj ltac:(lia)) as (Hp2 & Hpb2 & Hpd2).
      destruct (four_writes mi mj dst j _
                  (byte_at m (Mat_at mat 3 i j 0)) (byte_at m (Mat_at mat 3 i j 1))
                  (byte_at m (Mat_at mat 3 i j 2)) (to_uchar 255) Hu)
        as (m1 & m2 & m3 & m4 & Hw0 & Hw1 & Hw2 & Hw3 & Hfr & Hu4).
      { lia. }
      { intros t Ht. apply Hso2, Hdst; lia. }
      { cbv beta. destruct (div4_pixel j 0 ltac:(lia)) as [-> ->]. by rewrite !decide_False. }
      { cbv beta. destruct (div4_pixel j 1 ltac:(lia)) as [-> ->]. by rewrite !decide_False. }
      { cbv beta. destruct (div4_pixel j 2 ltac:(lia)) as [-> ->]. by rewrite !decide_False. }
      { cbv beta. destruct (div4_pixel j 3 ltac:(lia)) as [-> ->]. by rewrite decide_True. }
      destruct (Hfr _ Hpd0) as (Hl0 & _).
      destruct (Hfr _ Hpd1) as (_ & Hl1 & _).
      destruct (Hfr _ Hpd2) as (_ & _ & Hl2 & _).
      rewrite (Hso1 _ Hpb0), (load_byte_at _ _ Hp0) in Hl0.
      rewrite (Hso1 _ Hpb1), (load_byte_at _ _ Hp1) in Hl1.
      rewrite (Hso1 _ Hpb2), (load_byte_at _ _ Hp2) in Hl2.
      exists m4. split; [|done].
      rewrite (bind_read _ _ _ _ Hl0). rewrite E0, (bind_put _ _ _ _ _ Hw0).
      rewrite (bind_read _ _ _ _ Hl1). rewrite ptr_add_add.
      replace (j * 4 + 0 + 1) with (j * 4 + 1) by lia.
      rewrite (bind_put _ _ _ _ _ Hw1).
      rewrite (bind_read _ _ _ _ Hl2). rewrite ptr_add_add.
      replace (j * 4 + 1 + 1) with (j * 4 + 2) by lia.
      rewrite (bind_put _ _ _ _ _ Hw2). rewrite ptr_add_add.
      replace (j * 4 + 2 + 1) with (j * 4 + 3) by lia.
      rewrite (put_write _ _ _ _ Hw3). do 2 f_equal.
      rewrite ptr_add_add. f_equal. lia.
Qed.

Lemma normalize_canonical `{Libs} (img : QImage) (m : mem) :
  QImage_format img = Format_Indexed8 \/ QImage_format img = Format_RGB32 \/
  QImage_format img = Format_ARGB32 \/ QImage_format img = Format_RGB888 ->
  normalize img m = Some (img, m).
Proof. unfold normalize. by intros [->|[->|[->| ->]]]. Qed.

Section FillPaths.
Context `{Libs}.

(** [image2Mat] to 4 channels on a source of 1 or 3 bytes per pixel. *)
Lemma image2Mat_fill4 (img image : QImage) (m m1 : mem) :
  QImage_isNull img = false ->
  normalize img m = Some (image, m1) ->
  QImage_ok m1 image ->
  QImage_format image = Format_Indexed8 \/ QImage_format image = Format_RGB888 ->
  exists mat m',
    image2Mat img 4 m = Some (mat, m') /\
    m_rows mat = QImage_height image /\ m_cols mat = QImage_width image /\
    m_type mat = CV_8UC4 /\ m_step mat = m_cols mat * 4 /\
    forall i j, 0 <= i < QImage_height image -> 0 <= j < QImage_width image ->
      load m' (Mat_at mat 4 i j 3) = Some (to_uchar 255).
Proof.
  intros Hnull Hnorm Hok Hfmt.
  pose proof Hok as (_ & Hw & Hh & _ & Hv).
  destruct (image2Mat_run img image 4 m m1 ltac:(lia) Hnull Hnorm Hw Hh)
    as (m2 & Hframe & Hvalid & Hrun).
  cbv zeta in *. set (b := Datatypes.S (length m1)) in *.
  set (mat := mkMat _ _ _ _ _) in *.
  assert (0 < QImage_row_bytes image) as Hrb.
  { destruct Hfmt as [Hf|Hf];
      destruct (QImage_row_bytes_fmt image _ Hf ltac:(done)) as [_ ->];
      vm_compute (depthForFormat _ `quot` 8); lia. }
  assert (p_block (QImage_bits image) <> b) as Hblk.
  { pose proof (QImage_ok_block _ _ Hok Hrb). unfold b. lia. }
  pose proof (same_outside_ok_image b m1 m2 image Hframe Hblk Hok) as Hok2.
  assert (exists m', image2Mat_rows4 img image mat m2 = Some (tt, m') /\
            forall i k, 0 <= i < m_rows mat -> 0 <= k < m_cols mat * 4 ->
              k mod 4 = 3 ->
              load m' (Mat_row_data mat i +ₚ k) = Some (to_uchar 255))
    as (m' & Hrows & Hl).
  { destruct Hfmt as [Hf|Hf].
    - destruct (image2Mat_rows4_indexed8 img image mat m2 Hf Hok2)
        as (m' & Hrows & _ & Hl); try done.
      exists m'. split; [done|]. intros i k Hi Hk Hmod.
      rewrite Hl by done. by rewrite decide_True.
    - destruct (image2Mat_rows4_rgb888 img image mat m2 Hf Hok2)
        as (m' & Hrows & _ & Hl); try done.
      exists m'. split; [done|]. intros i k Hi Hk Hmod.
      rewrite Hl by done. by rewrite decide_True. }
  exists mat, m'. rewrite Hrun. eval_eqb. rewrite Hrows.
  split; [done|]. do 4 (split; [done|]).
  intros i j Hi Hj. rewrite Mat_at_row. apply Hl; [done|simpl; lia|].
  apply (div4_pixel j 3). lia.
Qed.

(** [mat2Image] to RGB32 on an 8-bit matrix of 1 or 3 channels. *)
Lemma mat2Image_fill4 (mat : Mat) (m : mem) :
  Mat_ok m mat -> m_type mat = CV_8UC1 \/ m_type mat = CV_8UC3 ->
  exists out m',
    mat2Image mat Format_RGB32 m = Some (out, m') /\
    QImage_isNull out = false /\
    QImage_width out = m_cols mat /\ QImage_height out = m_rows mat /\
    QImage_format out = Format_RGB32 /\
    forall i j, 0 <= i < m_rows mat -> 0 <= j < m_cols mat ->
      QImage_byte m' out i (j * 4 + 3) = Some (to_uchar 255).
Proof.
  intros Hok Htype. pose proof Hok as (Hr & Hc & Hst & Hv).
  assert (exists cn, (cn = 1 \/ cn = 3) /\ m_type mat = CV_8UC cn) as (cn & Hcn & Ht).
  { destruct Htype; [exists 1|exists 3]; split; (done || lia). }
  assert (Mat_row_bytes mat = m_cols mat * cn) as Hrb.
  { unfold Mat_row_bytes. rewrite Ht. by destruct Hcn as [->| ->]. }
  rewrite Hrb in Hst, Hv.
  destruct (mat2Image_run mat Format_RGB32 m Hok) as (m2 & Hframe & Hvalid & Hrun).
  { nia. } { unfold Mat_depth. rewrite Ht. by destruct Hcn as [->| ->]. } { by left. }
  cbv zeta in *. set (b := Datatypes.S (length m)) in *.
  change (depthForFormat Format_RGB32) with 32 in *.
  set (bpl := scanline_bytes (m_cols mat) 32) in *.
  set (out := Some (mkQImageData _ _ _ _ _ _)) in *.
  assert (m_cols mat * 4 <= bpl) as Hge.
  { unfold bpl. change 32 with (8 * 4). apply scanline_bytes_ge; lia. }
  assert (p_block (m_data mat) <> b) as Hblk.
  { pose proof (Mat_ok_block _ _ Hok ltac:(nia)). unfold b. lia. }
  destruct (mat2Image_rows_RGB32_fill mat out cn m2 Hcn Ht Hr Hc)
    as (m' & Hf & _ & Hl).
  - intros i k Hi Hk. unfold valid. rewrite Hframe by done. by apply Hv.
  - done.
  - done.
  - intros i k Hi Hk. apply Hvalid; [done|lia].
  - exists out, m'. rewrite Hrun. rewrite bool_decide_eq_true_2 by done.
    rewrite Hf. split; [done|]. do 4 (split; [done|]).
    intros i j Hi Hj. unfold QImage_byte. rewrite Hl; [|done|lia].
    rewrite decide_True; [done|]. apply (div4_pixel j 3). lia.
Qed.

End FillPaths.

(** ** The colour table *)

Lemma gray_color_table_identity : gray_color_table = identity_palette.
Proof. vm_compute. reflexivity. Qed.

Lemma identity_palette_lookup (i : Z) :
  0 <= i < 256 -> identity_palette !! Z.to_nat i = Some (qRgb i i i).
Proof.
  intros Hi. unfold identity_palette. rewrite list_lookup_fmap.
  rewrite lookup_seqZ_lt by lia. simpl. do 2 f_equal; lia.
Qed.

Lemma qRgb_gray_channels (i : Z) :
  0 <= i < 256 ->
  qRed (qRgb i i i) = i /\ qGreen (qRgb i i i) = i /\ qBlue (qRgb i i i) = i /\
  qAlpha (qRgb i i i) = 255.
Proof.
  intros Hi.
  assert (Forall (fun i => qRed (qRgb i i i) = i /\ qGreen (qRgb i i i) = i /\
                           qBlue (qRgb i i i) = i /\ qAlpha (qRgb i i i) = 255)
            (seqZ 0 256)) as Hall.
  { apply Forall_forall. intros x Hx.
    assert (forallb (fun i => (qRed (qRgb i i i) =? i) && (qGreen (qRgb i i i) =? i)
                              && (qBlue (qRgb i i i) =? i)
                              && (qAlpha (qRgb i i i) =? 255)) (seqZ 0 256) = true)
      as Hb by (vm_compute; reflexivity).
    rewrite forallb_forall in Hb. apply list_elem_of_In in Hx.
    specialize (Hb x Hx). rewrite !andb_true_iff, !Z.eqb_eq in Hb. tauto. }
  rewrite Forall_seqZ in Hall. apply Hall. lia.
Qed.

(** ** What every result of the copying conversions satisfies *)

Section Inversion.
Context `{Libs}.

Lemma QImage_new_inv (w h : Z) (fmt : Format) (m m' : mem) (out : QImage) :
  QImage_new w h fmt m = Some (out, m') ->
  QImage_bytesPerLine out = scanline_bytes (QImage_width out) (QImage_depth out) /\
  (QImage_isNull out = false -> QImage_format out = fmt).
Proof.
  unfold QImage_new. destruct (_ || _ || _).
  - intros [= <- <-]. done.
  - unfold bind, alloc, ret. intros [= <- <-]. done.
Qed.

Lemma QImage_setColorTable_header (img : QImage) (colors : list QRgb) :
  QImage_isNull (QImage_setColorTable img colors) = QImage_isNull img /\
  QImage_width (QImage_setColorTable img colors) = QImage_width img /\
  QImage_height (QImage_setColorTable img colors) = QImage_height img /\
  QImage_depth (QImage_setColorTable img colors) = QImage_depth img /\
  QImage_format (QImage_setColorTable img colors) = QImage_format img /\
  QImage_bits (QImage_setColorTable img colors) = QImage_bits img /\
  QImage_bytesPerLine (QImage_setColorTable img colors) = QImage_bytesPerLine img /\
  (QImage_isNull img = false ->
   QImage_colorTable (QImage_setColorTable img colors) = colors).
Proof. by destruct img. Qed.

Lemma mat2Image_inv (mat : Mat) (fmt : Format) (m m' : mem) (out : QImage) :
  mat2Image mat fmt m = Some (out, m') ->
  QImage_bytesPerLine out = scanline_bytes (QImage_width out) (QImage_depth out) /\
  (QImage_isNull out = false ->
   QImage_format out = fmt /\
   (fmt = Format_RGB32 \/ fmt = Format_RGB888 \/ fmt = Format_Indexed8) /\
   (fmt = Format_Indexed8 -> QImage_colorTable out = gray_color_table)).
Proof.
  unfold mat2Image. destruct (Mat_empty mat); [by intros [= <- <-]|].
  unfold bind at 1. destruct (to_8bit mat m) as [[mat_b m1]|]; [|done].
  repeat case_bool_decide; subst.
  - unfold bind. destruct (QImage_new _ _ _ m1) as [[o m2]|] eqn:Hn; [|done].
    destruct (mat2Image_rows_RGB32 _ _ m2) as [[[] m3]|]; [|done].
    intros [= <- <-]. destruct (QImage_new_inv _ _ _ _ _ _ Hn) as [? ?].
    split; [done|]. intros Hnn. split; [by auto|]. split; [by auto|done].
  - unfold bind. destruct (QImage_new _ _ _ m1) as [[o m2]|] eqn:Hn; [|done].
    destruct (mat2Image_rows_RGB888 _ _ m2) as [[[] m3]|]; [|done].
    intros [= <- <-]. destruct (QImage_new_inv _ _ _ _ _ _ Hn) as [? ?].
    split; [done|]. intros Hnn. split; [by auto|]. split; [by auto|done].
  - unfold bind at 1.
    match goal with
    | |- context [(if m_type mat_b =? CV_8UC3 then ?a else ?b) m1] =>
        destruct ((if m_type mat_b =? CV_8UC3 then a else b) m1) as [[mat_c m1']|];
        [|done]
    end.
    unfold bind. destruct (QImage_new _ _ _ m1') as [[o m2]|] eqn:Hn; [|done].
    destruct (mat2Image_rows_Indexed8 _ _ m2) as [[[] m3]|]; [|done].
    intros [= <- <-]. destruct (QImage_new_inv _ _ _ _ _ _ Hn) as [Hb Hf].
    destruct (QImage_setColorTable_header o gray_color_table)
      as (En & Ew & Eh & Ed & Ef & _ & Eb & Ec).
    rewrite En, Ew, Ed, Ef, Eb. split; [done|]. intros Hnn. split; [by auto|].
    split; [by auto|]. intros _. by apply Ec.
  - by intros [= <- <-].
Qed.

Lemma image2Mat_inv (img : QImage) (ch : Z) (m m' : mem) (mat : Mat) :
  image2Mat img ch m = Some (mat, m') ->
  m_step mat = m_cols mat * CV_ELEM_SIZE (m_type mat) /\
  (mat = Mat_default \/
   exists ch', m_type mat = CV_8UC ch' /\ (ch <> 0 -> ch' = ch)).
Proof.
  unfold image2Mat. destruct (_ && _ && _ && _); [intros [= <- <-]; auto|].
  destruct (QImage_isNull img); [intros [= <- <-]; auto|].
  unfold bind at 1. destruct (normalize img m) as [[image m1]|]; [|done].
  set (channels := if ch =? 0 then _ else _).
  unfold bind at 1. unfold Mat_new.
  destruct (0 <? _); unfold bind, alloc, ret;
    (match goal with
     | |- context [(if channels =? 1 then ?a else ?b) ?x] =>
         destruct ((if channels =? 1 then a else b) x) as [[[] ?]|]; [|done]
     end);
    intros [= <- <-]; (split; [done|]); right; exists channels;
    (split; [done|]); intros Hne; unfold channels;
    by assert ((ch =? 0) = false) as -> by lia.
Qed.

End Inversion.

(** ** Soundness of the executable checks *)

Lemma rows_validb_valid (m : mem) (rowp : Z -> ptr) (h n : Z) :
  rows_validb m rowp h n = true ->
  forall i k, 0 <= i < h -> 0 <= k < n -> valid m (rowp i +ₚ k).
Proof.
  unfold rows_validb. intros Hb i k Hi Hk.
  rewrite forallb_forall in Hb.
  specialize (Hb i ltac:(apply list_elem_of_In, elem_of_seqZ; lia)).
  rewrite forallb_forall in Hb.
  specialize (Hb k ltac:(apply list_elem_of_In, elem_of_seqZ; lia)).
  by apply bool_decide_eq_true in Hb.
Qed.

Lemma QImage_okb_ok (m : mem) (img : QImage) :
  QImage_okb m img = true -> QImage_ok m img.
Proof.
  unfold QImage_okb. rewrite !andb_true_iff. intros ((((Hn & Hw) & Hh) & Hb) & Hv).
  split; [by apply negb_true_iff|]. split; [lia|]. split; [lia|]. split; [lia|].
  by apply rows_validb_valid.
Qed.

Lemma Mat_okb_ok (m : mem) (mat : Mat) : Mat_okb m mat = true -> Mat_ok m mat.
Proof.
  unfold Mat_okb. rewrite !andb_true_iff. intros (((Hr & Hc) & Hs) & Hv).
  split; [lia|]. split; [lia|]. split; [lia|]. by apply rows_validb_valid.
Qed.

Section Indexed8.
Context `{Libs}.

(** [mat2Image] to Indexed8 on a 1-channel matrix: the rows are copied and
    the colour table is set. *)
Lemma mat2Image_indexed8 (mat : Mat) (m : mem) :
  Mat_ok m mat -> m_type mat = CV_8UC1 ->
  exists out m',
    mat2Image mat Format_Indexed8 m = Some (out, m') /\
    QImage_isNull out = false /\
    QImage_format out = Format_Indexed8 /\
    QImage_width out = m_cols mat /\ QImage_height out = m_rows mat /\
    QImage_colorTable out = gray_color_table /\
    forall i k, 0 <= i < m_rows mat -> 0 <= k < m_cols mat ->
      QImage_byte m' out i k = Mat_byte m mat i k.
Proof.
  intros Hok Htype. pose proof Hok as (Hr & Hc & Hst & Hv).
  assert (Mat_row_bytes mat = m_cols mat) as Hrb.
  { unfold Mat_row_bytes. rewrite Htype. change (CV_ELEM_SIZE CV_8UC1) with 1. lia. }
  rewrite Hrb in Hst, Hv.
  destruct (QImage_new_spec (m_cols mat) (m_rows mat) Format_Indexed8 m Hc Hr)
    as (m2 & Hnew & Hframe & Hvalid & _); [done|].
  cbv zeta in Hnew, Hframe, Hvalid.
  set (b := Datatypes.S (length m)) in *.
  change (depthForFormat Format_Indexed8) with 8 in *.
  set (bpl := scanline_bytes (m_cols mat) 8) in *.
  set (out := Some (mkQImageData (m_cols mat) (m_rows mat) Format_Indexed8 bpl
                      (Ptr b 0) gray_color_table)).
  assert (m_cols mat <= bpl) as Hge.
  { unfold bpl. change 8 with (8 * 1).
    pose proof (scanline_bytes_ge (m_cols mat) 1). lia. }
  assert (p_block (m_data mat) <> b) as Hblk.
  { pose proof (Mat_ok_block _ _ Hok ltac:(lia)). unfold b. lia. }
  destruct (memcpy_rows (QImage_scanLine out) (Mat_row_data mat) b 0 bpl
              (m_rows mat) (m_cols mat) m2) as (m' & Hf & _ & Hl).
  - lia.
  - lia.
  - intros i. simpl. split; [done|lia].
  - intros i Hi. done.
  - intros i k Hi Hk. simpl. rewrite ptr_add_add. apply Hvalid. nia.
  - intros i k Hi Hk. unfold valid. rewrite Hframe by done. by apply Hv.
  - exists out, m'. split; [|split; [done|]; do 4 (split; [done|])].
    + unfold mat2Image. rewrite (Mat_ok_not_empty m mat Hok ltac:(lia)).
      unfold to_8bit, Mat_depth. rewrite Htype. eval_eqb.
      unfold bind at 1. unfold ret at 1.
      rewrite !bool_decide_eq_false_2 by done.
      rewrite bool_decide_eq_true_2 by done.
      rewrite Htype. eval_eqb. unfold bind at 1. unfold ret at 1.
      unfold bind at 1. rewrite Hnew. cbv zeta.
      unfold QImage_setColorTable; simpl qd_width; simpl qd_height;
        simpl qd_format; simpl qd_bytes_per_line; simpl qd_data.
      fold out. unfold bind, mat2Image_rows_Indexed8. rewrite Hf. done.
    + intros i k Hi Hk. unfold QImage_byte, Mat_byte. rewrite Hl by done.
      by apply Hframe.
Qed.

End Indexed8.

(** * The properties of the conversions *)

Section Claims.
Context `{Libs}.

(** C1 (as amended): for every non-null image of format RGB32 or ARGB32,
    whose pixels are the bytes B, G, R, A in this order, [image2Mat] with one
    destination channel returns a matrix of the size of the image in which
    every byte is floor((R*9798 + G*19238 + B*3728) / 32768) of the pixel at
    its place.  The triplet (B=10, G=20, R=30) gives
    floor((30*9798 + 20*19238 + 10*3728) / 32768) = 21, black gives 0, and
    white gives 254: the three weights add up to 32764, not to 32768. *)
Theorem image2Mat_luminance_bgra (m : mem) (img : QImage) :
  QImage_ok m img ->
  QImage_format img = Format_RGB32 \/ QImage_format img = Format_ARGB32 ->
  (exists mat m',
     image2Mat img 1 m = Some (mat, m') /\
     m_rows mat = QImage_height img /\ m_cols mat = QImage_width img /\
     m_type mat = CV_8UC1 /\
     forall i j, 0 <= i < QImage_height img -> 0 <= j < QImage_width img ->
       exists B G R Y,
         QImage_byte m img i (j * 4) = Some B /\
         QImage_byte m img i (j * 4 + 1) = Some G /\
         QImage_byte m img i (j * 4 + 2) = Some R /\
         Mat_byte m' mat i j = Some Y /\
         uchar_val Y = luma (uchar_val R) (uchar_val G) (uchar_val B)) /\
  luma 30 20 10 = (30 * 9798 + 20 * 19238 + 10 * 3728) / 32768 /\
  luma 30 20 10 = 21 /\ luma 0 0 0 = 0 /\ luma 255 255 255 = 254.
Proof.
  intros Hok Hfmt. split; [|by vm_compute].
  assert (QImage_isNull img = false) as Hnull by apply Hok.
  assert (normalize img m = Some (img, m)) as Hnorm
    by (apply normalize_canonical; tauto).
  assert (QImage_depth img `quot` 8 = 4) as Hd.
  { destruct Hfmt as [Hf|Hf];
      by destruct (QImage_row_bytes_fmt img _ Hf ltac:(done)) as [-> _]. }
  destruct (image2Mat_gray img img m m Hnull Hnorm Hok) as
    (mat & m' & Hrun & Hrows & Hcols & Htype & _ & Hpx).
  { destruct Hfmt as [-> | ->]; done. }
  { lia. }
  exists mat, m'. do 4 (split; [done|]). intros i j Hi Hj.
  specialize (Hpx i j Hi Hj). cbv zeta in Hpx. rewrite Hd in Hpx.
  set (p := src_px img 4 i j) in *.
  assert (forall t, 0 <= t < 4 ->
            QImage_byte m img i (j * 4 + t) = Some (byte_at m (p +ₚ t))) as Hb.
  { intros t Ht. unfold QImage_byte. rewrite <- ptr_add_add.
    apply load_byte_at. unfold p. rewrite <- Hd. apply src_px_valid; [done..|lia]. }
  eexists (byte_at m p), (byte_at m (p +ₚ 1)), (byte_at m (p +ₚ 2)), _.
  pose proof (Hb 0 ltac:(lia)) as Hb0. rewrite Z.add_0_r, ptr_add_0 in Hb0.
  split; [done|]. split; [by apply Hb|]. split; [by apply Hb|].
  split; [exact Hpx|]. apply gray_of_luma.
Qed.

(** C10: for every non-null source that [image2Mat] reads as RGB888 (an
    RGB888 image, or what Qt's conversion to RGB888 made of an RGB444,
    RGB555, RGB666 or RGB16 image), whose pixels are the bytes R, G, B in
    this order, [image2Mat] with one destination channel gives every byte
    the value floor((R*3728 + G*19238 + B*9798) / 32768): the weights 3728,
    19238, 9798 go to the first, second and third byte of the pixel as on
    the 32-bit path ([gray_of] on both), so that red has the weight 3728 and
    blue the weight 9798, the reverse of the 32-bit path. *)
Theorem image2Mat_luminance_rgb888 (m m1 : mem) (img image : QImage) :
  QImage_isNull img = false ->
  normalize img m = Some (image, m1) ->
  QImage_ok m1 image ->
  QImage_format image = Format_RGB888 ->
  (exists mat m',
     image2Mat img 1 m = Some (mat, m') /\
     m_rows mat = QImage_height image /\ m_cols mat = QImage_width image /\
     m_type mat = CV_8UC1 /\
     forall i j, 0 <= i < QImage_height image -> 0 <= j < QImage_width image ->
       exists R G B Y,
         QImage_byte m1 image i (j * 3) = Some R /\
         QImage_byte m1 image i (j * 3 + 1) = Some G /\
         QImage_byte m1 image i (j * 3 + 2) = Some B /\
         Mat_byte m' mat i j = Some Y /\
         Y = gray_of R G B /\
         uchar_val Y =
           (uchar_val R * 3728 + uchar_val G * 19238 + uchar_val B * 9798) / 32768 /\
         uchar_val Y = luma (uchar_val B) (uchar_val G) (uchar_val R)) /\
  (forall x mx, QImage_format x = Format_RGB888 -> normalize x mx = Some (x, mx)) /\
  (forall x, QImage_format x = Format_RGB444 \/ QImage_format x = Format_RGB555 \/
             QImage_format x = Format_RGB666 \/ QImage_format x = Format_RGB16 ->
             normalize x = QImage_convertToFormat x Format_RGB888).
Proof.
  intros Hnull Hnorm Hok Hfmt. split; [|split].
  - destruct (QImage_row_bytes_fmt image _ Hfmt ltac:(done)) as [Hd _].
    assert (QImage_depth image `quot` 8 = 3) as Hd3 by (by rewrite Hd).
    destruct (image2Mat_gray img image m m1 Hnull Hnorm Hok) as
      (mat & m' & Hrun & Hrows & Hcols & Htype & _ & Hpx).
    { by rewrite Hfmt. }
    { lia. }
    exists mat, m'. do 4 (split; [done|]). intros i j Hi Hj.
    specialize (Hpx i j Hi Hj). cbv zeta in Hpx. rewrite Hd3 in Hpx.
    set (p := src_px image 3 i j) in *.
    assert (forall t, 0 <= t < 3 ->
              QImage_byte m1 image i (j * 3 + t) = Some (byte_at m1 (p +ₚ t))) as Hb.
    { intros t Ht. unfold QImage_byte. rewrite <- ptr_add_add.
      apply load_byte_at. unfold p. rewrite <- Hd3.
      apply src_px_valid; [done..|lia]. }
    eexists (byte_at m1 p), (byte_at m1 (p +ₚ 1)), (byte_at m1 (p +ₚ 2)), _.
    pose proof (Hb 0 ltac:(lia)) as Hb0. rewrite Z.add_0_r, ptr_add_0 in Hb0.
    split; [done|]. split; [by apply Hb|]. split; [by apply Hb|].
    split; [exact Hpx|]. split; [done|]. rewrite gray_of_luma. split; [|done].
    unfold luma. f_equal. lia.
  - intros x mx Hx. apply normalize_canonical. tauto.
  - intros x Hx. unfold normalize. by destruct Hx as [->|[->|[->| ->]]].
Qed.

End Claims.

Section CopyClaims.
Context `{Libs}.

(** C3: for every non-null RGB888 image [x] whose rows are tightly packed
    (its scan line is width*3 bytes, width*3 a multiple of 4), the three
    conversions [image2Mat x 3], [mat2Image _ Format_RGB888] and
    [image2Mat _ 3] succeed one after the other, and the last matrix has
    the size of [x] and, row by row, the pixel bytes of [x]. *)
Theorem round_trip_rgb888 (m : mem) (x : QImage) :
  QImage_ok m x ->
  QImage_format x = Format_RGB888 ->
  QImage_bytesPerLine x = QImage_width x * 3 ->
  (QImage_width x * 3) mod 4 = 0 ->
  exists mat1 m1 q m2 mat2 m3,
    image2Mat x 3 m = Some (mat1, m1) /\
    mat2Image mat1 Format_RGB888 m1 = Some (q, m2) /\
    image2Mat q 3 m2 = Some (mat2, m3) /\
    QImage_bytesPerLine q = QImage_width x * 3 /\
    m_rows mat2 = QImage_height x /\ m_cols mat2 = QImage_width x /\
    m_type mat2 = CV_8UC3 /\
    forall i k, 0 <= i < QImage_height x -> 0 <= k < QImage_width x * 3 ->
      exists v, QImage_byte m x i k = Some v /\ Mat_byte m3 mat2 i k = Some v.
Proof.
  intros Hok Hfmt Htight Hmod4.
  assert (QImage_isNull x = false) as Hnull by apply Hok.
  assert (normalize x m = Some (x, m)) as Hnorm
    by (apply normalize_canonical; tauto).
  destruct (image2Mat_copy3 x x m m Hnull Hnorm Hok Hfmt eq_refl)
    as (mat1 & m1 & Hrun1 & Hr1 & Hc1 & Ht1 & _ & _ & Hok1 & _ & Hb1).
  destruct (mat2Image_copy3 mat1 m1 Hok1 Ht1)
    as (q & m2 & Hrun2 & Hw2 & Hh2 & Hf2 & Hbpl2 & Hok2 & _ & Hb2).
  assert (QImage_isNull q = false) as Hnull2 by apply Hok2.
  assert (normalize q m2 = Some (q, m2)) as Hnorm2
    by (apply normalize_canonical; tauto).
  destruct (image2Mat_copy3 q q m2 m2 Hnull2 Hnorm2 Hok2 Hf2 eq_refl)
    as (mat2 & m3 & Hrun3 & Hr3 & Hc3 & Ht3 & _ & _ & _ & _ & Hb3).
  exists mat1, m1, q, m2, mat2, m3. do 3 (split; [done|]).
  split; [|split; [congruence|split; [congruence|split; [done|]]]].
  - rewrite Hbpl2, Hc1. change 24 with (8 * 3). rewrite scanline_bytes_round.
    by apply round_up4_tight.
  - intros i k Hi Hk. exists (byte_at m (QImage_scanLine x i +ₚ k)). split.
    + apply load_byte_at. destruct Hok as (_ & _ & _ & _ & Hv). apply Hv; [done|].
      destruct (QImage_row_bytes_fmt x _ Hfmt ltac:(done)) as [_ ->].
      by change (depthForFormat Format_RGB888 `quot` 8) with 3.
    + rewrite Hb3 by (rewrite ?Hh2, ?Hw2, ?Hr1, ?Hc1; done).
      rewrite Hb2 by (rewrite ?Hr1, ?Hc1; done).
      rewrite Hb1 by done. unfold QImage_byte. apply load_byte_at.
      destruct Hok as (_ & _ & _ & _ & Hv). apply Hv; [done|].
      destruct (QImage_row_bytes_fmt x _ Hfmt ltac:(done)) as [_ ->].
      by change (depthForFormat Format_RGB888 `quot` 8) with 3.
Qed.

(** C4: a non-null source of one grey byte or of three bytes per pixel
    converted to four channels has 255 as the fourth byte of every pixel of
    the result: [image2Mat] with 4 destination channels on a source read as
    Indexed8 or RGB888, and [mat2Image] with Format_RGB32 on a CV_8UC1 or
    CV_8UC3 matrix. *)
Theorem alpha_fill_255 :
  (forall (m m1 : mem) (img image : QImage),
     QImage_isNull img = false ->
     normalize img m = Some (image, m1) ->
     QImage_ok m1 image ->
     QImage_format image = Format_Indexed8 \/ QImage_format image = Format_RGB888 ->
     exists mat m',
       image2Mat img 4 m = Some (mat, m') /\
       m_rows mat = QImage_height image /\ m_cols mat = QImage_width image /\
       m_type mat = CV_8UC4 /\
       forall i j, 0 <= i < m_rows mat -> 0 <= j < m_cols mat ->
         exists a, Mat_byte m' mat i (j * 4 + 3) = Some a /\ uchar_val a = 255) /\
  (forall (m : mem) (mat : Mat),
     Mat_ok m mat ->
     m_type mat = CV_8UC1 \/ m_type mat = CV_8UC3 ->
     exists out m',
       mat2Image mat Format_RGB32 m = Some (out, m') /\
       QImage_isNull out = false /\ QImage_format out = Format_RGB32 /\
       QImage_width out = m_cols mat /\ QImage_height out = m_rows mat /\
       forall i j, 0 <= i < QImage_height out -> 0 <= j < QImage_width out ->
         exists a, QImage_byte m' out i (j * 4 + 3) = Some a /\ uchar_val a = 255).
Proof.
  split.
  - intros m m1 img image Hnull Hnorm Hok Hfmt.
    destruct (image2Mat_fill4 img image m m1 Hnull Hnorm Hok Hfmt)
      as (mat & m' & Hrun & Hr & Hc & Ht & _ & Hl).
    exists mat, m'. do 4 (split; [done|]). intros i j Hi Hj.
    exists (to_uchar 255). split; [|done].
    unfold Mat_byte. rewrite <- Mat_at_row. apply Hl; congruence.
  - intros m mat Hok Htype.
    destruct (mat2Image_fill4 mat m Hok Htype)
      as (out & m' & Hrun & Hn & Hw & Hh & Hf & Hl).
    exists out, m'. do 5 (split; [done|]). intros i j Hi Hj.
    exists (to_uchar 255). split; [|done]. apply Hl; congruence.
Qed.

(** C5 (as amended): the matrix that [image2Mat] returns has contiguous
    rows, its step being columns * channels * bytes per channel.  The image
    that [mat2Image] returns has the scan line Qt allocates: the bytes of a
    row of pixels rounded up to a multiple of 4; its rows are tightly
    packed exactly when width * bytes per pixel is a multiple of 4, which is
    always so for Format_RGB32. *)
Theorem copy_result_stride :
  (forall (img : QImage) (ch : Z) (m m' : mem) (mat : Mat),
     image2Mat img ch m = Some (mat, m') ->
     m_step mat = m_cols mat * (Mat_channels mat * CV_ELEM_SIZE1 (m_type mat))) /\
  (forall (mat : Mat) (fmt : Format) (m m' : mem) (out : QImage),
     mat2Image mat fmt m = Some (out, m') ->
     QImage_bytesPerLine out = (QImage_row_bytes out + 3) / 4 * 4 /\
     (QImage_bytesPerLine out = QImage_row_bytes out <->
      QImage_row_bytes out mod 4 = 0) /\
     (QImage_format out = Format_RGB32 ->
      QImage_bytesPerLine out = QImage_row_bytes out)).
Proof.
  split.
  - intros img ch m m' mat Hrun. by destruct (image2Mat_inv _ _ _ _ _ Hrun) as [-> _].
  - intros mat fmt m m' out Hrun.
    destruct (mat2Image_inv _ _ _ _ _ Hrun) as [Hb Hnn].
    assert (QImage_bytesPerLine out = (QImage_row_bytes out + 3) / 4 * 4) as Hbpl.
    { destruct out as [d|]; [|done]. destruct (Hnn eq_refl) as (Hf & Hfmt & _).
      rewrite Hb. unfold QImage_row_bytes, QImage_depth. simpl in *.
      rewrite Hf. destruct Hfmt as [->|[->| ->]];
        [exact (scanline_bytes_round _ 4)|exact (scanline_bytes_round _ 3)
        |exact (scanline_bytes_round _ 1)]. }
    split; [done|]. split; [rewrite Hbpl; apply round_up4_tight|].
    intros Hf. rewrite Hbpl. apply round_up4_tight.
    unfold QImage_row_bytes, QImage_depth. destruct out as [d|]; [|done].
    simpl in *. rewrite Hf. change (depthForFormat Format_RGB32 `quot` 8) with 4.
    apply Z.mod_mul. lia.
Qed.

End CopyClaims.

Lemma min_bytes_per_line_eq (w c : Z) :
  0 <= w -> 0 <= c -> (w * (8 * c) + 7) `quot` 8 = w * c.
Proof.
  intros Hw Hc. rewrite Z.quot_div_nonneg by nia.
  symmetry. apply (Z.div_unique _ _ _ 7); lia.
Qed.

Lemma view_row_eq (data : ptr) (i step : Z) :
  data +ₚ step * i = data +ₚ i * step.
Proof. f_equal. lia. Qed.

(** [QImage_of_data] on the bytes of a non-empty matrix with 8-bit
    channels. *)
Lemma QImage_of_data_mat (mat : Mat) (fmt : Format) (c : Z) :
  Mat_empty mat = false -> 0 < m_rows mat -> 0 < m_cols mat ->
  m_cols mat * c <= m_step mat -> 0 < c ->
  fmt <> Format_Invalid -> depthForFormat fmt = 8 * c ->
  QImage_of_data (m_data mat) (m_cols mat) (m_rows mat) (m_step mat) fmt =
    Some (mkQImageData (m_cols mat) (m_rows mat) fmt (m_step mat) (m_data mat) []).
Proof.
  intros Hne Hr Hc Hst Hc0 Hinv Hd. unfold QImage_of_data.
  apply orb_false_elim in Hne as [Hnull _].
  rewrite bool_decide_eq_false_2 by done. rewrite Hd, Hnull.
  rewrite min_bytes_per_line_eq by lia.
  assert ((m_step mat <=? 0) = false) as -> by nia.
  assert ((m_cols mat <=? 0) = false) as -> by lia.
  assert ((m_rows mat <=? 0) = false) as -> by lia.
  assert ((m_step mat <? m_cols mat * c) = false) as -> by lia.
  assert ((m_step mat <=? 0) = false) as -> by nia.
  done.
Qed.

Section SharedClaims.
Context `{Libs}.

(** C6 (as amended): a source whose format or element type is not one the
    shared conversions support (an image that is not Indexed8, RGB888, RGB32
    or ARGB32; a matrix that is not CV_8UC1, CV_8UC3 or CV_8UC4, such as a
    2-channel one) gives the empty sentinel, the store being left as it is.
    The stride is not examined: a supported image is returned as a view
    with the scan line of the image as its step, padded or not. *)
Theorem shared_unsupported_gives_empty :
  (forall (m : mem) (img : QImage),
     QImage_format img <> Format_Indexed8 -> QImage_format img <> Format_RGB888 ->
     QImage_format img <> Format_RGB32 -> QImage_format img <> Format_ARGB32 ->
     image2Mat_shared img m = Some (Mat_default, m)) /\
  (forall (m : mem) (mat : Mat),
     m_type mat <> CV_8UC1 -> m_type mat <> CV_8UC3 -> m_type mat <> CV_8UC4 ->
     mat2Image_shared mat m = Some (QImage_null, m)) /\
  (forall (m : mem) (img : QImage),
     QImage_isNull img = false ->
     QImage_format img = Format_Indexed8 \/ QImage_format img = Format_RGB888 \/
     QImage_format img = Format_RGB32 \/ QImage_format img = Format_ARGB32 ->
     exists mat, image2Mat_shared img m = Some (mat, m) /\
                 m_data mat = QImage_bits img /\
                 m_step mat = QImage_bytesPerLine img).
Proof.
  split; [|split].
  - intros m img H1 H2 H3 H4. unfold image2Mat_shared.
    destruct (QImage_isNull img); [done|].
    by destruct (QImage_format img).
  - intros m mat H1 H2 H3. unfold mat2Image_shared.
    destruct (Mat_empty mat); [done|].
    assert ((m_type mat =? CV_8UC1) = false) as -> by lia.
    assert ((m_type mat =? CV_8UC3) = false) as -> by lia.
    assert ((m_type mat =? CV_8UC4) = false) as -> by lia.
    done.
  - intros m img Hnull Hfmt. unfold image2Mat_shared. rewrite Hnull.
    eexists. split; [by destruct Hfmt as [->|[->|[->| ->]]]|]. done.
Qed.

(** C7: each of the four conversions gives the empty sentinel on a null
    image, or on a matrix that is empty (no rows, no columns or no data), in
    every store [m], which is left as it is: also in a store where no
    address can be read.  An image of zero area is null: both constructors
    of the image refuse an empty size. *)
Theorem empty_source_gives_empty (m : mem) :
  (forall (img : QImage) (ch : Z),
     QImage_isNull img = true -> image2Mat img ch m = Some (Mat_default, m)) /\
  (forall (img : QImage),
     QImage_isNull img = true -> image2Mat_shared img m = Some (Mat_default, m)) /\
  (forall (mat : Mat) (fmt : Format),
     Mat_empty mat = true -> mat2Image mat fmt m = Some (QImage_null, m)) /\
  (forall (mat : Mat),
     Mat_empty mat = true -> mat2Image_shared mat m = Some (QImage_null, m)) /\
  (forall (mat : Mat),
     m_rows mat = 0 \/ m_cols mat = 0 \/ m_data mat = nullptr ->
     Mat_empty mat = true) /\
  (forall (w h : Z) (fmt : Format),
     w <= 0 \/ h <= 0 -> QImage_new w h fmt m = Some (QImage_null, m)) /\
  (forall (data : ptr) (w h bpl : Z) (fmt : Format),
     w <= 0 \/ h <= 0 \/ data = nullptr ->
     QImage_of_data data w h bpl fmt = QImage_null) /\
  Mat_empty Mat_default = true /\ QImage_isNull QImage_null = true.
Proof.
  repeat split.
  - intros img ch Hnull. unfold image2Mat. rewrite Hnull. by destruct (_ && _ && _ && _).
  - intros img Hnull. unfold image2Mat_shared. by rewrite Hnull.
  - intros mat fmt He. unfold mat2Image. by rewrite He.
  - intros mat He. unfold mat2Image_shared. by rewrite He.
  - intros mat Hz. unfold Mat_empty. apply orb_true_iff.
    destruct Hz as [Hz|[Hz|Hz]]; [right|right|left].
    + rewrite Hz. done.
    + rewrite Hz. apply Z.eqb_eq. lia.
    + by rewrite Hz.
  - intros w h fmt Hz. unfold QImage_new.
    assert ((w <=? 0) || (h <=? 0) = true) as ->; [|done].
    apply orb_true_iff. lia.
  - intros data w h bpl fmt Hz. unfold QImage_of_data.
    case_bool_decide; [done|].
    assert ((w <=? 0) || (h <=? 0) || is_null data = true) as ->; [|done].
    rewrite !orb_true_iff. destruct Hz as [Hz|[Hz| ->]]; [lia|lia|by right].
Qed.

(** C8: a 1-channel matrix shown as an indexed image carries the identity
    grey palette, 256 entries of which entry i is the grey (i, i, i):
    [mat2Image] with Format_Indexed8 and [mat2Image_shared] return, on a
    non-empty CV_8UC1 matrix, a non-null Indexed8 image with this colour
    table, and every non-null result of [mat2Image] with Format_Indexed8 has
    it. *)
Theorem indexed_result_has_identity_palette :
  (gray_color_table = identity_palette /\
   length identity_palette = 256%nat /\
   forall i, 0 <= i < 256 ->
     identity_palette !! Z.to_nat i = Some (qRgb i i i) /\
     qRed (qRgb i i i) = i /\ qGreen (qRgb i i i) = i /\ qBlue (qRgb i i i) = i) /\
  (forall (m : mem) (mat : Mat),
     Mat_ok m mat -> m_type mat = CV_8UC1 ->
     exists out m',
       mat2Image mat Format_Indexed8 m = Some (out, m') /\
       QImage_isNull out = false /\ QImage_format out = Format_Indexed8 /\
       QImage_colorTable out = identity_palette) /\
  (forall (m m' : mem) (mat : Mat) (out : QImage),
     mat2Image mat Format_Indexed8 m = Some (out, m') ->
     QImage_isNull out = false ->
     QImage_format out = Format_Indexed8 /\
     QImage_colorTable out = identity_palette) /\
  (forall (m : mem) (mat : Mat),
     Mat_ok m mat -> m_type mat = CV_8UC1 ->
     exists out,
       mat2Image_shared mat m = Some (out, m) /\
       QImage_isNull out = false /\ QImage_format out = Format_Indexed8 /\
       QImage_colorTable out = identity_palette).
Proof.
  split; [|split; [|split]].
  - split; [apply gray_color_table_identity|]. split; [done|].
    intros i Hi. split; [by apply identity_palette_lookup|].
    destruct (qRgb_gray_channels i Hi) as (? & ? & ? & _). done.
  - intros m mat Hok Htype.
    destruct (mat2Image_indexed8 mat m Hok Htype)
      as (out & m' & Hrun & Hn & Hf & _ & _ & Hct & _).
    exists out, m'. do 3 (split; [done|]).
    by rewrite Hct, gray_color_table_identity.
  - intros m m' mat out Hrun Hn.
    destruct (mat2Image_inv _ _ _ _ _ Hrun) as [_ Hnn].
    destruct (Hnn Hn) as (Hf & _ & Hct). split; [done|].
    by rewrite Hct, gray_color_table_identity.
  - intros m mat Hok Htype. pose proof Hok as (Hr & Hc & Hst & _).
    assert (Mat_row_bytes mat = m_cols mat * 1) as Hrb.
    { unfold Mat_row_bytes. by rewrite Htype. }
    unfold mat2Image_shared.
    rewrite (Mat_ok_not_empty m mat Hok ltac:(lia)). rewrite Htype. eval_eqb.
    rewrite (QImage_of_data_mat mat Format_Indexed8 1); try done; try lia.
    + eexists. split; [done|]. do 2 (split; [done|]).
      simpl. apply gray_color_table_identity.
    + apply (Mat_ok_not_empty m mat Hok). lia.
Qed.

(** C9: on a non-null image of a supported format, [image2Mat_shared]
    returns a matrix whose data pointer and step are the first byte and the
    scan line of the image, and on a non-empty matrix of a supported type
    [mat2Image_shared] returns an image whose first byte and scan line are
    the data pointer and step of the matrix.  The store is returned as it
    was (nothing is allocated); in every later store both headers read the
    same bytes, so that a byte stored through the source is read through
    the view. *)
Theorem shared_views_alias :
  (forall (m : mem) (img : QImage),
     QImage_isNull img = false ->
     QImage_format img = Format_Indexed8 \/ QImage_format img = Format_RGB888 \/
     QImage_format img = Format_RGB32 \/ QImage_format img = Format_ARGB32 ->
     exists mat,
       image2Mat_shared img m = Some (mat, m) /\
       m_data mat = QImage_bits img /\ m_step mat = QImage_bytesPerLine img /\
       m_rows mat = QImage_height img /\ m_cols mat = QImage_width img /\
       (forall m' i k, Mat_byte m' mat i k = QImage_byte m' img i k) /\
       (forall i k v m', store m (QImage_scanLine img i +ₚ k) v = Some m' ->
                         Mat_byte m' mat i k = Some v)) /\
  (forall (m : mem) (mat : Mat),
     Mat_empty mat = false -> 0 < m_rows mat -> 0 < m_cols mat ->
     Mat_row_bytes mat <= m_step mat ->
     m_type mat = CV_8UC1 \/ m_type mat = CV_8UC3 \/ m_type mat = CV_8UC4 ->
     exists img,
       mat2Image_shared mat m = Some (img, m) /\
       QImage_isNull img = false /\
       QImage_bits img = m_data mat /\ QImage_bytesPerLine img = m_step mat /\
       QImage_height img = m_rows mat /\ QImage_width img = m_cols mat /\
       (forall m' i k, QImage_byte m' img i k = Mat_byte m' mat i k) /\
       (forall i k v m', store m (Mat_row_data mat i +ₚ k) v = Some m' ->
                         QImage_byte m' img i k = Some v)).
Proof.
  split.
  - intros m img Hnull Hfmt.
    assert (forall mat, m_data mat = QImage_bits img ->
              m_step mat = QImage_bytesPerLine img ->
              forall i, Mat_row_data mat i = QImage_scanLine img i) as Hrow.
    { intros mat Hd Hs i. unfold Mat_row_data. rewrite Hd, Hs.
      destruct img as [d|]; [|done]. apply view_row_eq. }
    unfold image2Mat_shared. rewrite Hnull.
    eexists. split; [by destruct Hfmt as [->|[->|[->| ->]]]|].
    do 4 (split; [done|]). split.
    + intros m' i k. unfold Mat_byte, QImage_byte. by rewrite Hrow.
    + intros i k v m' Hs. unfold Mat_byte. rewrite Hrow by done.
      rewrite (load_store _ _ _ _ Hs). by rewrite decide_True.
  - intros m mat Hne Hr Hc Hst Htype.
    assert (exists fmt c, 0 < c /\ fmt <> Format_Invalid /\
              depthForFormat fmt = 8 * c /\ Mat_row_bytes mat = m_cols mat * c /\
              mat2Image_shared mat m =
                Some (QImage_setColorTable
                        (QImage_of_data (m_data mat) (m_cols mat) (m_rows mat)
                           (m_step mat) fmt)
                        (if m_type mat =? CV_8UC1 then gray_color_table else []), m))
      as (fmt & c & Hc0 & Hinv & Hd & Hrb & Hrun).
    { unfold mat2Image_shared, Mat_row_bytes. rewrite Hne.
      destruct Htype as [Ht|[Ht|Ht]]; rewrite Ht; eval_eqb.
      - exists Format_Indexed8, 1. done.
      - exists Format_RGB888, 3. rewrite (QImage_of_data_mat mat Format_RGB888 3);
          try done. unfold Mat_row_bytes in Hst. by rewrite Ht in Hst.
      - exists Format_ARGB32, 4. rewrite (QImage_of_data_mat mat Format_ARGB32 4);
          try done. unfold Mat_row_bytes in Hst. by rewrite Ht in Hst. }
    rewrite Hrun. rewrite (QImage_of_data_mat mat fmt c); try done; [|lia].
    eexists. split; [done|]. do 5 (split; [done|]). split.
    + intros m' i k. unfold Mat_byte, QImage_byte. simpl.
      by rewrite <- view_row_eq.
    + intros i k v m' Hs. unfold QImage_byte. simpl. rewrite <- view_row_eq.
      fold (Mat_row_data mat i). rewrite (load_store _ _ _ _ Hs).
      by rewrite decide_True.
Qed.

End SharedClaims.

(** * The properties on the inputs above *)

Lemma image2Mat_luminance_bgra_witness :
  QImage_ok mem_bgra img_bgra /\
  (QImage_format img_bgra = Format_RGB32 \/ QImage_format img_bgra = Format_ARGB32) /\
  exists mat m', @image2Mat eval_libs img_bgra 1 mem_bgra = Some (mat, m').
Proof.
  assert (QImage_ok mem_bgra img_bgra) as Hok
    by (apply QImage_okb_ok; vm_compute; reflexivity).
  split; [exact Hok|]. split; [left; reflexivity|].
  destruct (@image2Mat_luminance_bgra eval_libs mem_bgra img_bgra Hok
              (or_introl eq_refl)) as [(mat & m' & Hrun & _) _].
  exists mat, m'. exact Hrun.
Defined.

(** C1, as first stated, fails at the white point: the byte computed for
    the white pixel (255, 255, 255) is 254, not 255. *)
Lemma image2Mat_white_is_254 :
  QImage_byte mem_white img_white 0 0 = Some Byte.xff /\
  QImage_byte mem_white img_white 0 1 = Some Byte.xff /\
  QImage_byte mem_white img_white 0 2 = Some Byte.xff /\
  exists mat m',
    @image2Mat eval_libs img_white 1 mem_white = Some (mat, m') /\
    uchar_val <$> Mat_byte m' mat 0 0 = Some 254 /\
    uchar_val <$> Mat_byte m' mat 0 0 <> Some 255.
Proof.
  do 3 (split; [reflexivity|]).
  eexists _, _. split; [vm_compute; reflexivity|]. split; [reflexivity|].
  vm_compute. intros [=].
Qed.

Lemma image2Mat_luminance_rgb888_witness :
  QImage_isNull img_rgb = false /\
  @normalize eval_libs img_rgb mem_rgb = Some (img_rgb, mem_rgb) /\
  QImage_ok mem_rgb img_rgb /\
  QImage_format img_rgb = Format_RGB888 /\
  exists mat m', @image2Mat eval_libs img_rgb 1 mem_rgb = Some (mat, m').
Proof.
  assert (QImage_ok mem_rgb img_rgb) as Hok
    by (apply QImage_okb_ok; vm_compute; reflexivity).
  do 2 (split; [reflexivity|]). split; [exact Hok|]. split; [reflexivity|].
  destruct (@image2Mat_luminance_rgb888 eval_libs mem_rgb mem_rgb img_rgb img_rgb
              eq_refl eq_refl Hok eq_refl) as [(mat & m' & Hrun & _) _].
  exists mat, m'. exact Hrun.
Defined.

Lemma round_trip_rgb888_witness :
  QImage_ok mem_rgb4 img_rgb4 /\
  QImage_format img_rgb4 = Format_RGB888 /\
  QImage_bytesPerLine img_rgb4 = QImage_width img_rgb4 * 3 /\
  (QImage_width img_rgb4 * 3) mod 4 = 0 /\
  exists mat1 m1 q m2 mat2 m3,
    @image2Mat eval_libs img_rgb4 3 mem_rgb4 = Some (mat1, m1) /\
    @mat2Image eval_libs mat1 Format_RGB888 m1 = Some (q, m2) /\
    @image2Mat eval_libs q 3 m2 = Some (mat2, m3).
Proof.
  assert (QImage_ok mem_rgb4 img_rgb4) as Hok
    by (apply QImage_okb_ok; vm_compute; reflexivity).
  split; [exact Hok|]. do 3 (split; [reflexivity|]).
  destruct (@round_trip_rgb888 eval_libs mem_rgb4 img_rgb4 Hok eq_refl eq_refl eq_refl)
    as (mat1 & m1 & q & m2 & mat2 & m3 & H1 & H2 & H3 & _).
  exists mat1, m1, q, m2, mat2, m3. split; [exact H1|]. split; [exact H2|exact H3].
Defined.

Lemma alpha_fill_255_witness :
  (QImage_isNull img_gray = false /\
   @normalize eval_libs img_gray mem_gray = Some (img_gray, mem_gray) /\
   QImage_ok mem_gray img_gray /\
   QImage_format img_gray = Format_Indexed8 /\
   exists mat m', @image2Mat eval_libs img_gray 4 mem_gray = Some (mat, m')) /\
  (Mat_ok mem_gray mat_gray /\ m_type mat_gray = CV_8UC1 /\
   exists out m', @mat2Image eval_libs mat_gray Format_RGB32 mem_gray = Some (out, m')).
Proof.
  assert (QImage_ok mem_gray img_gray) as Hok
    by (apply QImage_okb_ok; vm_compute; reflexivity).
  assert (Mat_ok mem_gray mat_gray) as Hmok
    by (apply Mat_okb_ok; vm_compute; reflexivity).
  split.
  - do 2 (split; [reflexivity|]). split; [exact Hok|]. split; [reflexivity|].
    destruct (proj1 (@alpha_fill_255 eval_libs) mem_gray mem_gray img_gray img_gray
                eq_refl eq_refl Hok (or_introl eq_refl)) as (mat & m' & Hrun & _).
    exists mat, m'. exact Hrun.
  - split; [exact Hmok|]. split; [reflexivity|].
    destruct (proj2 (@alpha_fill_255 eval_libs) mem_gray mat_gray Hmok
                (or_introl eq_refl)) as (out & m' & Hrun & _).
    exists out, m'. exact Hrun.
Defined.

Lemma copy_result_stride_witness :
  (@image2Mat eval_libs img_rgb 3 mem_rgb =
     Some (mkMat CV_8UC3 1 1 3 (Ptr 2 0),
           mem_rgb ++ [[Byte.x1e; Byte.x14; Byte.x0a]]) /\
   m_step (mkMat CV_8UC3 1 1 3 (Ptr 2 0)) = 1 * (3 * 1)) /\
  (@mat2Image eval_libs mat_gray Format_RGB32 mem_gray =
     Some (Some (mkQImageData 1 1 Format_RGB32 4 (Ptr 2 0) []),
           mem_gray ++ [[Byte.x07; Byte.x07; Byte.x07; Byte.xff]]) /\
   QImage_bytesPerLine (Some (mkQImageData 1 1 Format_RGB32 4 (Ptr 2 0) [])) = 4).
Proof.
  assert (@image2Mat eval_libs img_rgb 3 mem_rgb =
            Some (mkMat CV_8UC3 1 1 3 (Ptr 2 0),
                  mem_rgb ++ [[Byte.x1e; Byte.x14; Byte.x0a]])) as H1
    by (vm_compute; reflexivity).
  assert (@mat2Image eval_libs mat_gray Format_RGB32 mem_gray =
            Some (Some (mkQImageData 1 1 Format_RGB32 4 (Ptr 2 0) []),
                  mem_gray ++ [[Byte.x07; Byte.x07; Byte.x07; Byte.xff]])) as H2
    by (vm_compute; reflexivity).
  split; (split; [assumption|]).
  - exact (proj1 (@copy_result_stride eval_libs) _ _ _ _ _ H1).
  - exact (proj1 (proj2 (@copy_result_stride eval_libs) _ _ _ _ _ H2)).
Defined.

(** C5, as first stated, fails for a 24-bit destination whose rows are not
    a multiple of 4 bytes: a matrix of one 3-channel pixel becomes an image
    with a scan line of 4 bytes for 1 * 3 * 1 bytes of pixels. *)
Lemma mat2Image_rgb888_row_is_padded :
  exists out m',
    @mat2Image eval_libs mat_bgr Format_RGB888 mem_rgb = Some (out, m') /\
    QImage_width out = 1 /\ QImage_depth out `quot` 8 = 3 /\
    QImage_bytesPerLine out = 4 /\
    QImage_bytesPerLine out <> QImage_width out * 3 * 1.
Proof.
  eexists _, _. split; [vm_compute; reflexivity|]. by repeat split.
Qed.

Lemma shared_unsupported_gives_empty_witness :
  (QImage_format img_mono <> Format_Indexed8 /\ QImage_format img_mono <> Format_RGB888 /\
   QImage_format img_mono <> Format_RGB32 /\ QImage_format img_mono <> Format_ARGB32 /\
   image2Mat_shared img_mono mem_gray = Some (Mat_default, mem_gray)) /\
  (m_type mat_2ch <> CV_8UC1 /\ m_type mat_2ch <> CV_8UC3 /\
   m_type mat_2ch <> CV_8UC4 /\
   mat2Image_shared mat_2ch mem_rgb = Some (QImage_null, mem_rgb)) /\
  (QImage_isNull img_rgb = false /\ QImage_format img_rgb = Format_RGB888 /\
   exists mat, image2Mat_shared img_rgb mem_rgb = Some (mat, mem_rgb)).
Proof.
  assert (QImage_format img_mono <> Format_Indexed8) as F1 by (vm_compute; intros [=]).
  assert (QImage_format img_mono <> Format_RGB888) as F2 by (vm_compute; intros [=]).
  assert (QImage_format img_mono <> Format_RGB32) as F3 by (vm_compute; intros [=]).
  assert (QImage_format img_mono <> Format_ARGB32) as F4 by (vm_compute; intros [=]).
  assert (m_type mat_2ch <> CV_8UC1) as T1 by (vm_compute; intros [=]).
  assert (m_type mat_2ch <> CV_8UC3) as T3 by (vm_compute; intros [=]).
  assert (m_type mat_2ch <> CV_8UC4) as T4 by (vm_compute; intros [=]).
  split; [|split].
  - do 4 (split; [assumption|]).
    exact (proj1 shared_unsupported_gives_empty mem_gray img_mono F1 F2 F3 F4).
  - do 3 (split; [assumption|]).
    exact (proj1 (proj2 shared_unsupported_gives_empty) mem_rgb mat_2ch T1 T3 T4).
  - do 2 (split; [reflexivity|]).
    destruct (proj2 (proj2 shared_unsupported_gives_empty) mem_rgb img_rgb
                eq_refl (or_intror (or_introl eq_refl))) as (mat & Hrun & _).
    exists mat. exact Hrun.
Defined.

(** C6, as first stated, fails for padded rows: an RGB888 image of one
    column has 3 bytes of pixels in each scan line of 4, and a 3-channel
    matrix of one column may have a step of 4; neither is rejected, each is
    returned as a view of the same bytes with the same stride. *)
Lemma shared_accepts_padded_rows :
  (QImage_isNull img_rgb_2rows = false /\
   QImage_row_bytes img_rgb_2rows = 3 /\ QImage_bytesPerLine img_rgb_2rows = 4 /\
   exists mat, image2Mat_shared img_rgb_2rows mem_rgb_2rows = Some (mat, mem_rgb_2rows) /\
               Mat_empty mat = false /\ mat <> Mat_default /\
               m_rows mat = 2 /\ m_cols mat = 1 /\ m_step mat = 4) /\
  (Mat_empty mat_bgr_2rows = false /\
   Mat_row_bytes mat_bgr_2rows = 3 /\ m_step mat_bgr_2rows = 4 /\
   exists img, mat2Image_shared mat_bgr_2rows mem_rgb_2rows = Some (img, mem_rgb_2rows) /\
               QImage_isNull img = false /\ img <> QImage_null /\
               QImage_height img = 2 /\ QImage_width img = 1 /\
               QImage_bytesPerLine img = 4).
Proof.
  split.
  - do 3 (split; [reflexivity|]). eexists. split; [vm_compute; reflexivity|].
    repeat split; try reflexivity. intros [=].
  - do 3 (split; [reflexivity|]). eexists. split; [vm_compute; reflexivity|].
    repeat split; try reflexivity. intros [=].
Qed.

Lemma empty_source_gives_empty_witness :
  QImage_isNull QImage_null = true /\ Mat_empty Mat_default = true /\
  @image2Mat eval_libs QImage_null 3 [] = Some (Mat_default, []) /\
  image2Mat_shared QImage_null [] = Some (Mat_default, []) /\
  @mat2Image eval_libs Mat_default Format_RGB888 [] = Some (QImage_null, []) /\
  mat2Image_shared Mat_default [] = Some (QImage_null, []) /\
  Mat_empty (mkMat CV_8UC3 0 0 0 (Ptr 1 0)) = true /\
  @QImage_new eval_libs 0 0 Format_RGB888 [] = Some (QImage_null, []) /\
  QImage_of_data nullptr 1 1 4 Format_RGB888 = QImage_null.
Proof.
  pose proof (@empty_source_gives_empty eval_libs [])
    as (H1 & H2 & H3 & H4 & H5 & H6 & H7 & H8 & H9).
  split; [reflexivity|]. split; [reflexivity|].
  split; [exact (H1 QImage_null 3 eq_refl)|].
  split; [exact (H2 QImage_null eq_refl)|].
  split; [exact (H3 Mat_default Format_RGB888 eq_refl)|].
  split; [exact (H4 Mat_default eq_refl)|].
  split; [exact (H5 (mkMat CV_8UC3 0 0 0 (Ptr 1 0)) (or_introl eq_refl))|].
  split; [apply (H6 0 0 Format_RGB888); left; lia|].
  exact (H7 nullptr 1 1 4 Format_RGB888 (or_intror (or_intror eq_refl))).
Defined.

Lemma indexed_result_has_identity_palette_witness :
  Mat_ok mem_gray mat_gray /\ m_type mat_gray = CV_8UC1 /\
  (exists out m',
     @mat2Image eval_libs mat_gray Format_Indexed8 mem_gray = Some (out, m') /\
     QImage_colorTable out = identity_palette) /\
  (exists out,
     mat2Image_shared mat_gray mem_gray = Some (out, mem_gray) /\
     QImage_colorTable out = identity_palette) /\
  identity_palette !! Z.to_nat 200 = Some (qRgb 200 200 200).
Proof.
  assert (Mat_ok mem_gray mat_gray) as Hmok
    by (apply Mat_okb_ok; vm_compute; reflexivity).
  pose proof (@indexed_result_has_identity_palette eval_libs)
    as ((_ & _ & Hpal) & Hcopy & _ & Hshared).
  split; [exact Hmok|]. split; [reflexivity|]. split; [|split].
  - destruct (Hcopy mem_gray mat_gray Hmok eq_refl) as (out & m' & Hrun & _ & _ & Hct).
    exists out, m'. split; [exact Hrun|exact Hct].
  - destruct (Hshared mem_gray mat_gray Hmok eq_refl) as (out & Hrun & _ & _ & Hct).
    exists out. split; [exact Hrun|exact Hct].
  - apply (Hpal 200). lia.
Defined.

Lemma shared_views_alias_witness :
  (QImage_isNull img_rgb4 = false /\ QImage_format img_rgb4 = Format_RGB888 /\
   exists mat, image2Mat_shared img_rgb4 mem_rgb4 = Some (mat, mem_rgb4) /\
               m_data mat = QImage_bits img_rgb4) /\
  (Mat_empty mat_bgr = false /\ 0 < m_rows mat_bgr /\ 0 < m_cols mat_bgr /\
   Mat_row_bytes mat_bgr <= m_step mat_bgr /\ m_type mat_bgr = CV_8UC3 /\
   exists img, mat2Image_shared mat_bgr mem_rgb = Some (img, mem_rgb) /\
               QImage_bits img = m_data mat_bgr).
Proof.
  pose proof shared_views_alias as [Hi Hm].
  split.
  - do 2 (split; [reflexivity|]).
    destruct (Hi mem_rgb4 img_rgb4 eq_refl (or_intror (or_introl eq_refl)))
      as (mat & Hrun & Hd & _).
    exists mat. split; [exact Hrun|exact Hd].
  - assert (Mat_row_bytes mat_bgr <= m_step mat_bgr) as Hst by (vm_compute; intros [=]).
    split; [reflexivity|]. do 2 (split; [reflexivity|]). split; [exact Hst|].
    split; [reflexivity|].
    destruct (Hm mem_rgb mat_bgr eq_refl ltac:(reflexivity) ltac:(reflexivity) Hst
                (or_intror (or_introl eq_refl))) as (img & Hrun & _ & Hd & _).
    exists img. split; [exact Hrun|exact Hd].
Defined.

(** * The remaining paths of the copying conversions *)

Lemma div_pixel (c j t : Z) :
  0 <= t < c -> (j * c + t) / c = j /\ (j * c + t) mod c = t.
Proof.
  intros Ht. split.
  - symmetry. apply (Z.div_unique _ _ j t); lia.
  - symmetry. apply (Z.mod_unique _ _ j t); lia.
Qed.

Lemma pixel_of_offset (c k : Z) :
  0 < c -> k = (k / c) * c + k mod c /\ 0 <= k mod c < c.
Proof.
  intros Hc. pose proof (Z.div_mod k c ltac:(lia)).
  pose proof (Z.mod_pos_bound k c Hc). lia.
Qed.

Lemma pixel_index_range (c n k : Z) :
  0 < c -> 0 <= k < n * c -> 0 <= k / c < n.
Proof.
  intros Hc Hk. split.
  - apply Z.div_pos; lia.
  - apply Z.div_lt_upper_bound; lia.
Qed.

(** The three bytes of pixel [j] of a row of 3-byte pixels, written one
    after the other. *)
Lemma three_writes (m0 mj : mem) (dst : ptr) (j : Z) (g : Z -> uchar)
    (v0 v1 v2 : uchar) :
  updated m0 mj dst (j * 3) g -> 0 <= j ->
  (forall t, 0 <= t < 3 -> valid m0 (dst +ₚ (j * 3 + t))) ->
  g (j * 3 + 0) = v0 -> g (j * 3 + 1) = v1 -> g (j * 3 + 2) = v2 ->
  exists m1 m2 m3,
    write (dst +ₚ (j * 3 + 0)) v0 mj = Some (tt, m1) /\
    write (dst +ₚ (j * 3 + 1)) v1 m1 = Some (tt, m2) /\
    write (dst +ₚ (j * 3 + 2)) v2 m2 = Some (tt, m3) /\
    (forall q, p_block q <> p_block dst ->
               load mj q = load m0 q /\ load m1 q = load m0 q /\
               load m2 q = load m0 q) /\
    updated m0 m3 dst ((j + 1) * 3) g.
Proof.
  intros Hu Hj Hv H0 H1 H2.
  replace (j * 3 + 0) with (j * 3) in * by lia.
  destruct (updated_write_step _ _ _ _ _ v0 Hu) as (m1 & Hw1 & Hu1);
    [lia|by rewrite <- (Z.add_0_r (j * 3)); apply Hv|].
  destruct (updated_write_step _ _ _ _ _ v1 Hu1) as (m2 & Hw2 & Hu2);
    [lia|by apply Hv|].
  replace (j * 3 + 1 + 1) with (j * 3 + 2) in * by lia.
  destruct (updated_write_step _ _ _ _ _ v2 Hu2) as (m3 & Hw3 & Hu3);
    [lia|by apply Hv|].
  exists m1, m2, m3. do 3 (split; [done|]). split.
  - intros q Hq. repeat split.
    + by apply (updated_other_block _ _ _ _ _ _ Hu).
    + by apply (updated_other_block _ _ _ _ _ _ Hu1).
    + by apply (updated_other_block _ _ _ _ _ _ Hu2).
  - replace ((j + 1) * 3) with (j * 3 + 2 + 1) by lia.
    eapply updated_ext; [|exact Hu3]. intros k Hk. simpl.
    repeat case_decide; try done; try lia.
    + by replace k with (j * 3) by lia.
    + by replace k with (j * 3 + 1) by lia.
    + by replace k with (j * 3 + 2) by lia.
Qed.

(** Lines 79-80: a row of an Indexed8 image copied to one channel. *)
Lemma image2Mat_rows1_indexed8 (img image : QImage) (mat : Mat) (m : mem) :
  QImage_format image = Format_Indexed8 ->
  QImage_width img = QImage_width image ->
  QImage_ok m image ->
  p_block (QImage_bits image) <> p_block (m_data mat) ->
  m_rows mat = QImage_height image -> m_cols mat = QImage_width image ->
  m_cols mat <= m_step mat ->
  (forall i k, 0 <= i < m_rows mat -> 0 <= k < m_cols mat ->
               valid m (Mat_row_data mat i +ₚ k)) ->
  exists m', image2Mat_rows1 img image mat m = Some (tt, m') /\
    same_outside (p_block (m_data mat)) m m' /\
    forall i k, 0 <= i < m_rows mat -> 0 <= k < m_cols mat ->
      load m' (Mat_row_data mat i +ₚ k) = load m (QImage_scanLine image i +ₚ k).
Proof.
  intros Hfmt Hwid Hok Hblk Hrows Hcols Hstep Hdst.
  pose proof Hok as (_ & Hw & Hh & _ & Hv).
  destruct (QImage_row_bytes_fmt image _ Hfmt ltac:(done)) as [_ Hrb].
  change (depthForFormat Format_Indexed8 `quot` 8) with 1 in Hrb.
  unfold image2Mat_rows1. rewrite Hfmt. rewrite bool_decide_eq_true_2 by done.
  rewrite Hwid, <- Hcols.
  apply (memcpy_rows (Mat_row_data mat) (QImage_scanLine image)
           (p_block (m_data mat)) (p_off (m_data mat)) (m_step mat)).
  - lia.
  - lia.
  - apply Mat_row_data_block.
  - intros i Hi. by rewrite (proj1 (QImage_scanLine_block image i)).
  - done.
  - intros i k Hi Hk. apply Hv; lia.
Qed.

(** Line 123: a row of a 32-bit image copied to four channels. *)
Lemma image2Mat_rows4_copy (img image : QImage) (mat : Mat) (m : mem) :
  QImage_format image = Format_RGB32 \/ QImage_format image = Format_ARGB32 ->
  QImage_width img = QImage_width image ->
  QImage_ok m image ->
  p_block (QImage_bits image) <> p_block (m_data mat) ->
  m_rows mat = QImage_height image -> m_cols mat = QImage_width image ->
  m_cols mat * 4 <= m_step mat ->
  (forall i k, 0 <= i < m_rows mat -> 0 <= k < m_cols mat * 4 ->
               valid m (Mat_row_data mat i +ₚ k)) ->
  exists m', image2Mat_rows4 img image mat m = Some (tt, m') /\
    same_outside (p_block (m_data mat)) m m' /\
    forall i k, 0 <= i < m_rows mat -> 0 <= k < m_cols mat * 4 ->
      load m' (Mat_row_data mat i +ₚ k) = load m (QImage_scanLine image i +ₚ k).
Proof.
  intros Hfmt Hwid Hok Hblk Hrows Hcols Hstep Hdst.
  pose proof Hok as (_ & Hw & Hh & _ & Hv).
  assert (QImage_row_bytes image = QImage_width image * 4) as Hrb.
  { destruct Hfmt as [Hf|Hf];
      by destruct (QImage_row_bytes_fmt image _ Hf ltac:(done)) as [_ ->]. }
  unfold image2Mat_rows4.
  rewrite !bool_decide_eq_false_2 by (destruct Hfmt as [-> | ->]; done).
  rewrite Hwid, <- Hcols.
  apply (memcpy_rows (Mat_row_data mat) (QImage_scanLine image)
           (p_block (m_data mat)) (p_off (m_data mat)) (m_step mat)).
  - lia.
  - lia.
  - apply Mat_row_data_block.
  - intros i Hi. by rewrite (proj1 (QImage_scanLine_block image i)).
  - done.
  - intros i k Hi Hk. apply Hv; lia.
Qed.

(** Lines 90-94: a grey row expanded to 3 channels. *)
Lemma image2Mat_rows3_indexed8 (img image : QImage) (mat : Mat) (m : mem) :
  QImage_format image = Format_Indexed8 ->
  QImage_ok m image ->
  p_block (QImage_bits image) <> p_block (m_data mat) ->
  m_rows mat = QImage_height image -> m_cols mat = QImage_width image ->
  m_cols mat * 3 <= m_step mat ->
  (forall i k, 0 <= i < m_rows mat -> 0 <= k < m_cols mat * 3 ->
               valid m (Mat_row_data mat i +ₚ k)) ->
  exists m', image2Mat_rows3 img image mat m = Some (tt, m') /\
    same_outside (p_block (m_data mat)) m m' /\
    forall i k, 0 <= i < m_rows mat -> 0 <= k < m_cols mat * 3 ->
      load m' (Mat_row_data mat i +ₚ k) =
        Some (byte_at m (src_px image 1 i (k / 3))).
Proof.
  intros Hfmt Hok Hblk Hrows Hcols Hstep Hdst.
  pose proof Hok as (_ & Hw & Hh & _ & Hv).
  destruct (QImage_row_bytes_fmt image _ Hfmt ltac:(done)) as [_ Hrb].
  change (depthForFormat Format_Indexed8 `quot` 8) with 1 in Hrb.
  unfold image2Mat_rows3. rewrite Hfmt. rewrite bool_decide_eq_true_2 by done.
  apply (for_rows _ (Mat_row_data mat) (p_block (m_data mat)) (p_off (m_data mat))
           (m_step mat) (m_rows mat) (m_cols mat * 3)
           (fun i k => byte_at m (src_px image 1 i (k / 3)))).
  - lia.
  - lia.
  - apply Mat_row_data_block.
  - intros i mi Hi [Hso1 Hso2]. cbv beta zeta.
    apply (for_updated_tt (fun j => src_px image 1 i j) 3); [lia|lia|lia| |].
    { unfold src_px. by rewrite Z.mul_0_l, ptr_add_0. }
    intros j mj Hj Hu.
    set (p := src_px image 1 i j).
    assert (valid m p) as Hp.
    { unfold p, src_px. apply Hv; lia. }
    assert (p_block p <> p_block (m_data mat)) as Hpb.
    { unfold p, src_px. by rewrite block_scanLine. }
    destruct (three_writes mi mj (Mat_row_data mat i) j _
                (byte_at m p) (byte_at m p) (byte_at m p) Hu)
      as (m1 & m2 & m3 & Hw0 & Hw1 & Hw2 & Hfr & Hu3).
    { lia. }
    { intros t Ht. apply Hso2, Hdst; lia. }
    { cbv beta. by destruct (div_pixel 3 j 0 ltac:(lia)) as [-> _]. }
    { cbv beta. by destruct (div_pixel 3 j 1 ltac:(lia)) as [-> _]. }
    { cbv beta. by destruct (div_pixel 3 j 2 ltac:(lia)) as [-> _]. }
    destruct (Hfr p Hpb) as (Hl0 & Hl1 & Hl2).
    rewrite (Hso1 p Hpb), (load_byte_at _ _ Hp) in Hl0, Hl1, Hl2.
    exists m3. split; [|done].
    rewrite (bind_read _ _ _ _ Hl0). rewrite Mat_at_row, (bind_write _ _ _ _ _ Hw0).
    rewrite (bind_read _ _ _ _ Hl1). rewrite Mat_at_row, (bind_write _ _ _ _ _ Hw1).
    rewrite (bind_read _ _ _ _ Hl2). rewrite Mat_at_row, (bind_write _ _ _ _ _ Hw2).
    unfold ret. do 2 f_equal. unfold p, src_px. rewrite ptr_add_add. f_equal. lia.
Qed.

(** Lines 98-102: a row of 4-byte pixels reduced to 3 channels. *)
Lemma image2Mat_rows3_drop (img image : QImage) (mat : Mat) (m : mem) :
  QImage_format image = Format_RGB32 \/ QImage_format image = Format_ARGB32 ->
  QImage_ok m image ->
  p_block (QImage_bits image) <> p_block (m_data mat) ->
  m_rows mat = QImage_height image -> m_cols mat = QImage_width image ->
  m_cols mat * 3 <= m_step mat ->
  (forall i k, 0 <= i < m_rows mat -> 0 <= k < m_cols mat * 3 ->
               valid m (Mat_row_data mat i +ₚ k)) ->
  exists m', image2Mat_rows3 img image mat m = Some (tt, m') /\
    same_outside (p_block (m_data mat)) m m' /\
    forall i k, 0 <= i < m_rows mat -> 0 <= k < m_cols mat * 3 ->
      load m' (Mat_row_data mat i +ₚ k) =
        Some (byte_at m (src_px image 4 i (k / 3) +ₚ (k mod 3))).
Proof.
  intros Hfmt Hok Hblk Hrows Hcols Hstep Hdst.
  pose proof Hok as (_ & Hw & Hh & _ & Hv).
  assert (QImage_row_bytes image = QImage_width image * 4) as Hrb.
  { destruct Hfmt as [Hf|Hf];
      by destruct (QImage_row_bytes_fmt image _ Hf ltac:(done)) as [_ ->]. }
  unfold image2Mat_rows3.
  rewrite !bool_decide_eq_false_2 by (destruct Hfmt as [-> | ->]; done).
  apply (for_rows _ (Mat_row_data mat) (p_block (m_data mat)) (p_off (m_data mat))
           (m_step mat) (m_rows mat) (m_cols mat * 3)
           (fun i k => byte_at m (src_px image 4 i (k / 3) +ₚ (k mod 3)))).
  - lia.
  - lia.
  - apply Mat_row_data_block.
  - intros i mi Hi [Hso1 Hso2]. cbv beta zeta.
    apply (for_updated_tt (fun j => src_px image 4 i j) 3); [lia|lia|lia| |].
    { unfold src_px. by rewrite Z.mul_0_l, ptr_add_0. }
    intros j mj Hj Hu.
    set (p := src_px image 4 i j).
    assert (forall t, 0 <= t < 3 -> valid m (p +ₚ t)) as Hp.
    { intros t Ht. unfold p, src_px. rewrite ptr_add_add. apply Hv; lia. }
    assert (forall t, p_block (p +ₚ t) <> p_block (m_data mat)) as Hpb.
    { intros t. unfold p, src_px. rewrite ptr_add_add. by rewrite block_scanLine. }
    destruct (three_writes mi mj (Mat_row_data mat i) j _
                (byte_at m (p +ₚ 0)) (byte_at m (p +ₚ 1)) (byte_at m (p +ₚ 2)) Hu)
      as (m1 & m2 & m3 & Hw0 & Hw1 & Hw2 & Hfr & Hu3).
    { lia. }
    { intros t Ht. apply Hso2, Hdst; lia. }
    { cbv beta. by destruct (div_pixel 3 j 0 ltac:(lia)) as [-> ->]. }
    { cbv beta. by destruct (div_pixel 3 j 1 ltac:(lia)) as [-> ->]. }
    { cbv beta. by destruct (div_pixel 3 j 2 ltac:(lia)) as [-> ->]. }
    destruct (Hfr (p +ₚ 0) (Hpb 0)) as (Hl0 & _).
    destruct (Hfr (p +ₚ 1) (Hpb 1)) as (_ & Hl1 & _).
    destruct (Hfr (p +ₚ 2) (Hpb 2)) as (_ & _ & Hl2).
    rewrite (Hso1 _ (Hpb 0)), (load_byte_at _ _ (Hp 0 ltac:(lia))) in Hl0.
    rewrite (Hso1 _ (Hpb 1)), (load_byte_at _ _ (Hp 1 ltac:(lia))) in Hl1.
    rewrite (Hso1 _ (Hpb 2)), (load_byte_at _ _ (Hp 2 ltac:(lia))) in Hl2.
    exists m3. split; [|done].
    rewrite (bind_read _ _ _ _ Hl0). rewrite Mat_at_row, (bind_write _ _ _ _ _ Hw0).
    rewrite (bind_read _ _ _ _ Hl1). rewrite Mat_at_row, (bind_write _ _ _ _ _ Hw1).
    rewrite (bind_read _ _ _ _ Hl2). rewrite Mat_at_row, (bind_write _ _ _ _ _ Hw2).
    unfold ret. do 2 f_equal. unfold p, src_px. rewrite ptr_add_add. f_equal. lia.
Qed.

Lemma canonical_depth (image : QImage) :
  canonical (QImage_format image) ->
  (QImage_format image = Format_Indexed8 /\ QImage_depth image `quot` 8 = 1) \/
  (QImage_format image = Format_RGB888 /\ QImage_depth image `quot` 8 = 3) \/
  ((QImage_format image = Format_RGB32 \/ QImage_format image = Format_ARGB32) /\
   QImage_depth image `quot` 8 = 4).
Proof.
  intros [Hf|[Hf|[Hf|Hf]]];
    destruct (QImage_row_bytes_fmt image _ Hf ltac:(done)) as [Hd _];
    rewrite Hd; [left|right; left|right; right|right; right]; by auto.
Qed.

Lemma src_px_offset (image : QImage) (c i k : Z) :
  0 < c -> src_px image c i (k / c) +ₚ (k mod c) = QImage_scanLine image i +ₚ k.
Proof.
  intros Hc. unfold src_px. rewrite ptr_add_add. f_equal.
  destruct (pixel_of_offset c k Hc). lia.
Qed.

(** The loops of [image2Mat], all branches: they succeed on an image of one
    of the four formats, write nothing but the matrix, and give each byte of
    the matrix the value [image2Mat_byte]. *)
Lemma image2Mat_rows_spec (img image : QImage) (mat : Mat) (ch : Z) (m : mem) :
  ch = 1 \/ ch = 3 \/ ch = 4 ->
  canonical (QImage_format image) ->
  QImage_width img = QImage_width image ->
  QImage_ok m image ->
  p_block (QImage_bits image) <> p_block (m_data mat) ->
  m_rows mat = QImage_height image -> m_cols mat = QImage_width image ->
  m_cols mat * ch <= m_step mat ->
  (forall i k, 0 <= i < m_rows mat -> 0 <= k < m_cols mat * ch ->
               valid m (Mat_row_data mat i +ₚ k)) ->
  exists m',
    (if ch =? 1 then image2Mat_rows1 img image mat
     else if ch =? 3 then image2Mat_rows3 img image mat
     else image2Mat_rows4 img image mat) m = Some (tt, m') /\
    same_outside (p_block (m_data mat)) m m' /\
    forall i k, 0 <= i < m_rows mat -> 0 <= k < m_cols mat * ch ->
      load m' (Mat_row_data mat i +ₚ k) = Some (image2Mat_byte m image ch i k).
Proof.
  intros Hch Hcan Hwid Hok Hblk Hrows Hcols Hstep Hdst.
  pose proof Hok as (_ & Hw & Hh & _ & Hv).
  assert (forall i k, 0 <= i < m_rows mat ->
            0 <= k < QImage_width image * (QImage_depth image `quot` 8) ->
            load m (QImage_scanLine image i +ₚ k) =
            Some (byte_at m (QImage_scanLine image i +ₚ k))) as Hsrc.
  { intros i k Hi Hk. apply load_byte_at, Hv; [lia|done]. }
  destruct (canonical_depth image Hcan) as [[Hf Hs]|[[Hf Hs]|[Hf Hs]]];
    destruct Hch as [->|[->| ->]]; eval_eqb; unfold image2Mat_byte;
    rewrite Hs in *; eval_eqb.
  - (* Indexed8, 1 channel *)
    destruct (image2Mat_rows1_indexed8 img image mat m Hf Hwid Hok Hblk Hrows Hcols)
      as (m' & Hrun & Hso & Hl); [lia|intros; apply Hdst; lia|].
    exists m'. do 2 (split; [done|]). intros i k Hi Hk.
    rewrite Hl by lia. rewrite Z.div_1_r. unfold src_px.
    replace (k * 1) with k by lia. apply Hsrc; lia.
  - (* Indexed8, 3 channels *)
    destruct (image2Mat_rows3_indexed8 img image mat m Hf Hok Hblk Hrows Hcols Hstep Hdst)
      as (m' & Hrun & Hso & Hl).
    exists m'. do 2 (split; [done|]). intros i k Hi Hk. rewrite Hl by done.
    destruct (pixel_of_offset 3 k ltac:(lia)) as [_ Ht].
    by assert ((k mod 3 =? 3) = false) as -> by lia.
  - (* Indexed8, 4 channels *)
    destruct (image2Mat_rows4_indexed8 img image mat m Hf Hok Hblk Hrows Hcols Hstep Hdst)
      as (m' & Hrun & Hso & Hl).
    exists m'. do 2 (split; [done|]). intros i k Hi Hk. rewrite Hl by done.
    case_decide as E; [by rewrite E|].
    by assert ((k mod 4 =? 3) = false) as -> by lia.
  - (* RGB888, 1 channel *)
    destruct (image2Mat_rows1_gray img image mat m) as (m' & Hrun & Hso & Hl);
      try done; [by rewrite Hf|lia|lia|intros; apply Hdst; lia|].
    exists m'. do 2 (split; [done|]). intros i k Hi Hk.
    specialize (Hl i k Hi ltac:(lia)). cbv zeta in Hl. rewrite Hs in Hl.
    by rewrite Z.div_1_r.
  - (* RGB888, 3 channels *)
    destruct (image2Mat_rows3_rgb888 img image mat m Hf Hwid Hok Hblk Hrows Hcols Hstep Hdst)
      as (m' & Hrun & Hso & Hl).
    exists m'. do 2 (split; [done|]). intros i k Hi Hk. rewrite Hl by done.
    destruct (pixel_of_offset 3 k ltac:(lia)) as [_ Ht].
    assert ((k mod 3 =? 3) = false) as -> by lia. cbn [andb].
    rewrite src_px_offset by lia. apply Hsrc; lia.
  - (* RGB888, 4 channels *)
    destruct (image2Mat_rows4_rgb888 img image mat m Hf Hok Hblk Hrows Hcols Hstep Hdst)
      as (m' & Hrun & Hso & Hl).
    exists m'. do 2 (split; [done|]). intros i k Hi Hk. rewrite Hl by done.
    case_decide as E; [by rewrite E|].
    by assert ((k mod 4 =? 3) = false) as -> by lia.
  - (* 32 bits, 1 channel *)
    destruct (image2Mat_rows1_gray img image mat m) as (m' & Hrun & Hso & Hl);
      try done; [by destruct Hf as [-> | ->]|lia|lia|intros; apply Hdst; lia|].
    exists m'. do 2 (split; [done|]). intros i k Hi Hk.
    specialize (Hl i k Hi ltac:(lia)). cbv zeta in Hl. rewrite Hs in Hl.
    by rewrite Z.div_1_r.
  - (* 32 bits, 3 channels *)
    destruct (image2Mat_rows3_drop img image mat m Hf Hok Hblk Hrows Hcols Hstep Hdst)
      as (m' & Hrun & Hso & Hl).
    exists m'. do 2 (split; [done|]). intros i k Hi Hk. by rewrite Hl.
  - (* 32 bits, 4 channels *)
    destruct (image2Mat_rows4_copy img image mat m Hf Hwid Hok Hblk Hrows Hcols Hstep Hdst)
      as (m' & Hrun & Hso & Hl).
    exists m'. do 2 (split; [done|]). intros i k Hi Hk. rewrite Hl by done.
    rewrite src_px_offset by lia. apply Hsrc; lia.
Qed.

(** Lines 185-189 and 193-197: a matrix row of 1 or 4 channels written as
    the 3 bytes per pixel of an RGB888 image. *)
Lemma mat2Image_rows_RGB888_fill (mat : Mat) (out : QImage) (cn : Z) (m : mem) :
  (cn = 1 \/ cn = 4) -> m_type mat = CV_8UC cn ->
  0 < m_rows mat -> 0 < m_cols mat ->
  (forall i k, 0 <= i < m_rows mat -> 0 <= k < m_cols mat * cn ->
               valid m (Mat_row_data mat i +ₚ k)) ->
  p_block (m_data mat) <> p_block (QImage_bits out) ->
  m_cols mat * 3 <= QImage_bytesPerLine out ->
  (forall i k, 0 <= i < m_rows mat -> 0 <= k < m_cols mat * 3 ->
               valid m (QImage_scanLine out i +ₚ k)) ->
  exists m', mat2Image_rows_RGB888 mat out m = Some (tt, m') /\
    same_outside (p_block (QImage_bits out)) m m' /\
    forall i k, 0 <= i < m_rows mat -> 0 <= k < m_cols mat * 3 ->
      load m' (QImage_scanLine out i +ₚ k) =
        Some (byte_at m (Mat_at mat cn i (k / 3)
                           (if decide (cn = 1) then 0 else k mod 3))).
Proof.
  intros Hcn Htype Hr Hc Hsrc Hblk Hstep Hdst.
  unfold mat2Image_rows_RGB888. rewrite Htype.
  apply (for_rows _ (QImage_scanLine out) (p_block (QImage_bits out))
           (p_off (QImage_bits out)) (QImage_bytesPerLine out)
           (m_rows mat) (m_cols mat * 3)
           (fun i k => byte_at m (Mat_at mat cn i (k / 3)
                                    (if decide (cn = 1) then 0 else k mod 3)))).
  - lia.
  - lia.
  - apply QImage_scanLine_block.
  - intros i mi Hi [Hso1 Hso2]. cbv beta zeta.
    set (dst := QImage_scanLine out i).
    assert (p_block dst = p_block (QImage_bits out)) as Hdb
      by apply QImage_scanLine_block.
    assert (forall j c, 0 <= j < m_cols mat -> 0 <= c < cn ->
              valid m (Mat_at mat cn i j c) /\
              p_block (Mat_at mat cn i j c) <> p_block (QImage_bits out) /\
              p_block (Mat_at mat cn i j c) <> p_block dst) as Hpx.
    { intros j c Hj Hc'. rewrite Hdb. split; [|done].
      rewrite Mat_at_row. apply Hsrc; [done|nia]. }
    assert (forall j, dst +ₚ j * 3 = dst +ₚ (j * 3 + 0)) as E0
      by (intros; f_equal; lia).
    destruct Hcn as [-> | ->]; eval_eqb.
    + apply (for_updated_tt (fun j => dst +ₚ (j * 3)) 3); [lia|lia|lia| |].
      { by rewrite Z.mul_0_l, ptr_add_0. }
      intros j mj Hj Hu.
      destruct (Hpx j 0 Hj ltac:(lia)) as (Hp & Hpb & Hpd).
      destruct (three_writes mi mj dst j _
                  (byte_at m (Mat_at mat 1 i j 0)) (byte_at m (Mat_at mat 1 i j 0))
                  (byte_at m (Mat_at mat 1 i j 0)) Hu)
        as (m1 & m2 & m3 & Hw0 & Hw1 & Hw2 & Hfr & Hu3).
      { lia. }
      { intros t Ht. apply Hso2, Hdst; lia. }
      { cbv beta. destruct (div_pixel 3 j 0 ltac:(lia)) as [-> ->]. by rewrite decide_True. }
      { cbv beta. destruct (div_pixel 3 j 1 ltac:(lia)) as [-> ->]. by rewrite decide_True. }
      { cbv beta. destruct (div_pixel 3 j 2 ltac:(lia)) as [-> ->]. by rewrite decide_True. }
      destruct (Hfr _ Hpd) as (Hl0 & Hl1 & Hl2).
      rewrite (Hso1 _ Hpb), (load_byte_at _ _ Hp) in Hl0, Hl1, Hl2.
      exists m3. split; [|done].
      rewrite (bind_read _ _ _ _ Hl0). rewrite E0, (bind_put _ _ _ _ _ Hw0).
      rewrite (bind_read _ _ _ _ Hl1). rewrite ptr_add_add.
      replace (j * 3 + 0 + 1) with (j * 3 + 1) by lia.
      rewrite (bind_put _ _ _ _ _ Hw1).
      rewrite (bind_read _ _ _ _ Hl2). rewrite ptr_add_add.
      replace (j * 3 + 1 + 1) with (j * 3 + 2) by lia.
      rewrite (put_write _ _ _ _ Hw2). do 2 f_equal.
      rewrite ptr_add_add. f_equal. lia.
    + apply (for_updated_tt (fun j => dst +ₚ (j * 3)) 3); [lia|lia|lia| |].
      { by rewrite Z.mul_0_l, ptr_add_0. }
      intros j mj Hj Hu.
      destruct (Hpx j 0 Hj ltac:(lia)) as (Hp0 & Hpb0 & Hpd0).
      destruct (Hpx j 1 Hj ltac:(lia)) as (Hp1 & Hpb1 & Hpd1).
      destruct (Hpx j 2 Hj ltac:(lia)) as (Hp2 & Hpb2 & Hpd2).
      destruct (three_writes mi mj dst j _
                  (byte_at m (Mat_at mat 4 i j 0)) (byte_at m (Mat_at mat 4 i j 1))
                  (byte_at m (Mat_at mat 4 i j 2)) Hu)
        as (m1 & m2 & m3 & Hw0 & Hw1 & Hw2 & Hfr & Hu3).
      { lia. }
      { intros t Ht. apply Hso2, Hdst; lia. }
      { cbv beta. destruct (div_pixel 3 j 0 ltac:(lia)) as [-> ->]. by rewrite decide_False. }
      { cbv beta. destruct (div_pixel 3 j 1 ltac:(lia)) as [-> ->]. by rewrite decide_False. }
      { cbv beta. destruct (div_pixel 3 j 2 ltac:(lia)) as [-> ->]. by rewrite decide_False. }
      destruct (Hfr _ Hpd0) as (Hl0 & _).
      destruct (Hfr _ Hpd1) as (_ & Hl1 & _).
      destruct (Hfr _ Hpd2) as (_ & _ & Hl2).
      rewrite (Hso1 _ Hpb0), (load_byte_at _ _ Hp0) in Hl0.
      rewrite (Hso1 _ Hpb1), (load_byte_at _ _ Hp1) in Hl1.
      rewrite (Hso1 _ Hpb2), (load_byte_at _ _ Hp2) in Hl2.
      exists m3. split; [|done].
      rewrite (bind_read _ _ _ _ Hl0). rewrite E0, (bind_put _ _ _ _ _ Hw0).
      rewrite (bind_read _ _ _ _ Hl1). rewrite ptr_add_add.
      replace (j * 3 + 0 + 1) with (j * 3 + 1) by lia.
      rewrite (bind_put _ _ _ _ _ Hw1).
      rewrite (bind_read _ _ _ _ Hl2). rewrite ptr_add_add.
      replace (j * 3 + 1 + 1) with (j * 3 + 2) by lia.
      rewrite (put_write _ _ _ _ Hw2). do 2 f_equal.
      rewrite ptr_add_add. f_equal. lia.
Qed.

(** Lines 177, 191 and 215: a matrix row copied to the row of an image of
    as many bytes per pixel as the matrix has channels. *)
Lemma mat2Image_rows_copy (mat : Mat) (out : QImage) (cn : Z) (m : mem) :
  cn = 1 \/ cn = 3 \/ cn = 4 -> m_type mat = CV_8UC cn ->
  0 < m_rows mat -> 0 < m_cols mat ->
  (forall i k, 0 <= i < m_rows mat -> 0 <= k < m_cols mat * cn ->
               valid m (Mat_row_data mat i +ₚ k)) ->
  p_block (m_data mat) <> p_block (QImage_bits out) ->
  m_cols mat * cn <= QImage_bytesPerLine out ->
  (forall i k, 0 <= i < m_rows mat -> 0 <= k < m_cols mat * cn ->
               valid m (QImage_scanLine out i +ₚ k)) ->
  exists m',
    (if cn =? 1 then mat2Image_rows_Indexed8 mat out
     else if cn =? 3 then mat2Image_rows_RGB888 mat out
     else mat2Image_rows_RGB32 mat out) m = Some (tt, m') /\
    same_outside (p_block (QImage_bits out)) m m' /\
    forall i k, 0 <= i < m_rows mat -> 0 <= k < m_cols mat * cn ->
      load m' (QImage_scanLine out i +ₚ k) = load m (Mat_row_data mat i +ₚ k).
Proof.
  intros Hcn Htype Hr Hc Hsrc Hblk Hstep Hdst.
  assert (exists m',
            for_ (m_rows mat)
              (fun i (_ : unit) =>
                 memcpy (QImage_scanLine out i) (Mat_row_data mat i) (m_cols mat * cn))
              tt m = Some (tt, m') /\
            same_outside (p_block (QImage_bits out)) m m' /\
            forall i k, 0 <= i < m_rows mat -> 0 <= k < m_cols mat * cn ->
              load m' (QImage_scanLine out i +ₚ k) = load m (Mat_row_data mat i +ₚ k))
    as Hcopy.
  { apply (memcpy_rows (QImage_scanLine out) (Mat_row_data mat)
             (p_block (QImage_bits out)) (p_off (QImage_bits out))
             (QImage_bytesPerLine out)); try done; try lia.
    apply QImage_scanLine_block. }
  destruct Hcn as [->|[->| ->]]; eval_eqb.
  - destruct Hcopy as (m' & Hf & Hso & Hl). exists m'.
    split; [|done]. unfold mat2Image_rows_Indexed8.
    by rewrite Z.mul_1_r in Hf.
  - unfold mat2Image_rows_RGB888. rewrite Htype. by eval_eqb.
  - unfold mat2Image_rows_RGB32. rewrite Htype. by eval_eqb.
Qed.

Lemma block_src_px (image : QImage) (s i j : Z) :
  p_block (src_px image s i j) = p_block (QImage_bits image).
Proof. unfold src_px. apply block_scanLine. Qed.

Lemma block_src_px_add (image : QImage) (s i j t : Z) :
  p_block (src_px image s i j +ₚ t) = p_block (QImage_bits image).
Proof. unfold src_px. rewrite ptr_add_add. apply block_scanLine. Qed.

Lemma image2Mat_byte_frame (m1 m2 : mem) (image : QImage) (ch i k : Z) :
  (forall q, p_block q = p_block (QImage_bits image) -> load m2 q = load m1 q) ->
  image2Mat_byte m2 image ch i k = image2Mat_byte m1 image ch i k.
Proof.
  intros Hframe.
  assert (forall p, p_block p = p_block (QImage_bits image) ->
                    byte_at m2 p = byte_at m1 p) as Hb.
  { intros p Hp. unfold byte_at. by rewrite Hframe. }
  unfold image2Mat_byte. cbv zeta.
  rewrite (Hb (src_px _ _ _ _)) by apply block_src_px.
  rewrite !(Hb (src_px _ _ _ _ +ₚ _)) by apply block_src_px_add.
  done.
Qed.

Lemma mat2Image_byte_frame (m1 m2 : mem) (mat : Mat) (cn bpp i k : Z) :
  (forall q, p_block q = p_block (m_data mat) -> load m2 q = load m1 q) ->
  mat2Image_byte m2 mat cn bpp i k = mat2Image_byte m1 mat cn bpp i k.
Proof.
  intros Hframe. unfold mat2Image_byte, byte_at. cbv zeta.
  by rewrite Hframe.
Qed.

Section Specs.
Context `{Libs}.

(** [image2Mat] on an image of one of the four formats, for 1, 3 or 4
    destination channels: the result, its storage and its bytes. *)
Lemma image2Mat_spec (img image : QImage) (ch : Z) (m m1 : mem) :
  ch = 1 \/ ch = 3 \/ ch = 4 ->
  QImage_isNull img = false ->
  normalize img m = Some (image, m1) ->
  QImage_ok m1 image ->
  canonical (QImage_format image) ->
  QImage_width img = QImage_width image ->
  let b := Datatypes.S (length m1) in
  let mat := mkMat (CV_8UC ch) (QImage_height image) (QImage_width image)
               (QImage_width image * ch) (Ptr b 0) in
  exists m',
    image2Mat img ch m = Some (mat, m') /\
    Mat_ok m' mat /\
    (forall q, p_block q <> b -> load m' q = load m1 q) /\
    forall i k, 0 <= i < QImage_height image -> 0 <= k < QImage_width image * ch ->
      load m' (Mat_row_data mat i +ₚ k) = Some (image2Mat_byte m1 image ch i k).
Proof.
  intros Hch Hnull Hnorm Hok Hcan Hwid.
  pose proof Hok as (_ & Hw & Hh & _ & Hv).
  destruct (image2Mat_run img image ch m m1 Hch Hnull Hnorm Hw Hh)
    as (m2 & Hframe & Hvalid & Hrun).
  cbv zeta in *. set (b := Datatypes.S (length m1)) in *.
  set (mat := mkMat _ _ _ _ _) in *.
  assert (0 < QImage_row_bytes image) as Hrb.
  { unfold QImage_row_bytes.
    destruct (canonical_depth image Hcan) as [[_ ->]|[[_ ->]|[_ ->]]]; lia. }
  assert (p_block (QImage_bits image) <> b) as Hblk.
  { pose proof (QImage_ok_block _ _ Hok Hrb). unfold b. lia. }
  pose proof (same_outside_ok_image b m1 m2 image Hframe Hblk Hok) as Hok2.
  destruct (image2Mat_rows_spec img image mat ch m2 Hch Hcan Hwid Hok2)
    as (m' & Hrows & [Hso1 Hso2] & Hl); try done.
  exists m'. split; [|split; [|split]].
  - rewrite Hrun.
    destruct Hch as [->|[->| ->]]; eval_eqb; cbn [Z.eqb Pos.eqb] in Hrows;
      by rewrite Hrows.
  - assert (Mat_row_bytes mat = m_cols mat * ch) as Hmb.
    { unfold Mat_row_bytes. simpl. by rewrite (CV_ELEM_SIZE_8UC ch Hch). }
    split; [done|]. split; [done|]. rewrite Hmb. split; [simpl; lia|].
    intros i k Hi Hk. by apply Hso2, Hvalid.
  - intros q Hq. rewrite Hso1 by done. by apply Hframe.
  - intros i k Hi Hk. rewrite Hl by done. f_equal.
    apply image2Mat_byte_frame. intros q Hq. apply Hframe. congruence.
Qed.

(** The automatic channel count: [mat_channels = 0] stands for the bytes
    per pixel of the image that is read. *)
Lemma image2Mat_auto (img image : QImage) (m m1 : mem) :
  QImage_isNull img = false ->
  normalize img m = Some (image, m1) ->
  canonical (QImage_format image) ->
  image2Mat img 0 m = image2Mat img (QImage_depth image `quot` 8) m /\
  (QImage_depth image `quot` 8 = 1 \/ QImage_depth image `quot` 8 = 3 \/
   QImage_depth image `quot` 8 = 4).
Proof.
  intros Hnull Hnorm Hcan.
  assert (QImage_depth image `quot` 8 = 1 \/ QImage_depth image `quot` 8 = 3 \/
          QImage_depth image `quot` 8 = 4) as Hs.
  { destruct (canonical_depth image Hcan) as [[_ ->]|[[_ ->]|[_ ->]]]; lia. }
  split; [|done]. unfold image2Mat. rewrite Hnull.
  assert (bool_decide (QImage_depth image `quot` 8 <> 0)
          && bool_decide (QImage_depth image `quot` 8 <> 1)
          && bool_decide (QImage_depth image `quot` 8 <> 3)
          && bool_decide (QImage_depth image `quot` 8 <> 4) = false) as ->.
  { by destruct Hs as [->|[->| ->]]. }
  assert (bool_decide (0 <> 0) && bool_decide (0 <> 1) && bool_decide (0 <> 3)
          && bool_decide (0 <> 4) = false) as -> by done.
  unfold bind. rewrite Hnorm.
  change (0 =? 0) with true. cbv iota.
  by assert ((QImage_depth image `quot` 8 =? 0) = false) as -> by lia.
Qed.

End Specs.

Lemma Mat_at_offset (mat : Mat) (c i k : Z) :
  0 < c -> Mat_at mat c i (k / c) (k mod c) = Mat_row_data mat i +ₚ k.
Proof.
  intros Hc. rewrite Mat_at_row. f_equal.
  destruct (pixel_of_offset c k Hc). lia.
Qed.

(** The loops of [mat2Image], all branches on an 8-bit matrix of 1, 3 or 4
    channels: they succeed, write nothing but the image, and give each
    byte of a row of pixels the value [mat2Image_byte]. *)
Lemma mat2Image_rows_spec (mat : Mat) (out : QImage) (cn bpp : Z) (m : mem) :
  cn = 1 \/ cn = 3 \/ cn = 4 ->
  bpp = 4 \/ bpp = 3 \/ (bpp = 1 /\ cn = 1) ->
  m_type mat = CV_8UC cn ->
  0 < m_rows mat -> 0 < m_cols mat ->
  (forall i k, 0 <= i < m_rows mat -> 0 <= k < m_cols mat * cn ->
               valid m (Mat_row_data mat i +ₚ k)) ->
  p_block (m_data mat) <> p_block (QImage_bits out) ->
  m_cols mat * bpp <= QImage_bytesPerLine out ->
  (forall i k, 0 <= i < m_rows mat -> 0 <= k < m_cols mat * bpp ->
               valid m (QImage_scanLine out i +ₚ k)) ->
  exists m',
    (if bpp =? 4 then mat2Image_rows_RGB32 mat out
     else if bpp =? 3 then mat2Image_rows_RGB888 mat out
     else mat2Image_rows_Indexed8 mat out) m = Some (tt, m') /\
    same_outside (p_block (QImage_bits out)) m m' /\
    forall i k, 0 <= i < m_rows mat -> 0 <= k < m_cols mat * bpp ->
      load m' (QImage_scanLine out i +ₚ k) = Some (mat2Image_byte m mat cn bpp i k).
Proof.
  intros Hcn Hbpp Htype Hr Hc Hsrc Hblk Hstep Hdst.
  assert (forall i k, 0 <= i < m_rows mat -> 0 <= k < m_cols mat * cn ->
            load m (Mat_row_data mat i +ₚ k) =
            Some (byte_at m (Mat_row_data mat i +ₚ k))) as Hld.
  { intros i k Hi Hk. by apply load_byte_at, Hsrc. }
  unfold mat2Image_byte.
  destruct Hbpp as [->|[->|[-> ->]]]; [destruct Hcn as [->|[->| ->]]
                                      |destruct Hcn as [->|[->| ->]]|]; eval_eqb.
  - (* RGB32 from 1 channel *)
    destruct (mat2Image_rows_RGB32_fill mat out 1 m) as (m' & Hrun & Hso & Hl);
      try done; [by left|].
    exists m'. do 2 (split; [done|]). intros i k Hi Hk. rewrite Hl by done.
    cbv zeta. cbn [andb negb]. rewrite andb_true_r.
    destruct (decide (k mod 4 = 3)) as [E|E].
    + by assert ((k mod 4 =? 3) = true) as -> by lia.
    + by assert ((k mod 4 =? 3) = false) as -> by lia.
  - (* RGB32 from 3 channels *)
    destruct (mat2Image_rows_RGB32_fill mat out 3 m) as (m' & Hrun & Hso & Hl);
      try done; [by right|].
    exists m'. do 2 (split; [done|]). intros i k Hi Hk. rewrite Hl by done.
    cbv zeta. cbn [andb negb]. rewrite andb_true_r.
    destruct (decide (k mod 4 = 3)) as [E|E].
    + by assert ((k mod 4 =? 3) = true) as -> by lia.
    + by assert ((k mod 4 =? 3) = false) as -> by lia.
  - (* RGB32 from 4 channels *)
    destruct (mat2Image_rows_copy mat out 4 m) as (m' & Hrun & Hso & Hl);
      try done; [by right; right|].
    exists m'. split; [exact Hrun|]. split; [done|]. intros i k Hi Hk.
    rewrite Hl by done. cbv zeta. rewrite andb_false_r.
    rewrite Mat_at_offset by lia. by apply Hld.
  - (* RGB888 from 1 channel *)
    destruct (mat2Image_rows_RGB888_fill mat out 1 m) as (m' & Hrun & Hso & Hl);
      try done; [by left|].
    exists m'. do 2 (split; [done|]). intros i k Hi Hk. rewrite Hl by done.
    by rewrite decide_True.
  - (* RGB888 from 3 channels *)
    destruct (mat2Image_rows_copy mat out 3 m) as (m' & Hrun & Hso & Hl);
      try done; [by right; left|].
    exists m'. split; [exact Hrun|]. split; [done|]. intros i k Hi Hk.
    rewrite Hl by done. cbv zeta. cbn [andb].
    rewrite Mat_at_offset by lia. by apply Hld.
  - (* RGB888 from 4 channels *)
    destruct (mat2Image_rows_RGB888_fill mat out 4 m) as (m' & Hrun & Hso & Hl);
      try done; [by right|].
    exists m'. do 2 (split; [done|]). intros i k Hi Hk. rewrite Hl by done.
    by rewrite decide_False.
  - (* Indexed8 from 1 channel *)
    destruct (mat2Image_rows_copy mat out 1 m) as (m' & Hrun & Hso & Hl);
      try done.
    exists m'. split; [exact Hrun|]. split; [done|]. intros i k Hi Hk.
    rewrite Hl by done. cbv zeta. cbn [andb]. rewrite Z.div_1_r.
    rewrite Mat_at_row. replace (k * 1 + 0) with k by lia. by apply Hld.
Qed.

Section Mat2ImageSpec.
Context `{Libs}.

(** [mat2Image] to Indexed8 up to its loop, for an 8-bit matrix that is
    not handed to [cvtColor]. *)
Lemma mat2Image_run_indexed8 (mat : Mat) (m : mem) :
  Mat_ok m mat -> 0 < Mat_row_bytes mat -> Mat_depth mat = CV_8U ->
  m_type mat <> CV_8UC3 -> m_type mat <> CV_8UC4 ->
  let b := Datatypes.S (length m) in
  let bpl := scanline_bytes (m_cols mat) 8 in
  let out := Some (mkQImageData (m_cols mat) (m_rows mat) Format_Indexed8 bpl
                     (Ptr b 0) gray_color_table) in
  exists m2,
    (forall q, p_block q <> b -> load m2 q = load m q) /\
    (forall i k, 0 <= i < m_rows mat -> 0 <= k < bpl ->
                 valid m2 (QImage_scanLine out i +ₚ k)) /\
    mat2Image mat Format_Indexed8 m =
      match mat2Image_rows_Indexed8 mat out m2 with
      | Some (_, m') => Some (out, m')
      | None => None
      end.
Proof.
  intros Hok Hrb Hdepth H3 H4 b bpl out.
  pose proof Hok as (Hr & Hc & _).
  destruct (QImage_new_spec (m_cols mat) (m_rows mat) Format_Indexed8 m Hc Hr)
    as (m2 & Hnew & Hframe & Hvalid & _); [done|].
  cbv zeta in Hnew, Hframe, Hvalid.
  change (depthForFormat Format_Indexed8) with 8 in *.
  fold b bpl in Hnew, Hframe, Hvalid.
  assert (0 <= bpl) as Hbpl by (apply scanline_bytes_nonneg; lia).
  exists m2. split; [done|]. split.
  - intros i k Hi Hk. simpl. rewrite ptr_add_add. apply Hvalid. nia.
  - unfold mat2Image. rewrite (Mat_ok_not_empty m mat Hok Hrb).
    unfold to_8bit. rewrite Hdepth. rewrite Z.eqb_refl.
    unfold bind at 1. unfold ret at 1.
    rewrite !bool_decide_eq_false_2 by done.
    rewrite bool_decide_eq_true_2 by done.
    assert ((m_type mat =? CV_8UC3) = false) as -> by lia.
    assert ((m_type mat =? CV_8UC4) = false) as -> by lia.
    unfold bind at 1. unfold ret at 1.
    unfold bind at 1. rewrite Hnew. cbv zeta.
    unfold QImage_setColorTable; simpl qd_width; simpl qd_height;
      simpl qd_format; simpl qd_bytes_per_line; simpl qd_data.
    fold out. unfold bind.
    by destruct (mat2Image_rows_Indexed8 mat out m2) as [[[] ?]|].
Qed.

(** [mat2Image] on an 8-bit matrix of 1, 3 or 4 channels, to RGB32 or
    RGB888, and on one channel to Indexed8: the result, its storage and
    its bytes. *)
Lemma mat2Image_spec (mat : Mat) (fmt : Format) (cn : Z) (m : mem) :
  Mat_ok m mat -> m_type mat = CV_8UC cn ->
  cn = 1 \/ cn = 3 \/ cn = 4 ->
  fmt = Format_RGB32 \/ fmt = Format_RGB888 \/ (fmt = Format_Indexed8 /\ cn = 1) ->
  let b := Datatypes.S (length m) in
  let bpp := bytes_per_pixel fmt in
  let out := Some (mkQImageData (m_cols mat) (m_rows mat) fmt
                     (scanline_bytes (m_cols mat) (depthForFormat fmt)) (Ptr b 0)
                     (if bool_decide (fmt = Format_Indexed8)
                      then gray_color_table else [])) in
  exists m',
    mat2Image mat fmt m = Some (out, m') /\
    QImage_ok m' out /\
    (forall q, p_block q <> b -> load m' q = load m q) /\
    forall i k, 0 <= i < m_rows mat -> 0 <= k < m_cols mat * bpp ->
      load m' (QImage_scanLine out i +ₚ k) = Some (mat2Image_byte m mat cn bpp i k).
Proof.
  intros Hok Htype Hcn Hfmt b bpp out.
  pose proof Hok as (Hr & Hc & Hst & Hv).
  assert (Mat_row_bytes mat = m_cols mat * cn) as Hrb.
  { unfold Mat_row_bytes. by rewrite Htype, (CV_ELEM_SIZE_8UC cn Hcn). }
  rewrite Hrb in Hst, Hv.
  assert (0 < Mat_row_bytes mat) as Hpos by (rewrite Hrb; nia).
  assert (Mat_depth mat = CV_8U) as Hdepth.
  { unfold Mat_depth. rewrite Htype. by destruct Hcn as [->|[->| ->]]. }
  assert (bpp = 4 \/ bpp = 3 \/ (bpp = 1 /\ cn = 1)) as Hbpp.
  { unfold bpp. destruct Hfmt as [->|[->|[-> ->]]]; auto. }
  assert (depthForFormat fmt = 8 * bpp) as Hd.
  { unfold bpp. by destruct Hfmt as [->|[->|[-> ->]]]. }
  assert (p_block (m_data mat) <> b) as Hblk.
  { pose proof (Mat_ok_block _ _ Hok Hpos). unfold b. lia. }
  assert (m_cols mat * bpp <= scanline_bytes (m_cols mat) (depthForFormat fmt))
    as Hge.
  { rewrite Hd. apply scanline_bytes_ge; lia. }
  assert (exists m2,
    (forall q, p_block q <> b -> load m2 q = load m q) /\
    (forall i k, 0 <= i < m_rows mat ->
                 0 <= k < scanline_bytes (m_cols mat) (depthForFormat fmt) ->
                 valid m2 (QImage_scanLine out i +ₚ k)) /\
    mat2Image mat fmt m =
      match (if bpp =? 4 then mat2Image_rows_RGB32 mat out
             else if bpp =? 3 then mat2Image_rows_RGB888 mat out
             else mat2Image_rows_Indexed8 mat out) m2 with
      | Some (_, m') => Some (out, m')
      | None => None
      end) as (m2 & Hframe & Hvalid & Hrun).
  { unfold bpp, out. destruct Hfmt as [->|[->|[-> ->]]].
    - destruct (mat2Image_run mat Format_RGB32 m Hok Hpos Hdepth) as (m2 & ?);
        [by left|]. by exists m2.
    - destruct (mat2Image_run mat Format_RGB888 m Hok Hpos Hdepth) as (m2 & ?);
        [by right|]. by exists m2.
    - destruct (mat2Image_run_indexed8 mat m Hok Hpos Hdepth) as (m2 & ?);
        [by rewrite Htype|by rewrite Htype|]. by exists m2. }
  destruct (mat2Image_rows_spec mat out cn bpp m2 Hcn Hbpp Htype Hr Hc)
    as (m' & Hrows & [Hso1 Hso2] & Hl).
  - intros i k Hi Hk. unfold valid. rewrite Hframe by done. by apply Hv.
  - done.
  - done.
  - intros i k Hi Hk. apply Hvalid; [done|lia].
  - exists m'. split; [by rewrite Hrun, Hrows|]. split; [|split].
    + split; [done|]. split; [done|]. split; [done|].
      assert (QImage_row_bytes out = m_cols mat * bpp) as Hor.
      { unfold QImage_row_bytes. simpl. rewrite Hd.
        replace (8 * bpp) with (bpp * 8) by lia. by rewrite Z.quot_mul. }
      rewrite Hor. split; [done|].
      intros i k Hi Hk. apply Hso2, Hvalid; [done|lia].
    + intros q Hq. rewrite Hso1 by done. by apply Hframe.
    + intros i k Hi Hk. rewrite Hl by done. f_equal.
      apply mat2Image_byte_frame. intros q Hq. apply Hframe. congruence.
Qed.

End Mat2ImageSpec.

(** * Further properties of the conversions *)

Lemma normalize_canon `{Libs} (img : QImage) (m : mem) :
  canonical (QImage_format img) -> normalize img m = Some (img, m).
Proof. intros Hc. apply normalize_canonical. unfold canonical in Hc. tauto. Qed.

(** With as many channels as the image has bytes per pixel, the byte of the
    matrix is the byte of the image at the same offset of the row. *)
Lemma image2Mat_byte_same (m : mem) (image : QImage) (i k : Z) :
  canonical (QImage_format image) -> 0 <= k ->
  image2Mat_byte m image (QImage_depth image `quot` 8) i k =
    byte_at m (QImage_scanLine image i +ₚ k).
Proof.
  intros Hcan Hk. unfold image2Mat_byte. cbv zeta.
  destruct (canonical_depth image Hcan) as [[_ ->]|[[_ ->]|[_ ->]]].
  - change (1 =? 1) with true. cbv iota. unfold src_px.
    rewrite Z.div_1_r. by rewrite Z.mul_1_r.
  - change (3 =? 1) with false. change (3 =? 3) with true. cbv iota.
    destruct (pixel_of_offset 3 k ltac:(lia)) as [_ Hr].
    assert ((k mod 3 =? 3) = false) as -> by lia. cbn [andb].
    by rewrite src_px_offset.
  - change (4 =? 1) with false. change (4 =? 3) with false. cbv iota.
    cbn [andb]. by rewrite src_px_offset.
Qed.

(** The luminance of a grey pixel: one less than the grey, black apart. *)
Lemma gray_of_diag (g : uchar) :
  uchar_val (gray_of g g g) = if uchar_val g =? 0 then 0 else uchar_val g - 1.
Proof.
  rewrite gray_of_luma. unfold luma. pose proof (uchar_val_range g) as Hg.
  destruct (uchar_val g =? 0) eqn:E.
  - apply Z.eqb_eq in E. by rewrite E.
  - apply Z.eqb_neq in E. symmetry.
    apply (Z.div_unique _ _ _ (32768 - 4 * uchar_val g)); lia.
Qed.

(** A loop whose body does nothing. *)
Lemma for_skip (n : Z) (m : mem) :
  for_ n (fun (_ : Z) (_ : unit) => ret tt) tt m = Some (tt, m).
Proof.
  unfold for_. generalize 0. induction (Z.to_nat n) as [|fuel IH]; intros i.
  - done.
  - simpl. unfold bind, ret at 1. apply IH.
Qed.

Section Image2MatFacts.
Context `{Libs}.

(** [image2Mat] on an image of one of the four formats whose rows lie in
    the store, for every accepted channel count. *)
Lemma image2Mat_ok_spec (img : QImage) (ch : Z) (m : mem) :
  QImage_ok m img -> canonical (QImage_format img) ->
  ch = 0 \/ ch = 1 \/ ch = 3 \/ ch = 4 ->
  let c := if ch =? 0 then QImage_depth img `quot` 8 else ch in
  let b := Datatypes.S (length m) in
  let mat := mkMat (CV_8UC c) (QImage_height img) (QImage_width img)
               (QImage_width img * c) (Ptr b 0) in
  (c = 1 \/ c = 3 \/ c = 4) /\
  exists m',
    image2Mat img ch m = Some (mat, m') /\ Mat_ok m' mat /\
    (forall q, p_block q <> b -> load m' q = load m q) /\
    forall i k, 0 <= i < QImage_height img -> 0 <= k < QImage_width img * c ->
      load m' (Mat_row_data mat i +ₚ k) = Some (image2Mat_byte m img c i k).
Proof.
  intros Hok Hcan Hch c b mat.
  assert (QImage_isNull img = false) as Hnull by apply Hok.
  pose proof (normalize_canon img m Hcan) as Hnorm.
  destruct (image2Mat_auto img img m m Hnull Hnorm Hcan) as [Hauto Hs].
  assert (c = 1 \/ c = 3 \/ c = 4) as Hc.
  { unfold c. destruct Hch as [->|[->|[->| ->]]]; auto. }
  split; [done|].
  assert (image2Mat img ch m = image2Mat img c m) as ->.
  { unfold c. destruct Hch as [->|[->|[->| ->]]]; done. }
  exact (image2Mat_spec img img c m m Hc Hnull Hnorm Hok Hcan eq_refl).
Qed.

End Image2MatFacts.

Section Image2MatProperties.
Context `{Libs}.

(** X1: on an image of one of the four formats read directly, [image2Mat]
    always returns, and its result is the empty matrix exactly when the
    channel count asked for is none of 0, 1, 3 and 4; in that case the
    result is [cv::Mat()] and the store is left as it was. *)
Theorem image2Mat_empty_iff_bad_channels (m : mem) (img : QImage) (ch : Z) :
  QImage_ok m img -> canonical (QImage_format img) ->
  exists mat m',
    image2Mat img ch m = Some (mat, m') /\
    (Mat_empty mat = true <-> ~ (ch = 0 \/ ch = 1 \/ ch = 3 \/ ch = 4)) /\
    (~ (ch = 0 \/ ch = 1 \/ ch = 3 \/ ch = 4) -> mat = Mat_default /\ m' = m).
Proof.
  intros Hok Hcan.
  destruct (decide (ch = 0 \/ ch = 1 \/ ch = 3 \/ ch = 4)) as [Hch|Hch].
  - destruct (image2Mat_ok_spec img ch m Hok Hcan Hch)
      as (Hc & m' & Hrun & Hmok & _).
    eexists _, m'. split; [exact Hrun|]. split; [|tauto].
    split; [|tauto]. intros He.
    rewrite (Mat_ok_not_empty m' _ Hmok) in He; [done|].
    unfold Mat_row_bytes. cbn [m_cols m_type].
    rewrite (CV_ELEM_SIZE_8UC _ Hc). destruct Hok as (_ & Hw & _). nia.
  - exists Mat_default, m. split.
    + unfold image2Mat. by rewrite !bool_decide_eq_true_2 by lia.
    + done.
Qed.

(** X2: for every accepted channel count, [image2Mat] on an image of one
    of the four formats whose rows lie in the store runs without an access
    out of bounds and returns a non-empty 8-bit matrix of the height and
    width of the image, with the channels asked for (the bytes per pixel of
    the image for 0), whose rows lie in the resulting store. *)
Theorem image2Mat_result_shape (m : mem) (img : QImage) (ch : Z) :
  QImage_ok m img -> canonical (QImage_format img) ->
  ch = 0 \/ ch = 1 \/ ch = 3 \/ ch = 4 ->
  exists mat m',
    image2Mat img ch m = Some (mat, m') /\
    m_rows mat = QImage_height img /\ m_cols mat = QImage_width img /\
    Mat_depth mat = CV_8U /\
    Mat_channels mat = (if ch =? 0 then QImage_depth img `quot` 8 else ch) /\
    Mat_ok m' mat /\ Mat_empty mat = false.
Proof.
  intros Hok Hcan Hch.
  destruct (image2Mat_ok_spec img ch m Hok Hcan Hch)
    as (Hc & m' & Hrun & Hmok & _).
  eexists _, m'. split; [exact Hrun|]. do 2 (split; [done|]).
  split; [|split; [|split; [done|]]].
  - unfold Mat_depth. cbn [m_type]. by destruct Hc as [->|[->| ->]].
  - unfold Mat_channels. cbn [m_type]. by destruct Hc as [->|[->| ->]].
  - apply (Mat_ok_not_empty m' _ Hmok).
    unfold Mat_row_bytes. cbn [m_cols m_type].
    rewrite (CV_ELEM_SIZE_8UC _ Hc). destruct Hok as (_ & Hw & _). nia.
Qed.

(** X3: [image2Mat] copies: the matrix it returns lives in a block that
    did not exist before the call, so it shares no byte with the source;
    every address readable before the call reads the same afterwards, and
    the source image is unchanged. *)
Theorem image2Mat_fresh_storage (m : mem) (img : QImage) (ch : Z) :
  QImage_ok m img -> canonical (QImage_format img) ->
  ch = 0 \/ ch = 1 \/ ch = 3 \/ ch = 4 ->
  exists mat m',
    image2Mat img ch m = Some (mat, m') /\
    (length m < p_block (m_data mat))%nat /\
    p_block (m_data mat) <> p_block (QImage_bits img) /\
    (forall q, valid m q -> load m' q = load m q) /\
    QImage_ok m' img /\
    forall i k, QImage_byte m' img i k = QImage_byte m img i k.
Proof.
  intros Hok Hcan Hch.
  destruct (image2Mat_ok_spec img ch m Hok Hcan Hch)
    as (Hc & m' & Hrun & Hmok & Hframe & _).
  assert (0 < QImage_row_bytes img) as Hrb.
  { unfold QImage_row_bytes. destruct Hok as (_ & Hw & _).
    destruct (canonical_depth img Hcan) as [[_ ->]|[[_ ->]|[_ ->]]]; lia. }
  pose proof (QImage_ok_block m img Hok Hrb) as Hb.
  eexists _, m'. split; [exact Hrun|]. cbn [m_data p_block].
  split; [lia|]. split; [lia|]. split; [|split].
  - intros q Hq. apply Hframe.
    pose proof (load_Some_block m q Hq). lia.
  - apply (same_outside_ok_image (Datatypes.S (length m)) m m' img Hframe);
      [lia|done].
  - intros i k. unfold QImage_byte. apply Hframe.
    rewrite block_scanLine. lia.
Qed.

(** X4: with [mat_channels = 0] the matrix has as many channels as the
    image has bytes per pixel and is a deep copy of it: every byte of
    every row of pixels is the byte of the image at the same place, the
    padding of the scan lines being left out. *)
Theorem image2Mat_auto_deep_copy (m : mem) (img : QImage) :
  QImage_ok m img -> canonical (QImage_format img) ->
  exists mat m',
    image2Mat img 0 m = Some (mat, m') /\
    m_type mat = CV_8UC (QImage_depth img `quot` 8) /\
    m_rows mat = QImage_height img /\ m_cols mat = QImage_width img /\
    m_step mat = QImage_row_bytes img /\
    forall i k, 0 <= i < QImage_height img -> 0 <= k < QImage_row_bytes img ->
      is_Some (QImage_byte m img i k) /\
      Mat_byte m' mat i k = QImage_byte m img i k.
Proof.
  intros Hok Hcan.
  destruct (image2Mat_ok_spec img 0 m Hok Hcan ltac:(by left))
    as (Hc & m' & Hrun & Hmok & _ & Hl).
  change (0 =? 0) with true in *. cbv iota in *.
  eexists _, m'. split; [exact Hrun|]. do 4 (split; [done|]).
  intros i k Hi Hk. destruct Hok as (_ & _ & _ & _ & Hv).
  split; [by apply Hv|].
  unfold Mat_byte, QImage_byte. rewrite Hl by done.
  rewrite image2Mat_byte_same by (done || lia).
  symmetry. by apply load_byte_at, Hv.
Qed.

(** X5: a grey (Indexed8) image converted to 3 or 4 channels has its grey
    byte in each of the first three channels of the pixel. *)
Theorem image2Mat_gray_replicated (m : mem) (img : QImage) (ch : Z) :
  QImage_ok m img -> QImage_format img = Format_Indexed8 ->
  ch = 3 \/ ch = 4 ->
  exists mat m',
    image2Mat img ch m = Some (mat, m') /\ m_type mat = CV_8UC ch /\
    forall i j t, 0 <= i < QImage_height img -> 0 <= j < QImage_width img ->
      0 <= t < 3 ->
      exists g, QImage_byte m img i j = Some g /\
                Mat_byte m' mat i (j * ch + t) = Some g.
Proof.
  intros Hok Hfmt Hch.
  assert (canonical (QImage_format img)) as Hcan by (by left).
  destruct (QImage_row_bytes_fmt img _ Hfmt ltac:(done)) as [Hd Hrb].
  change (depthForFormat Format_Indexed8 `quot` 8) with 1 in Hrb.
  destruct (image2Mat_ok_spec img ch m Hok Hcan ltac:(lia))
    as (_ & m' & Hrun & _ & _ & Hl).
  assert ((ch =? 0) = false) as E0 by lia. rewrite E0 in *.
  eexists _, m'. split; [exact Hrun|]. split; [done|].
  intros i j t Hi Hj Ht. destruct Hok as (_ & _ & _ & _ & Hv).
  exists (byte_at m (QImage_scanLine img i +ₚ j)). split.
  - apply load_byte_at, Hv; [done|lia].
  - unfold Mat_byte. rewrite Hl by (done || nia). f_equal.
    unfold image2Mat_byte. cbv zeta. rewrite Hd.
    change (depthForFormat Format_Indexed8 `quot` 8) with 1.
    destruct (div_pixel ch j t ltac:(lia)) as [-> ->].
    assert ((ch =? 1) = false) as -> by lia.
    assert ((t =? 3) = false) as -> by lia.
    change (1 =? 1) with true. cbv iota. unfold src_px. by rewrite Z.mul_1_r.
Qed.

(** X6: a colour image (RGB888, RGB32 or ARGB32) converted to 3 or 4
    channels keeps the order of the bytes of each pixel: byte [t] of pixel
    [j] of the matrix is byte [t] of pixel [j] of the image, for the bytes
    both have; no two channels are exchanged.  The fourth byte of a 32-bit
    pixel is copied to a matrix of 4 channels, and left out of one of 3. *)
Theorem image2Mat_keeps_byte_order (m : mem) (img : QImage) (ch : Z) :
  QImage_ok m img ->
  QImage_format img = Format_RGB888 \/ QImage_format img = Format_RGB32 \/
  QImage_format img = Format_ARGB32 ->
  ch = 3 \/ ch = 4 ->
  let s := QImage_depth img `quot` 8 in
  exists mat m',
    image2Mat img ch m = Some (mat, m') /\ m_type mat = CV_8UC ch /\
    forall i j t, 0 <= i < QImage_height img -> 0 <= j < QImage_width img ->
      0 <= t < Z.min s ch ->
      exists v, QImage_byte m img i (j * s + t) = Some v /\
                Mat_byte m' mat i (j * ch + t) = Some v.
Proof.
  intros Hok Hfmt Hch s.
  assert (canonical (QImage_format img)) as Hcan by (unfold canonical; tauto).
  assert (s = 3 \/ s = 4) as Hs.
  { unfold s. destruct (canonical_depth img Hcan) as [[E _]|[[_ ->]|[_ ->]]];
      [|lia|lia]. rewrite E in Hfmt. by destruct Hfmt as [?|[?|?]]. }
  destruct (image2Mat_ok_spec img ch m Hok Hcan ltac:(lia))
    as (_ & m' & Hrun & _ & _ & Hl).
  assert ((ch =? 0) = false) as E0 by lia. rewrite E0 in *.
  eexists _, m'. split; [exact Hrun|]. split; [done|].
  intros i j t Hi Hj Ht. destruct Hok as (_ & _ & _ & _ & Hv).
  exists (byte_at m (QImage_scanLine img i +ₚ (j * s + t))). split.
  - apply load_byte_at, Hv; [done|]. unfold QImage_row_bytes. fold s. nia.
  - unfold Mat_byte. rewrite Hl by (done || nia). f_equal.
    unfold image2Mat_byte. cbv zeta. fold s.
    destruct (div_pixel ch j t ltac:(lia)) as [-> ->].
    assert ((ch =? 1) = false) as -> by lia.
    assert ((s =? 1) = false) as -> by lia.
    assert ((s =? 3) && (t =? 3) = false) as ->.
    { apply andb_false_iff. lia. }
    unfold src_px. by rewrite ptr_add_add.
Qed.

(** X7: the grey value computed for a pixel (line 83) lies between the
    smallest of its three bytes less one and the largest of them, and is
    never 255; a pixel whose three bytes are equal to g gives g - 1, and 0
    for g = 0. *)
Theorem gray_of_bounds (d0 d1 d2 : uchar) :
  let y := uchar_val (gray_of d0 d1 d2) in
  let lo := Z.min (uchar_val d0) (Z.min (uchar_val d1) (uchar_val d2)) in
  let hi := Z.max (uchar_val d0) (Z.max (uchar_val d1) (uchar_val d2)) in
  lo - 1 <= y <= hi /\ 0 <= y <= 254 /\
  uchar_val (gray_of d0 d0 d0) =
    (if uchar_val d0 =? 0 then 0 else uchar_val d0 - 1).
Proof.
  cbv zeta. split; [|split; [|apply gray_of_diag]].
  - rewrite gray_of_luma. unfold luma.
    pose proof (uchar_val_range d0). pose proof (uchar_val_range d1).
    pose proof (uchar_val_range d2). split.
    + apply Z.div_le_lower_bound; lia.
    + apply Z.div_le_upper_bound; lia.
  - destruct (gray_of_in_range d0 d1 d2) as [Hsum Hq]. cbv zeta in Hsum, Hq.
    unfold gray_of. rewrite uchar_val_to_uchar. rewrite Z.mod_small; lia.
Qed.

(** X8: [image2Mat] does not look at the colour table: an image of one of
    the four formats gives the same result whatever its colour table, so
    the matrix of an Indexed8 image holds the indices of its pixels, not
    the colours the table gives them. *)
Theorem image2Mat_ignores_color_table
    (img : QImage) (colors : list QRgb) (ch : Z) (m : mem) :
  canonical (QImage_format img) ->
  image2Mat (QImage_setColorTable img colors) ch m = image2Mat img ch m.
Proof.
  intros Hcan. destruct img as [[w h f bpl data ct]|]; [|done].
  unfold canonical in Hcan. cbn in Hcan.
  by destruct Hcan as [->|[->|[->| ->]]].
Qed.

End Image2MatProperties.

(** With as many bytes per pixel as the matrix has channels, the byte of
    the image is the byte of the matrix at the same offset of the row. *)
Lemma mat2Image_byte_same (m : mem) (mat : Mat) (cn i k : Z) :
  cn = 1 \/ cn = 3 \/ cn = 4 -> 0 <= k ->
  mat2Image_byte m mat cn cn i k = byte_at m (Mat_row_data mat i +ₚ k).
Proof.
  intros Hcn Hk. unfold mat2Image_byte. cbv zeta.
  destruct Hcn as [->|[->| ->]].
  - change (1 =? 4) with false. change (1 =? 1) with true. cbv iota.
    cbn [andb]. rewrite Z.div_1_r, Mat_at_row. f_equal. f_equal. lia.
  - change (3 =? 4) with false. change (3 =? 1) with false. cbv iota.
    cbn [andb]. by rewrite Mat_at_offset.
  - change (4 =? 4) with true. change (4 =? 1) with false. cbv iota.
    cbn [negb]. rewrite andb_false_r. by rewrite Mat_at_offset.
Qed.

(** A matrix type has at least one channel. *)
Lemma CV_MAT_CN_pos (type : Z) : 1 <= CV_MAT_CN type.
Proof.
  unfold CV_MAT_CN.
  assert (0 <= Z.shiftr (Z.land type 4088) 3); [|lia].
  apply Z.shiftr_nonneg, Z.land_nonneg. lia.
Qed.

Lemma CV_ELEM_SIZE_8U (type : Z) : CV_MAT_DEPTH type = CV_8U -> 1 <= CV_ELEM_SIZE type.
Proof.
  intros Hd. unfold CV_ELEM_SIZE, CV_ELEM_SIZE1. rewrite Hd. cbv zeta.
  change (CV_8U <? 2) with true. cbv iota. pose proof (CV_MAT_CN_pos type). lia.
Qed.

Section Mat2ImageProperties.
Context `{Libs}.

(** X9: on an 8-bit matrix of 1, 3 or 4 channels whose rows lie in the
    store, [mat2Image] to RGB32 or RGB888 (and to Indexed8 for one channel)
    runs without an access out of bounds and returns a non-null image of
    the format asked for, with the columns and rows of the matrix as width
    and height, whose rows lie in the resulting store; its colour table is
    empty for the two colour formats. *)
Theorem mat2Image_result_shape (m : mem) (mat : Mat) (fmt : Format) (cn : Z) :
  Mat_ok m mat -> m_type mat = CV_8UC cn ->
  cn = 1 \/ cn = 3 \/ cn = 4 ->
  fmt = Format_RGB32 \/ fmt = Format_RGB888 \/ (fmt = Format_Indexed8 /\ cn = 1) ->
  exists out m',
    mat2Image mat fmt m = Some (out, m') /\
    QImage_isNull out = false /\ QImage_format out = fmt /\
    QImage_width out = m_cols mat /\ QImage_height out = m_rows mat /\
    (fmt <> Format_Indexed8 -> QImage_colorTable out = []) /\
    QImage_ok m' out.
Proof.
  intros Hok Htype Hcn Hfmt.
  destruct (mat2Image_spec mat fmt cn m Hok Htype Hcn Hfmt)
    as (m' & Hrun & Hiok & _).
  eexists _, m'. split; [exact Hrun|]. do 4 (split; [done|]).
  split; [|done]. intros Hne. cbn. by rewrite bool_decide_eq_false_2.
Qed.

(** X10: [mat2Image] copies: the image it returns lives in a block that
    did not exist before the call, so it shares no byte with the matrix;
    every address readable before the call reads the same afterwards, and
    the matrix is unchanged. *)
Theorem mat2Image_fresh_storage (m : mem) (mat : Mat) (fmt : Format) (cn : Z) :
  Mat_ok m mat -> m_type mat = CV_8UC cn ->
  cn = 1 \/ cn = 3 \/ cn = 4 ->
  fmt = Format_RGB32 \/ fmt = Format_RGB888 \/ (fmt = Format_Indexed8 /\ cn = 1) ->
  exists out m',
    mat2Image mat fmt m = Some (out, m') /\
    (length m < p_block (QImage_bits out))%nat /\
    p_block (QImage_bits out) <> p_block (m_data mat) /\
    (forall q, valid m q -> load m' q = load m q) /\
    Mat_ok m' mat /\
    forall i k, Mat_byte m' mat i k = Mat_byte m mat i k.
Proof.
  intros Hok Htype Hcn Hfmt.
  destruct (mat2Image_spec mat fmt cn m Hok Htype Hcn Hfmt)
    as (m' & Hrun & _ & Hframe & _).
  assert (0 < Mat_row_bytes mat) as Hrb.
  { unfold Mat_row_bytes. rewrite Htype, (CV_ELEM_SIZE_8UC cn Hcn).
    destruct Hok as (_ & Hc & _). nia. }
  pose proof (Mat_ok_block m mat Hok Hrb) as Hb.
  eexists _, m'. split; [exact Hrun|]. cbn [QImage_bits from_option qd_data p_block].
  split; [lia|]. split; [lia|]. split; [|split].
  - intros q Hq. apply Hframe. pose proof (load_Some_block m q Hq). lia.
  - apply (same_outside_ok_mat (Datatypes.S (length m)) m m' mat Hframe);
      [lia|done].
  - intros i k. unfold Mat_byte. apply Hframe. simpl. lia.
Qed.

(** X11: a matrix of one channel converted to RGB32 or RGB888 has its
    byte in each of the first three bytes of the pixel. *)
Theorem mat2Image_gray_replicated (m : mem) (mat : Mat) (fmt : Format) :
  Mat_ok m mat -> m_type mat = CV_8UC1 ->
  fmt = Format_RGB32 \/ fmt = Format_RGB888 ->
  let bpp := bytes_per_pixel fmt in
  exists out m',
    mat2Image mat fmt m = Some (out, m') /\
    forall i j t, 0 <= i < m_rows mat -> 0 <= j < m_cols mat -> 0 <= t < 3 ->
      exists g, Mat_byte m mat i j = Some g /\
                QImage_byte m' out i (j * bpp + t) = Some g.
Proof.
  intros Hok Htype Hfmt bpp.
  destruct (mat2Image_spec mat fmt 1 m Hok Htype ltac:(by left) ltac:(tauto))
    as (m' & Hrun & _ & _ & Hl).
  cbv zeta in Hl. fold bpp in Hl.
  assert (bpp = 4 \/ bpp = 3) as Hbpp.
  { unfold bpp. by destruct Hfmt as [->| ->]; [left|right]. }
  eexists _, m'. split; [exact Hrun|]. intros i j t Hi Hj Ht.
  destruct Hok as (_ & _ & _ & Hv).
  assert (Mat_row_bytes mat = m_cols mat) as Hrb.
  { unfold Mat_row_bytes. rewrite Htype. change (CV_ELEM_SIZE CV_8UC1) with 1. lia. }
  exists (byte_at m (Mat_row_data mat i +ₚ j)). split.
  - apply load_byte_at, Hv; [done|lia].
  - unfold QImage_byte. rewrite Hl by (done || nia). f_equal.
    unfold mat2Image_byte. cbv zeta.
    destruct (div_pixel bpp j t ltac:(lia)) as [-> ->].
    assert ((t =? 3) = false) as -> by lia. rewrite andb_false_r. cbn [andb].
    change (1 =? 1) with true. cbv iota. rewrite Mat_at_row. f_equal. f_equal. lia.
Qed.

(** X12: a matrix of 3 or 4 channels converted to RGB32 or RGB888 keeps
    the order of the bytes of each pixel: byte [t] of pixel [j] of the
    image is byte [t] of pixel [j] of the matrix, for the bytes both have;
    no two channels are exchanged.  The fourth channel of a matrix is
    copied to an RGB32 image, and left out of an RGB888 one. *)
Theorem mat2Image_keeps_byte_order (m : mem) (mat : Mat) (fmt : Format) (cn : Z) :
  Mat_ok m mat -> m_type mat = CV_8UC cn -> cn = 3 \/ cn = 4 ->
  fmt = Format_RGB32 \/ fmt = Format_RGB888 ->
  let bpp := bytes_per_pixel fmt in
  exists out m',
    mat2Image mat fmt m = Some (out, m') /\
    forall i j t, 0 <= i < m_rows mat -> 0 <= j < m_cols mat ->
      0 <= t < Z.min cn bpp ->
      exists v, Mat_byte m mat i (j * cn + t) = Some v /\
                QImage_byte m' out i (j * bpp + t) = Some v.
Proof.
  intros Hok Htype Hcn Hfmt bpp.
  destruct (mat2Image_spec mat fmt cn m Hok Htype ltac:(tauto) ltac:(tauto))
    as (m' & Hrun & _ & _ & Hl).
  cbv zeta in Hl. fold bpp in Hl.
  assert (bpp = 4 \/ bpp = 3) as Hbpp.
  { unfold bpp. by destruct Hfmt as [->| ->]; [left|right]. }
  eexists _, m'. split; [exact Hrun|]. intros i j t Hi Hj Ht.
  destruct Hok as (_ & _ & _ & Hv).
  assert (Mat_row_bytes mat = m_cols mat * cn) as Hrb.
  { unfold Mat_row_bytes. rewrite Htype. by rewrite CV_ELEM_SIZE_8UC by tauto. }
  exists (byte_at m (Mat_row_data mat i +ₚ (j * cn + t))). split.
  - apply load_byte_at, Hv; [done|]. rewrite Hrb. nia.
  - unfold QImage_byte. rewrite Hl by (done || nia). f_equal.
    unfold mat2Image_byte. cbv zeta.
    destruct (div_pixel bpp j t ltac:(lia)) as [-> ->].
    assert ((bpp =? 4) && (t =? 3) && negb (cn =? 4) = false) as ->.
    { destruct (bpp =? 4) eqn:E1; [|done].
      destruct (t =? 3) eqn:E2; [|done].
      destruct (cn =? 4) eqn:E3; [done|]. lia. }
    by assert ((cn =? 1) = false) as -> by lia.
Qed.

(** X13: [mat2Image] returns the null image and leaves the store as it
    was, reading no byte, for a matrix whose depth is none of 8U, 16U and
    32F, whatever the format asked for, and for an 8-bit matrix when the
    format asked for is none of RGB32, RGB888 and Indexed8. *)
Theorem mat2Image_unsupported_gives_null (m : mem) (mat : Mat) (fmt : Format) :
  (Mat_depth mat <> CV_8U /\ Mat_depth mat <> CV_16U /\ Mat_depth mat <> CV_32F) \/
  (Mat_depth mat = CV_8U /\ fmt <> Format_RGB32 /\ fmt <> Format_RGB888 /\
   fmt <> Format_Indexed8) ->
  mat2Image mat fmt m = Some (QImage_null, m).
Proof.
  intros Hcase. unfold mat2Image. destruct (Mat_empty mat); [done|].
  unfold to_8bit. destruct Hcase as [(H8 & H16 & H32)|(H8 & Hf1 & Hf2 & Hf3)].
  - assert ((Mat_depth mat =? CV_8U) = false) as -> by lia.
    assert ((Mat_depth mat =? CV_16U) = false) as -> by lia.
    assert ((Mat_depth mat =? CV_32F) = false) as -> by lia.
    unfold bind at 1. unfold ret at 1.
    repeat case_bool_decide; done.
  - rewrite H8, Z.eqb_refl. unfold bind at 1. unfold ret at 1.
    by rewrite !bool_decide_eq_false_2 by done.
Qed.

(** X14: the channel count of an 8-bit matrix is not checked on the way to
    RGB32 or RGB888: for a count other than 1, 3 and 4 the image of the
    size of the matrix is allocated and returned without one byte of it
    being written, and without the matrix being read. *)
Theorem mat2Image_unchecked_channels (m : mem) (mat : Mat) (fmt : Format) :
  Mat_empty mat = false -> 0 < m_rows mat -> 0 < m_cols mat ->
  Mat_depth mat = CV_8U ->
  m_type mat <> CV_8UC1 -> m_type mat <> CV_8UC3 -> m_type mat <> CV_8UC4 ->
  fmt = Format_RGB32 \/ fmt = Format_RGB888 ->
  let b := Datatypes.S (length m) in
  let bpl := scanline_bytes (m_cols mat) (depthForFormat fmt) in
  mat2Image mat fmt m =
    Some (Some (mkQImageData (m_cols mat) (m_rows mat) fmt bpl (Ptr b 0) []),
          m ++ [uninit b <$> seqZ 0 (bpl * m_rows mat)]).
Proof.
  intros Hne Hr Hc Hd H1 H3 H4 Hfmt b bpl.
  unfold mat2Image. rewrite Hne. unfold to_8bit. rewrite Hd, Z.eqb_refl.
  unfold bind at 1. unfold ret at 1.
  assert ((m_type mat =? CV_8UC1) = false) as E1 by lia.
  assert ((m_type mat =? CV_8UC3) = false) as E3 by lia.
  assert ((m_type mat =? CV_8UC4) = false) as E4 by lia.
  assert ((m_cols mat <=? 0) = false) as Ec by lia.
  assert ((m_rows mat <=? 0) = false) as Er by lia.
  unfold bpl. destruct Hfmt as [->| ->].
  - rewrite bool_decide_eq_true_2 by done.
    unfold mat2Image_rows_RGB32, QImage_new. rewrite E1, E3, E4, Ec, Er.
    rewrite bool_decide_eq_false_2 by done. cbn [orb]. cbv iota zeta.
    unfold bind at 1. unfold bind at 2. unfold alloc, ret at 1. cbv beta iota.
    unfold bind. by rewrite for_skip.
  - rewrite (bool_decide_eq_false_2 (Format_RGB888 = Format_RGB32)) by done.
    rewrite bool_decide_eq_true_2 by done.
    unfold mat2Image_rows_RGB888, QImage_new. rewrite E1, E3, E4, Ec, Er.
    rewrite bool_decide_eq_false_2 by done. cbn [orb]. cbv iota zeta.
    unfold bind at 1. unfold bind at 2. unfold alloc, ret at 1. cbv beta iota.
    unfold bind. by rewrite for_skip.
Qed.

(** X15: the channel count is not checked on the way to Indexed8 either:
    an 8-bit matrix whose type is neither CV_8UC3 nor CV_8UC4 has the
    first [cols] bytes of each of its rows copied to the image, so that
    for two channels the image holds the interleaved bytes of the left
    half of the matrix and not one of its channels. *)
Theorem mat2Image_indexed8_takes_leading_bytes (m : mem) (mat : Mat) :
  Mat_ok m mat -> Mat_depth mat = CV_8U ->
  m_type mat <> CV_8UC3 -> m_type mat <> CV_8UC4 ->
  exists out m',
    mat2Image mat Format_Indexed8 m = Some (out, m') /\
    QImage_format out = Format_Indexed8 /\
    QImage_width out = m_cols mat /\ QImage_height out = m_rows mat /\
    forall i k, 0 <= i < m_rows mat -> 0 <= k < m_cols mat ->
      is_Some (Mat_byte m mat i k) /\
      QImage_byte m' out i k = Mat_byte m mat i k.
Proof.
  intros Hok Hd H3 H4. pose proof Hok as (Hr & Hc & Hst & Hv).
  pose proof (CV_ELEM_SIZE_8U (m_type mat) Hd) as Hes.
  assert (m_cols mat <= Mat_row_bytes mat) as Hrb by (unfold Mat_row_bytes; nia).
  destruct (mat2Image_run_indexed8 mat m Hok ltac:(lia) Hd H3 H4)
    as (m2 & Hframe & Hvalid & Hrun).
  cbv zeta in *. set (b := Datatypes.S (length m)) in *.
  set (bpl := scanline_bytes (m_cols mat) 8) in *.
  set (out := Some (mkQImageData _ _ _ _ _ _)) in *.
  assert (m_cols mat <= bpl) as Hge.
  { unfold bpl. change 8 with (8 * 1).
    pose proof (scanline_bytes_ge (m_cols mat) 1). lia. }
  assert (p_block (m_data mat) <> b) as Hblk.
  { pose proof (Mat_ok_block _ _ Hok ltac:(lia)). unfold b. lia. }
  destruct (memcpy_rows (QImage_scanLine out) (Mat_row_data mat) b 0 bpl
              (m_rows mat) (m_cols mat) m2) as (m' & Hf & _ & Hl).
  - lia.
  - lia.
  - intros i. simpl. split; [done|lia].
  - intros i Hi. done.
  - intros i k Hi Hk. apply Hvalid; [done|lia].
  - intros i k Hi Hk. unfold valid. rewrite Hframe by done. apply Hv; [done|lia].
  - exists out, m'. split.
    + rewrite Hrun. unfold mat2Image_rows_Indexed8. by rewrite Hf.
    + do 3 (split; [done|]). intros i k Hi Hk. split.
      * apply Hv; [done|lia].
      * unfold QImage_byte, Mat_byte. rewrite Hl by done. by apply Hframe.
Qed.

End Mat2ImageProperties.

Section RoundTrips.
Context `{Libs}.

(** X16: a matrix of 1, 3 or 4 channels converted to the image format of
    as many bytes per pixel (Indexed8, RGB888, RGB32) and back with the
    automatic channel count, or with its own, comes back with its type,
    its size and every byte of its rows of pixels. *)
Theorem round_trip_mat_lossless (m : mem) (mat : Mat) (cn : Z) (fmt : Format) :
  Mat_ok m mat -> m_type mat = CV_8UC cn ->
  (cn = 1 /\ fmt = Format_Indexed8) \/ (cn = 3 /\ fmt = Format_RGB888) \/
  (cn = 4 /\ fmt = Format_RGB32) ->
  exists out m1 mat' m2,
    mat2Image mat fmt m = Some (out, m1) /\
    image2Mat out 0 m1 = Some (mat', m2) /\
    image2Mat out cn m1 = Some (mat', m2) /\
    m_type mat' = m_type mat /\ m_rows mat' = m_rows mat /\
    m_cols mat' = m_cols mat /\
    forall i k, 0 <= i < m_rows mat -> 0 <= k < m_cols mat * cn ->
      is_Some (Mat_byte m mat i k) /\
      Mat_byte m2 mat' i k = Mat_byte m mat i k.
Proof.
  intros Hok Htype Hcase.
  assert (cn = 1 \/ cn = 3 \/ cn = 4) as Hcn by tauto.
  assert (bytes_per_pixel fmt = cn) as Hbpp.
  { by destruct Hcase as [[-> ->]|[[-> ->]|[-> ->]]]. }
  assert (fmt <> Format_Invalid) as Hinv.
  { by destruct Hcase as [[_ ->]|[[_ ->]|[_ ->]]]. }
  destruct (mat2Image_spec mat fmt cn m Hok Htype Hcn ltac:(tauto))
    as (m1 & Hrun1 & Hiok & _ & Hl1).
  cbv zeta in Hl1, Hiok, Hrun1. rewrite Hbpp in Hl1.
  set (out := Some (mkQImageData _ _ _ _ _ _)) in *.
  assert (QImage_depth out `quot` 8 = cn) as Hs by exact Hbpp.
  assert (canonical (QImage_format out)) as Hcan.
  { unfold canonical. change (QImage_format out) with fmt. tauto. }
  destruct (image2Mat_ok_spec out 0 m1 Hiok Hcan ltac:(by left))
    as (_ & m2 & Hrun2 & _ & _ & Hl2).
  destruct (image2Mat_ok_spec out cn m1 Hiok Hcan ltac:(tauto))
    as (_ & m2' & Hrun2' & _).
  change (0 =? 0) with true in *. cbv iota in *.
  assert ((cn =? 0) = false) as E0 by lia. rewrite E0 in Hrun2'.
  rewrite Hs in *.
  eexists out, m1, _, m2. split; [exact Hrun1|]. split; [exact Hrun2|].
  split.
  { rewrite Hrun2'. f_equal. f_equal.
    destruct (image2Mat_auto out out m1 m1) as [Ha _];
      [done|by apply normalize_canon|done|].
    rewrite Hs in Ha. congruence. }
  split; [by rewrite Htype|]. do 2 (split; [done|]).
  intros i k Hi Hk. destruct Hok as (_ & _ & _ & Hv).
  assert (valid m (Mat_row_data mat i +ₚ k)) as Hvk.
  { apply Hv; [done|]. unfold Mat_row_bytes.
    by rewrite Htype, (CV_ELEM_SIZE_8UC cn Hcn). }
  split; [exact Hvk|].
  unfold Mat_byte. rewrite Hl2 by done.
  rewrite <- Hs at 1. rewrite image2Mat_byte_same by (done || lia).
  unfold byte_at at 1. rewrite Hl1 by done. cbn [default from_option id].
  rewrite mat2Image_byte_same by (done || lia).
  symmetry. by apply load_byte_at.
Qed.

(** X17: a grey matrix converted to a colour image (RGB32 or RGB888) and
    back to one channel does not come back unchanged: every byte g other
    than 0 comes back as g - 1, the weights of the grey value adding up to
    32764 and not to 32768. *)
Theorem round_trip_gray_through_color (m : mem) (mat : Mat) (fmt : Format) :
  Mat_ok m mat -> m_type mat = CV_8UC1 ->
  fmt = Format_RGB32 \/ fmt = Format_RGB888 ->
  exists out m1 mat' m2,
    mat2Image mat fmt m = Some (out, m1) /\
    image2Mat out 1 m1 = Some (mat', m2) /\
    m_type mat' = CV_8UC1 /\ m_rows mat' = m_rows mat /\
    m_cols mat' = m_cols mat /\
    forall i j, 0 <= i < m_rows mat -> 0 <= j < m_cols mat ->
      exists g y, Mat_byte m mat i j = Some g /\
                  Mat_byte m2 mat' i j = Some y /\
                  uchar_val y = (if uchar_val g =? 0 then 0 else uchar_val g - 1).
Proof.
  intros Hok Htype Hfmt.
  destruct (mat2Image_spec mat fmt 1 m Hok Htype ltac:(by left) ltac:(tauto))
    as (m1 & Hrun1 & Hiok & _ & Hl1).
  cbv zeta in Hl1, Hiok, Hrun1.
  set (bpp := bytes_per_pixel fmt) in *.
  assert (bpp = 4 \/ bpp = 3) as Hbpp.
  { unfold bpp. by destruct Hfmt as [->| ->]; [left|right]. }
  set (out := Some (mkQImageData _ _ _ _ _ _)) in *.
  assert (QImage_depth out `quot` 8 = bpp) as Hs by done.
  assert (canonical (QImage_format out)) as Hcan.
  { unfold canonical. change (QImage_format out) with fmt. tauto. }
  destruct (image2Mat_ok_spec out 1 m1 Hiok Hcan ltac:(tauto))
    as (_ & m2 & Hrun2 & _ & _ & Hl2).
  change (1 =? 0) with false in *. cbv iota in *.
  eexists out, m1, _, m2. split; [exact Hrun1|]. split; [exact Hrun2|].
  do 3 (split; [done|]).
  intros i j Hi Hj. destruct Hok as (_ & _ & _ & Hv).
  set (g := byte_at m (Mat_row_data mat i +ₚ j)).
  exists g, (gray_of g g g). split; [|split; [|apply gray_of_diag]].
  - apply load_byte_at, Hv; [done|]. unfold Mat_row_bytes. rewrite Htype.
    change (CV_ELEM_SIZE CV_8UC1) with 1. lia.
  - unfold Mat_byte. change (QImage_height out) with (m_rows mat) in Hl2.
    change (QImage_width out) with (m_cols mat) in Hl2.
    rewrite Hl2 by (done || lia). f_equal.
    unfold image2Mat_byte. cbv zeta. rewrite Hs.
    change (1 =? 1) with true. cbv iota.
    assert ((bpp =? 1) = false) as -> by lia.
    rewrite Z.div_1_r. unfold src_px.
    assert (forall t, 0 <= t < 3 ->
              byte_at m1 (QImage_scanLine out i +ₚ (j * bpp + t)) = g) as Hb.
    { intros t Ht. unfold byte_at at 1. rewrite Hl1 by (done || nia).
      cbn [default from_option id]. unfold mat2Image_byte. cbv zeta.
      destruct (div_pixel bpp j t ltac:(lia)) as [-> ->].
      assert ((t =? 3) = false) as -> by lia. rewrite andb_false_r. cbn [andb].
      change (1 =? 1) with true. cbv iota. rewrite Mat_at_row.
      unfold g. f_equal. f_equal. lia. }
    rewrite !ptr_add_add.
    rewrite <- (Z.add_0_r (j * bpp)) at 1.
    by rewrite !Hb by lia.
Qed.

End RoundTrips.

(** X18: an image of one of the four formats turned into a shared matrix
    and back into a shared image comes back over the same bytes, with its
    size and its scan line length, and nothing of the store changed; but
    Format_RGB32 comes back as Format_ARGB32, and the colour table comes
    back as the 256 greys for Indexed8 and empty for the other formats,
    whatever it was. *)
Theorem shared_round_trip_image (m : mem) (img : QImage) :
  QImage_ok m img -> canonical (QImage_format img) ->
  exists mat out,
    image2Mat_shared img m = Some (mat, m) /\
    mat2Image_shared mat m = Some (out, m) /\
    QImage_isNull out = false /\
    QImage_bits out = QImage_bits img /\
    QImage_bytesPerLine out = QImage_bytesPerLine img /\
    QImage_width out = QImage_width img /\
    QImage_height out = QImage_height img /\
    QImage_format out =
      (if bool_decide (QImage_format img = Format_RGB32) then Format_ARGB32
       else QImage_format img) /\
    QImage_colorTable out =
      (if bool_decide (QImage_format img = Format_Indexed8) then gray_color_table
       else []).
Proof.
  intros Hok Hcan.
  assert (0 < QImage_row_bytes img) as Hrb.
  { unfold QImage_row_bytes. destruct Hok as (_ & Hw & _).
    destruct (canonical_depth img Hcan) as [[_ ->]|[[_ ->]|[_ ->]]]; lia. }
  pose proof (QImage_ok_block m img Hok Hrb) as Hb.
  destruct Hok as (Hnull & Hw & Hh & Hst & _).
  destruct img as [[w h f bpl data ct]|]; [|done].
  unfold QImage_row_bytes in Hst, Hrb. cbn in Hw, Hh, Hst, Hb, Hcan, Hrb.
  assert (forall c, Mat_empty (mkMat (CV_8UC c) h w bpl data) = false) as Hne.
  { intros c. unfold Mat_empty, is_null. cbn.
    apply orb_false_intro; [apply Nat.eqb_neq|apply Z.eqb_neq]; nia. }
  unfold canonical in Hcan.
  destruct Hcan as [->|[->|[->| ->]]]; cbn in Hst.
  - exists (mkMat (CV_8UC 1) h w bpl data). eexists. split; [reflexivity|].
    unfold mat2Image_shared. rewrite Hne. cbn [m_type]. eval_eqb.
    rewrite (QImage_of_data_mat (mkMat (CV_8UC 1) h w bpl data) Format_Indexed8 1)
      by (done || cbn; lia). done.
  - exists (mkMat (CV_8UC 3) h w bpl data). eexists. split; [reflexivity|].
    unfold mat2Image_shared. rewrite Hne. cbn [m_type]. eval_eqb.
    rewrite (QImage_of_data_mat (mkMat (CV_8UC 3) h w bpl data) Format_RGB888 3)
      by (done || cbn; lia). done.
  - exists (mkMat (CV_8UC 4) h w bpl data). eexists. split; [reflexivity|].
    unfold mat2Image_shared. rewrite Hne. cbn [m_type]. eval_eqb.
    rewrite (QImage_of_data_mat (mkMat (CV_8UC 4) h w bpl data) Format_ARGB32 4)
      by (done || cbn; lia). done.
  - exists (mkMat (CV_8UC 4) h w bpl data). eexists. split; [reflexivity|].
    unfold mat2Image_shared. rewrite Hne. cbn [m_type]. eval_eqb.
    rewrite (QImage_of_data_mat (mkMat (CV_8UC 4) h w bpl data) Format_ARGB32 4)
      by (done || cbn; lia). done.
Qed.

(** X19: a matrix of type CV_8UC1, CV_8UC3 or CV_8UC4 whose rows lie in
    the store, turned into a shared image and back into a shared matrix,
    comes back as the very same header (type, size, step and data
    pointer), padded rows included, and nothing of the store changed. *)
Theorem shared_round_trip_mat (m : mem) (mat : Mat) (cn : Z) :
  Mat_ok m mat -> m_type mat = CV_8UC cn -> cn = 1 \/ cn = 3 \/ cn = 4 ->
  exists out,
    mat2Image_shared mat m = Some (out, m) /\
    QImage_isNull out = false /\
    image2Mat_shared out m = Some (mat, m).
Proof.
  intros Hok Htype Hcn.
  assert (Mat_row_bytes mat = m_cols mat * cn) as Hrb.
  { unfold Mat_row_bytes. by rewrite Htype, (CV_ELEM_SIZE_8UC cn Hcn). }
  pose proof Hok as (Hr & Hc & Hst & _). rewrite Hrb in Hst.
  assert (Mat_empty mat = false) as Hne.
  { apply (Mat_ok_not_empty m mat Hok). rewrite Hrb. nia. }
  unfold mat2Image_shared. rewrite Hne, Htype.
  destruct Hcn as [->|[->| ->]]; eval_eqb.
  - rewrite (QImage_of_data_mat mat Format_Indexed8 1) by (done || lia).
    eexists. split; [reflexivity|]. split; [done|].
    destruct mat as [ty rows cols step data]. cbn in Htype. by subst ty.
  - rewrite (QImage_of_data_mat mat Format_RGB888 3) by (done || lia).
    eexists. split; [reflexivity|]. split; [done|].
    destruct mat as [ty rows cols step data]. cbn in Htype. by subst ty.
  - rewrite (QImage_of_data_mat mat Format_ARGB32 4) by (done || lia).
    eexists. split; [reflexivity|]. split; [done|].
    destruct mat as [ty rows cols step data]. cbn in Htype. by subst ty.
Qed.

Section CopyAndView.
Context `{Libs}.

(** X20: the matrix [image2Mat] returns with the automatic channel count
    and the one [image2Mat_shared] returns for the same image have the
    same type and size and the same bytes in every row of pixels; the
    shared one lies over the bytes of the image with its scan line length
    as step, the copy is in storage of its own with rows no longer than
    those. *)
Theorem image2Mat_copy_agrees_with_view (m : mem) (img : QImage) :
  QImage_ok m img -> canonical (QImage_format img) ->
  exists copy m' view,
    image2Mat img 0 m = Some (copy, m') /\
    image2Mat_shared img m = Some (view, m) /\
    m_type copy = m_type view /\ m_rows copy = m_rows view /\
    m_cols copy = m_cols view /\
    m_data view = QImage_bits img /\
    p_block (m_data copy) <> p_block (m_data view) /\
    m_step copy <= m_step view /\
    forall i k, 0 <= i < m_rows view -> 0 <= k < Mat_row_bytes view ->
      Mat_byte m' copy i k = Mat_byte m view i k.
Proof.
  intros Hok Hcan.
  destruct (image2Mat_ok_spec img 0 m Hok Hcan ltac:(by left))
    as (Hc & m' & Hrun & _ & _ & Hl).
  change (0 =? 0) with true in *. cbv iota in *.
  assert (0 < QImage_row_bytes img) as Hrb.
  { unfold QImage_row_bytes. destruct Hok as (_ & Hw & _). nia. }
  pose proof (QImage_ok_block m img Hok Hrb) as Hb.
  destruct Hok as (Hnull & Hw & Hh & Hst & Hv).
  eexists _, m', (Mat_of_data (QImage_height img) (QImage_width img)
                    (CV_8UC (QImage_depth img `quot` 8))
                    (QImage_bits img) (QImage_bytesPerLine img)).
  split; [exact Hrun|]. split.
  { unfold image2Mat_shared. rewrite Hnull. unfold canonical in Hcan.
    by destruct Hcan as [->|[->|[->| ->]]]. }
  do 4 (split; [done|]). cbn [m_data Mat_of_data p_block m_step m_rows].
  split; [lia|]. split; [exact Hst|].
  intros i k Hi Hk. unfold Mat_row_bytes in Hk. cbn [m_cols m_type Mat_of_data] in Hk.
  rewrite (CV_ELEM_SIZE_8UC _ Hc) in Hk.
  unfold Mat_byte at 1. rewrite Hl by done.
  rewrite image2Mat_byte_same by (done || lia).
  unfold Mat_byte, Mat_row_data. cbn [m_data m_step Mat_of_data].
  assert (QImage_bits img +ₚ QImage_bytesPerLine img * i = QImage_scanLine img i)
    as ->.
  { destruct img as [d|]; [|done]. cbn. f_equal. lia. }
  symmetry. by apply load_byte_at, Hv.
Qed.

(** X21: the image [mat2Image] returns for the format of as many bytes
    per pixel as the matrix has channels and the one [mat2Image_shared]
    returns for the same matrix have the same size, depth, colour table
    and bytes in every row of pixels, the shared one lying over the bytes
    of the matrix; their formats are the same for 1 and 3 channels, and
    differ for 4: Format_RGB32 for the copy, Format_ARGB32 for the shared
    image. *)
Theorem mat2Image_copy_agrees_with_view
    (m : mem) (mat : Mat) (cn : Z) (fmt : Format) :
  Mat_ok m mat -> m_type mat = CV_8UC cn ->
  (cn = 1 /\ fmt = Format_Indexed8) \/ (cn = 3 /\ fmt = Format_RGB888) \/
  (cn = 4 /\ fmt = Format_RGB32) ->
  exists copy m' view,
    mat2Image mat fmt m = Some (copy, m') /\
    mat2Image_shared mat m = Some (view, m) /\
    QImage_width copy = QImage_width view /\
    QImage_height copy = QImage_height view /\
    QImage_depth copy = QImage_depth view /\
    QImage_colorTable copy = QImage_colorTable view /\
    QImage_format copy = fmt /\
    QImage_format view = (if cn =? 4 then Format_ARGB32 else fmt) /\
    QImage_bits view = m_data mat /\
    p_block (QImage_bits copy) <> p_block (QImage_bits view) /\
    forall i k, 0 <= i < m_rows mat -> 0 <= k < m_cols mat * cn ->
      QImage_byte m' copy i k = QImage_byte m view i k.
Proof.
  intros Hok Htype Hcase.
  assert (cn = 1 \/ cn = 3 \/ cn = 4) as Hcn by tauto.
  assert (bytes_per_pixel fmt = cn) as Hbpp.
  { by destruct Hcase as [[-> ->]|[[-> ->]|[-> ->]]]. }
  destruct (mat2Image_spec mat fmt cn m Hok Htype Hcn ltac:(tauto))
    as (m' & Hrun & _ & _ & Hl).
  cbv zeta in Hl, Hrun. rewrite Hbpp in Hl.
  set (copy := Some (mkQImageData _ _ _ _ _ _)) in *.
  assert (Mat_row_bytes mat = m_cols mat * cn) as Hrb.
  { unfold Mat_row_bytes. by rewrite Htype, (CV_ELEM_SIZE_8UC cn Hcn). }
  pose proof Hok as (Hr & Hc & Hst & Hv). rewrite Hrb in Hst, Hv.
  assert (Mat_empty mat = false) as Hne.
  { apply (Mat_ok_not_empty m mat Hok). rewrite Hrb. nia. }
  pose proof (Mat_ok_block m mat Hok ltac:(rewrite Hrb; nia)) as Hb.
  assert (forall view F T,
            view = Some (mkQImageData (m_cols mat) (m_rows mat) F (m_step mat)
                           (m_data mat) T) ->
            forall i k, 0 <= i < m_rows mat -> 0 <= k < m_cols mat * cn ->
              QImage_byte m' copy i k = QImage_byte m view i k) as Hbytes.
  { intros view F T -> i k Hi Hk. unfold QImage_byte at 1. rewrite Hl by done.
    rewrite mat2Image_byte_same by (done || lia).
    unfold QImage_byte. cbn [QImage_scanLine qd_data qd_bytes_per_line].
    rewrite <- view_row_eq. symmetry. by apply load_byte_at, Hv. }
  unfold mat2Image_shared. rewrite Hne, Htype.
  destruct Hcase as [[-> ->]|[[-> ->]|[-> ->]]]; eval_eqb.
  - rewrite (QImage_of_data_mat mat Format_Indexed8 1) by (done || lia).
    eexists copy, m', _. split; [exact Hrun|]. split; [reflexivity|].
    do 7 (split; [done|]). split; [simpl; lia|]. by eapply Hbytes.
  - rewrite (QImage_of_data_mat mat Format_RGB888 3) by (done || lia).
    eexists copy, m', _. split; [exact Hrun|]. split; [reflexivity|].
    do 7 (split; [done|]). split; [simpl; lia|]. by eapply Hbytes.
  - rewrite (QImage_of_data_mat mat Format_ARGB32 4) by (done || lia).
    eexists copy, m', _. split; [exact Hrun|]. split; [reflexivity|].
    do 7 (split; [done|]). split; [simpl; lia|]. by eapply Hbytes.
Qed.

End CopyAndView.

Lemma read_format_canonical (f : Format) : canonical (read_format f).
Proof. unfold canonical. destruct f; cbn; tauto. Qed.

Section LibraryConversions.
Context `{Libs}.

(** The [switch] of [image2Mat] on an image that is not of one of the four
    formats. *)
Lemma normalize_converts (img : QImage) :
  ~ canonical (QImage_format img) ->
  normalize img = QImage_convertToFormat img (read_format (QImage_format img)).
Proof.
  intros Hn. unfold normalize, canonical in *.
  destruct (QImage_format img); try done; tauto.
Qed.

(** X22: an image of a format other than Indexed8, RGB888, RGB32 and
    ARGB32 is first converted by Qt: Mono and MonoLSB to Indexed8, RGB444,
    RGB555, RGB666 and RGB16 to RGB888, every other format to RGB32; when
    Qt returns an image of that format and of the width of the source,
    [image2Mat] gives what it gives on the converted image, for every
    accepted channel count. *)
Theorem image2Mat_converts_first (img image : QImage) (ch : Z) (m m1 : mem) :
  ch = 0 \/ ch = 1 \/ ch = 3 \/ ch = 4 ->
  QImage_isNull img = false -> ~ canonical (QImage_format img) ->
  QImage_convertToFormat img (read_format (QImage_format img)) m = Some (image, m1) ->
  QImage_isNull image = false ->
  QImage_format image = read_format (QImage_format img) ->
  QImage_width image = QImage_width img ->
  canonical (QImage_format image) /\
  image2Mat img ch m = image2Mat image ch m1.
Proof.
  intros Hch Hnull Hncan Hconv Hnull' Hfmt Hwid.
  assert (canonical (QImage_format image)) as Hcan.
  { rewrite Hfmt. apply read_format_canonical. }
  split; [done|].
  assert (image2Mat_rows1 img image = image2Mat_rows1 image image) as E1.
  { unfold image2Mat_rows1. by rewrite Hwid. }
  assert (image2Mat_rows3 img image = image2Mat_rows3 image image) as E3.
  { unfold image2Mat_rows3. by rewrite Hwid. }
  assert (image2Mat_rows4 img image = image2Mat_rows4 image image) as E4.
  { unfold image2Mat_rows4. by rewrite Hwid. }
  unfold image2Mat. rewrite Hnull, Hnull'.
  assert (bool_decide (ch <> 0) && bool_decide (ch <> 1) && bool_decide (ch <> 3)
          && bool_decide (ch <> 4) = false) as ->.
  { by destruct Hch as [->|[->|[->| ->]]]. }
  unfold bind at 1. rewrite (normalize_converts img Hncan), Hconv.
  unfold bind at 3. rewrite (normalize_canon image m1 Hcan).
  by rewrite E1, E3, E4.
Qed.

(** X23: a matrix of depth 16U or 32F is first converted by OpenCV to 8
    bits, with the scale 255/65535 or 255; when OpenCV returns a non-empty
    8-bit matrix of as many rows, [mat2Image] gives what it gives on the
    converted matrix, for every format. *)
Theorem mat2Image_scales_first (mat mat_b : Mat) (fmt : Format) (m m1 : mem) :
  Mat_empty mat = false ->
  (Mat_depth mat = CV_16U /\
   Mat_convertTo mat CV_8U Scale_255_over_65535 m = Some (mat_b, m1)) \/
  (Mat_depth mat = CV_32F /\
   Mat_convertTo mat CV_8U Scale_255 m = Some (mat_b, m1)) ->
  Mat_depth mat_b = CV_8U -> m_rows mat_b = m_rows mat ->
  Mat_empty mat_b = false ->
  mat2Image mat fmt m = mat2Image mat_b fmt m1.
Proof.
  intros Hne Hconv Hd Hrows Hne'.
  unfold mat2Image. rewrite Hne, Hne'.
  assert (to_8bit mat m = Some (mat_b, m1)) as E.
  { unfold to_8bit. destruct Hconv as [[-> Hc]|[-> Hc]]; by eval_eqb. }
  assert (to_8bit mat_b m1 = Some (mat_b, m1)) as E'.
  { unfold to_8bit. by rewrite Hd. }
  unfold bind. rewrite E, E'. by rewrite Hrows.
Qed.

(** X24: on the way to Indexed8 a matrix of type CV_8UC3 or CV_8UC4 is
    first converted by OpenCV to grey, with the code BGR2GRAY or
    BGRA2GRAY; when OpenCV returns a non-empty matrix of type CV_8UC1,
    [mat2Image] gives what it gives on that matrix, and if its rows lie in
    the store the image has its size and its bytes. *)
Theorem mat2Image_indexed8_grays_first (mat gray : Mat) (m m1 : mem) :
  Mat_empty mat = false ->
  (m_type mat = CV_8UC3 /\ cv_cvtColor mat CV_BGR2GRAY 1 m = Some (gray, m1)) \/
  (m_type mat = CV_8UC4 /\ cv_cvtColor mat CV_BGRA2GRAY 1 m = Some (gray, m1)) ->
  m_type gray = CV_8UC1 -> Mat_empty gray = false ->
  mat2Image mat Format_Indexed8 m = mat2Image gray Format_Indexed8 m1 /\
  (Mat_ok m1 gray ->
   exists out m',
     mat2Image mat Format_Indexed8 m = Some (out, m') /\
     QImage_width out = m_cols gray /\ QImage_height out = m_rows gray /\
     forall i k, 0 <= i < m_rows gray -> 0 <= k < m_cols gray ->
       QImage_byte m' out i k = Mat_byte m1 gray i k).
Proof.
  intros Hne Hconv Htype Hne'.
  assert (mat2Image mat Format_Indexed8 m = mat2Image gray Format_Indexed8 m1)
    as Heq.
  { unfold mat2Image. rewrite Hne, Hne'.
    assert (to_8bit mat m = Some (mat, m)) as E.
    { unfold to_8bit, Mat_depth. by destruct Hconv as [[-> _]|[-> _]]. }
    assert (to_8bit gray m1 = Some (gray, m1)) as E'.
    { unfold to_8bit, Mat_depth. by rewrite Htype. }
    unfold bind. rewrite E, E'.
    rewrite !bool_decide_eq_false_2 by done.
    rewrite bool_decide_eq_true_2 by done.
    rewrite Htype.
    destruct Hconv as [[-> Hc]|[-> Hc]]; eval_eqb; by rewrite Hc. }
  split; [exact Heq|]. intros Hok. rewrite Heq.
  destruct (mat2Image_indexed8 gray m1 Hok Htype)
    as (out & m' & Hrun & _ & _ & Hw & Hh & _ & Hl).
  by exists out, m'.
Qed.

End LibraryConversions.

(** [image2Mat_byte] reads bytes of the rows of pixels only. *)
Lemma image2Mat_byte_ext (m1 m2 : mem) (image : QImage) (ch i k : Z) :
  canonical (QImage_format image) -> ch = 1 \/ ch = 3 \/ ch = 4 ->
  0 <= k < QImage_width image * ch ->
  (forall k', 0 <= k' < QImage_row_bytes image ->
     byte_at m1 (QImage_scanLine image i +ₚ k') =
     byte_at m2 (QImage_scanLine image i +ₚ k')) ->
  image2Mat_byte m1 image ch i k = image2Mat_byte m2 image ch i k.
Proof.
  intros Hcan Hch Hk Hb. unfold image2Mat_byte, src_px, QImage_row_bytes in *.
  cbv zeta.
  set (s := QImage_depth image `quot` 8) in *.
  assert (s = 1 \/ s = 3 \/ s = 4) as Hs.
  { unfold s. destruct (canonical_depth image Hcan) as [[_ ->]|[[_ ->]|[_ ->]]]; lia. }
  destruct (pixel_of_offset ch k ltac:(lia)) as [Hkd Ht].
  assert (0 <= k / ch < QImage_width image) as Hj.
  { split; [apply Z.div_pos; lia|apply Z.div_lt_upper_bound; lia]. }
  rewrite !ptr_add_add.
  destruct (ch =? 1) eqn:E1.
  - destruct (s =? 1) eqn:E2.
    + apply Hb. nia.
    + rewrite <- (Z.add_0_r (k / ch * s)) at 1 4.
      rewrite !(Hb (k / ch * s + _)) by nia. done.
  - destruct (s =? 1) eqn:E2.
    + destruct (k mod ch =? 3); [done|]. apply Hb. nia.
    + destruct ((s =? 3) && (k mod ch =? 3)) eqn:E3; [done|].
      apply Hb. apply andb_false_iff in E3. nia.
Qed.

(** [mat2Image_byte] reads bytes of the rows of pixels only. *)
Lemma mat2Image_byte_ext (m1 m2 : mem) (mat : Mat) (cn bpp i k : Z) :
  cn = 1 \/ cn = 3 \/ cn = 4 -> bpp = 4 \/ bpp = 3 \/ (bpp = 1 /\ cn = 1) ->
  0 <= k < m_cols mat * bpp ->
  (forall k', 0 <= k' < m_cols mat * cn ->
     byte_at m1 (Mat_row_data mat i +ₚ k') =
     byte_at m2 (Mat_row_data mat i +ₚ k')) ->
  mat2Image_byte m1 mat cn bpp i k = mat2Image_byte m2 mat cn bpp i k.
Proof.
  intros Hcn Hbpp Hk Hb. unfold mat2Image_byte. cbv zeta.
  destruct (pixel_of_offset bpp k ltac:(lia)) as [Hkd Ht].
  assert (0 <= k / bpp < m_cols mat) as Hj.
  { split; [apply Z.div_pos; lia|apply Z.div_lt_upper_bound; lia]. }
  destruct ((bpp =? 4) && (k mod bpp =? 3) && negb (cn =? 4)) eqn:E; [done|].
  rewrite !Mat_at_row. apply Hb.
  destruct (cn =? 1) eqn:E1; [lia|].
  destruct (cn =? 4) eqn:E4; [lia|].
  assert (cn = 3) as -> by lia.
  destruct (bpp =? 4) eqn:E5; [|lia].
  destruct (k mod bpp =? 3) eqn:E6; [done|]. lia.
Qed.

Section Padding.
Context `{Libs}.

(** X25: the matrix [image2Mat] returns depends on the bytes of the rows
    of pixels of the image only: in two stores in which these are the
    same, whatever the padding of the scan lines and the rest of the
    stores hold, it returns matrices of the same type and size with the
    same bytes in their rows. *)
Theorem image2Mat_ignores_padding (m1 m2 : mem) (img : QImage) (ch : Z) :
  QImage_ok m1 img -> QImage_ok m2 img -> canonical (QImage_format img) ->
  ch = 0 \/ ch = 1 \/ ch = 3 \/ ch = 4 ->
  (forall i k, 0 <= i < QImage_height img -> 0 <= k < QImage_row_bytes img ->
     QImage_byte m1 img i k = QImage_byte m2 img i k) ->
  exists mat1 m1' mat2 m2',
    image2Mat img ch m1 = Some (mat1, m1') /\
    image2Mat img ch m2 = Some (mat2, m2') /\
    m_type mat1 = m_type mat2 /\ m_rows mat1 = m_rows mat2 /\
    m_cols mat1 = m_cols mat2 /\ m_step mat1 = m_step mat2 /\
    forall i k, 0 <= i < m_rows mat1 -> 0 <= k < Mat_row_bytes mat1 ->
      is_Some (Mat_byte m1' mat1 i k) /\
      Mat_byte m1' mat1 i k = Mat_byte m2' mat2 i k.
Proof.
  intros Hok1 Hok2 Hcan Hch Hsame.
  destruct (image2Mat_ok_spec img ch m1 Hok1 Hcan Hch)
    as (Hc & m1' & Hrun1 & _ & _ & Hl1).
  destruct (image2Mat_ok_spec img ch m2 Hok2 Hcan Hch)
    as (_ & m2' & Hrun2 & _ & _ & Hl2).
  cbv zeta in *.
  set (c := if ch =? 0 then QImage_depth img `quot` 8 else ch) in *.
  eexists _, m1', _, m2'. split; [exact Hrun1|]. split; [exact Hrun2|].
  do 4 (split; [done|]). intros i k Hi Hk.
  unfold Mat_row_bytes in Hk. cbn [m_rows m_cols m_type] in Hi, Hk.
  rewrite (CV_ELEM_SIZE_8UC c Hc) in Hk.
  unfold Mat_byte. rewrite Hl1 by done.
  split; [done|].
  pose proof (Hl2 i k Hi Hk) as Hl2'. cbn [Mat_row_data m_data m_step] in *.
  rewrite Hl2'. f_equal.
  apply image2Mat_byte_ext; try done.
  intros k' Hk'. unfold byte_at. f_equal. by apply Hsame.
Qed.

(** X26: the image [mat2Image] returns depends on the bytes of the rows
    of pixels of the matrix only: in two stores in which these are the
    same, whatever the padding of the rows and the rest of the stores
    hold, it returns images of the same format and size with the same
    bytes in their rows of pixels. *)
Theorem mat2Image_ignores_padding
    (m1 m2 : mem) (mat : Mat) (fmt : Format) (cn : Z) :
  Mat_ok m1 mat -> Mat_ok m2 mat -> m_type mat = CV_8UC cn ->
  cn = 1 \/ cn = 3 \/ cn = 4 ->
  fmt = Format_RGB32 \/ fmt = Format_RGB888 \/ (fmt = Format_Indexed8 /\ cn = 1) ->
  (forall i k, 0 <= i < m_rows mat -> 0 <= k < Mat_row_bytes mat ->
     Mat_byte m1 mat i k = Mat_byte m2 mat i k) ->
  exists out1 m1' out2 m2',
    mat2Image mat fmt m1 = Some (out1, m1') /\
    mat2Image mat fmt m2 = Some (out2, m2') /\
    QImage_format out1 = QImage_format out2 /\
    QImage_width out1 = QImage_width out2 /\
    QImage_height out1 = QImage_height out2 /\
    QImage_bytesPerLine out1 = QImage_bytesPerLine out2 /\
    forall i k, 0 <= i < QImage_height out1 -> 0 <= k < QImage_row_bytes out1 ->
      is_Some (QImage_byte m1' out1 i k) /\
      QImage_byte m1' out1 i k = QImage_byte m2' out2 i k.
Proof.
  intros Hok1 Hok2 Htype Hcn Hfmt Hsame.
  destruct (mat2Image_spec mat fmt cn m1 Hok1 Htype Hcn Hfmt)
    as (m1' & Hrun1 & _ & _ & Hl1).
  destruct (mat2Image_spec mat fmt cn m2 Hok2 Htype Hcn Hfmt)
    as (m2' & Hrun2 & _ & _ & Hl2).
  cbv zeta in *.
  set (bpp := bytes_per_pixel fmt) in *.
  assert (bpp = 4 \/ bpp = 3 \/ (bpp = 1 /\ cn = 1)) as Hbpp.
  { unfold bpp. destruct Hfmt as [->|[->|[-> ->]]]; auto. }
  assert (Mat_row_bytes mat = m_cols mat * cn) as Hrb.
  { unfold Mat_row_bytes. by rewrite Htype, (CV_ELEM_SIZE_8UC cn Hcn). }
  rewrite Hrb in Hsame.
  eexists _, m1', _, m2'. split; [exact Hrun1|]. split; [exact Hrun2|].
  do 4 (split; [done|]). intros i k Hi Hk.
  unfold QImage_row_bytes in Hk. cbn in Hi, Hk. fold (bytes_per_pixel fmt) in Hk.
  fold bpp in Hk.
  unfold QImage_byte. rewrite Hl1 by done. split; [done|].
  pose proof (Hl2 i k Hi Hk) as Hl2'.
  cbn [QImage_scanLine qd_data qd_bytes_per_line] in *.
  rewrite Hl2'. f_equal.
  apply mat2Image_byte_ext; try done.
  intros k' Hk'. unfold byte_at. f_equal. by apply Hsame.
Qed.

End Padding.

(** * The further properties on the inputs of the examples *)

Lemma image2Mat_empty_iff_bad_channels_witness :
  QImage_ok mem_rgb img_rgb /\ canonical (QImage_format img_rgb) /\
  exists mat m',
    @image2Mat eval_libs img_rgb 2 mem_rgb = Some (mat, m') /\
    Mat_empty mat = true.
Proof.
  assert (QImage_ok mem_rgb img_rgb) as Hok
    by (apply QImage_okb_ok; vm_compute; reflexivity).
  assert (canonical (QImage_format img_rgb)) as Hcan by (right; left; reflexivity).
  split; [exact Hok|]. split; [exact Hcan|].
  destruct (@image2Mat_empty_iff_bad_channels eval_libs mem_rgb img_rgb 2 Hok Hcan)
    as (mat & m' & Hrun & Hiff & _).
  exists mat, m'. split; [exact Hrun|]. apply Hiff. lia.
Defined.

Lemma image2Mat_result_shape_witness :
  QImage_ok mem_rgb img_rgb /\ canonical (QImage_format img_rgb) /\
  exists mat m',
    @image2Mat eval_libs img_rgb 0 mem_rgb = Some (mat, m') /\
    Mat_channels mat = 3.
Proof.
  assert (QImage_ok mem_rgb img_rgb) as Hok
    by (apply QImage_okb_ok; vm_compute; reflexivity).
  assert (canonical (QImage_format img_rgb)) as Hcan by (right; left; reflexivity).
  split; [exact Hok|]. split; [exact Hcan|].
  destruct (@image2Mat_result_shape eval_libs mem_rgb img_rgb 0 Hok Hcan
              (or_introl eq_refl))
    as (mat & m' & Hrun & _ & _ & _ & Hch & _).
  exists mat, m'. split; [exact Hrun|exact Hch].
Defined.

Lemma image2Mat_fresh_storage_witness :
  QImage_ok mem_bgra img_bgra /\ canonical (QImage_format img_bgra) /\
  exists mat m',
    @image2Mat eval_libs img_bgra 3 mem_bgra = Some (mat, m') /\
    p_block (m_data mat) <> p_block (QImage_bits img_bgra).
Proof.
  assert (QImage_ok mem_bgra img_bgra) as Hok
    by (apply QImage_okb_ok; vm_compute; reflexivity).
  assert (canonical (QImage_format img_bgra)) as Hcan
    by (right; right; left; reflexivity).
  split; [exact Hok|]. split; [exact Hcan|].
  destruct (@image2Mat_fresh_storage eval_libs mem_bgra img_bgra 3 Hok Hcan
              (or_intror (or_intror (or_introl eq_refl))))
    as (mat & m' & Hrun & _ & Hne & _).
  exists mat, m'. split; [exact Hrun|exact Hne].
Defined.

Lemma image2Mat_auto_deep_copy_witness :
  QImage_ok mem_rgb img_rgb /\ canonical (QImage_format img_rgb) /\
  exists mat m',
    @image2Mat eval_libs img_rgb 0 mem_rgb = Some (mat, m') /\
    Mat_byte m' mat 0 2 = QImage_byte mem_rgb img_rgb 0 2.
Proof.
  assert (QImage_ok mem_rgb img_rgb) as Hok
    by (apply QImage_okb_ok; vm_compute; reflexivity).
  assert (canonical (QImage_format img_rgb)) as Hcan by (right; left; reflexivity).
  split; [exact Hok|]. split; [exact Hcan|].
  destruct (@image2Mat_auto_deep_copy eval_libs mem_rgb img_rgb Hok Hcan)
    as (mat & m' & Hrun & _ & _ & _ & _ & Hb).
  exists mat, m'. split; [exact Hrun|].
  apply (Hb 0 2); vm_compute; split; congruence.
Defined.

Lemma image2Mat_gray_replicated_witness :
  QImage_ok mem_gray img_gray /\ QImage_format img_gray = Format_Indexed8 /\
  exists mat m' g,
    @image2Mat eval_libs img_gray 3 mem_gray = Some (mat, m') /\
    QImage_byte mem_gray img_gray 0 0 = Some g /\
    Mat_byte m' mat 0 2 = Some g.
Proof.
  assert (QImage_ok mem_gray img_gray) as Hok
    by (apply QImage_okb_ok; vm_compute; reflexivity).
  split; [exact Hok|]. split; [reflexivity|].
  destruct (@image2Mat_gray_replicated eval_libs mem_gray img_gray 3 Hok eq_refl
              (or_introl eq_refl))
    as (mat & m' & Hrun & _ & Hb).
  destruct (Hb 0 0 2) as (g & Hg1 & Hg2); [vm_compute; split; congruence ..|].
  exists mat, m', g. split; [exact Hrun|]. split; [exact Hg1|exact Hg2].
Defined.

Lemma image2Mat_keeps_byte_order_witness :
  QImage_ok mem_bgra img_bgra /\ QImage_format img_bgra = Format_RGB32 /\
  exists mat m' v,
    @image2Mat eval_libs img_bgra 3 mem_bgra = Some (mat, m') /\
    QImage_byte mem_bgra img_bgra 0 2 = Some v /\
    Mat_byte m' mat 0 2 = Some v.
Proof.
  assert (QImage_ok mem_bgra img_bgra) as Hok
    by (apply QImage_okb_ok; vm_compute; reflexivity).
  split; [exact Hok|]. split; [reflexivity|].
  destruct (@image2Mat_keeps_byte_order eval_libs mem_bgra img_bgra 3 Hok
              (or_intror (or_introl eq_refl)) (or_introl eq_refl))
    as (mat & m' & Hrun & _ & Hb).
  destruct (Hb 0 0 2) as (v & Hv1 & Hv2); [vm_compute; split; congruence ..|].
  exists mat, m', v. split; [exact Hrun|]. split; [exact Hv1|exact Hv2].
Defined.

Lemma image2Mat_ignores_color_table_witness :
  canonical (QImage_format img_gray) /\
  @image2Mat eval_libs (QImage_setColorTable img_gray [qRgb 255 0 0]) 1 mem_gray =
    @image2Mat eval_libs img_gray 1 mem_gray.
Proof.
  assert (canonical (QImage_format img_gray)) as Hcan by (left; reflexivity).
  split; [exact Hcan|].
  exact (@image2Mat_ignores_color_table eval_libs img_gray [qRgb 255 0 0] 1
           mem_gray Hcan).
Defined.

Lemma mat2Image_result_shape_witness :
  Mat_ok mem_gray mat_gray /\ m_type mat_gray = CV_8UC 1 /\
  exists out m',
    @mat2Image eval_libs mat_gray Format_Indexed8 mem_gray = Some (out, m') /\
    QImage_isNull out = false.
Proof.
  assert (Mat_ok mem_gray mat_gray) as Hok
    by (apply Mat_okb_ok; vm_compute; reflexivity).
  split; [exact Hok|]. split; [reflexivity|].
  destruct (@mat2Image_result_shape eval_libs mem_gray mat_gray Format_Indexed8 1
              Hok eq_refl (or_introl eq_refl)
              (or_intror (or_intror (conj eq_refl eq_refl))))
    as (out & m' & Hrun & Hnn & _).
  exists out, m'. split; [exact Hrun|exact Hnn].
Defined.

Lemma mat2Image_fresh_storage_witness :
  Mat_ok mem_rgb mat_bgr /\ m_type mat_bgr = CV_8UC 3 /\
  exists out m',
    @mat2Image eval_libs mat_bgr Format_RGB32 mem_rgb = Some (out, m') /\
    p_block (QImage_bits out) <> p_block (m_data mat_bgr).
Proof.
  assert (Mat_ok mem_rgb mat_bgr) as Hok
    by (apply Mat_okb_ok; vm_compute; reflexivity).
  split; [exact Hok|]. split; [reflexivity|].
  destruct (@mat2Image_fresh_storage eval_libs mem_rgb mat_bgr Format_RGB32 3
              Hok eq_refl (or_intror (or_introl eq_refl)) (or_introl eq_refl))
    as (out & m' & Hrun & _ & Hne & _).
  exists out, m'. split; [exact Hrun|exact Hne].
Defined.

Lemma mat2Image_gray_replicated_witness :
  Mat_ok mem_gray mat_gray /\ m_type mat_gray = CV_8UC1 /\
  exists out m' g,
    @mat2Image eval_libs mat_gray Format_RGB888 mem_gray = Some (out, m') /\
    Mat_byte mem_gray mat_gray 0 0 = Some g /\
    QImage_byte m' out 0 2 = Some g.
Proof.
  assert (Mat_ok mem_gray mat_gray) as Hok
    by (apply Mat_okb_ok; vm_compute; reflexivity).
  split; [exact Hok|]. split; [reflexivity|].
  destruct (@mat2Image_gray_replicated eval_libs mem_gray mat_gray Format_RGB888
              Hok eq_refl (or_intror eq_refl))
    as (out & m' & Hrun & Hb).
  destruct (Hb 0 0 2) as (g & Hg1 & Hg2); [vm_compute; split; congruence ..|].
  exists out, m', g. split; [exact Hrun|]. split; [exact Hg1|exact Hg2].
Defined.

Lemma mat2Image_keeps_byte_order_witness :
  Mat_ok mem_bgra mat_bgra /\ m_type mat_bgra = CV_8UC 4 /\
  exists out m' v,
    @mat2Image eval_libs mat_bgra Format_RGB888 mem_bgra = Some (out, m') /\
    Mat_byte mem_bgra mat_bgra 0 2 = Some v /\
    QImage_byte m' out 0 2 = Some v.
Proof.
  assert (Mat_ok mem_bgra mat_bgra) as Hok
    by (apply Mat_okb_ok; vm_compute; reflexivity).
  split; [exact Hok|]. split; [reflexivity|].
  destruct (@mat2Image_keeps_byte_order eval_libs mem_bgra mat_bgra Format_RGB888 4
              Hok eq_refl (or_intror eq_refl) (or_intror eq_refl))
    as (out & m' & Hrun & Hb).
  destruct (Hb 0 0 2) as (v & Hv1 & Hv2); [vm_compute; split; congruence ..|].
  exists out, m', v. split; [exact Hrun|]. split; [exact Hv1|exact Hv2].
Defined.

Lemma mat2Image_unsupported_gives_null_witness :
  (Mat_depth mat_8s <> CV_8U /\ Mat_depth mat_8s <> CV_16U /\
   Mat_depth mat_8s <> CV_32F) /\
  @mat2Image eval_libs mat_8s Format_RGB32 mem_gray = Some (QImage_null, mem_gray).
Proof.
  assert (Mat_depth mat_8s <> CV_8U /\ Mat_depth mat_8s <> CV_16U /\
          Mat_depth mat_8s <> CV_32F) as Hd.
  { vm_compute. repeat split; congruence. }
  split; [exact Hd|].
  exact (@mat2Image_unsupported_gives_null eval_libs mem_gray mat_8s Format_RGB32
           (or_introl Hd)).
Defined.

Lemma mat2Image_unchecked_channels_witness :
  Mat_empty mat_2ch = false /\ Mat_depth mat_2ch = CV_8U /\
  m_type mat_2ch <> CV_8UC1 /\ m_type mat_2ch <> CV_8UC3 /\
  m_type mat_2ch <> CV_8UC4 /\
  exists out, @mat2Image eval_libs mat_2ch Format_RGB32 mem_gray =
                Some (out, mem_gray ++ [[Byte.x00; Byte.x00; Byte.x00; Byte.x00]]).
Proof.
  assert (m_type mat_2ch <> CV_8UC1) as H1 by (vm_compute; congruence).
  assert (m_type mat_2ch <> CV_8UC3) as H3 by (vm_compute; congruence).
  assert (m_type mat_2ch <> CV_8UC4) as H4 by (vm_compute; congruence).
  do 2 (split; [reflexivity|]). do 3 (split; [assumption|]).
  eexists.
  exact (@mat2Image_unchecked_channels eval_libs mem_gray mat_2ch Format_RGB32
           eq_refl eq_refl eq_refl eq_refl H1 H3 H4 (or_introl eq_refl)).
Defined.

Lemma mat2Image_indexed8_takes_leading_bytes_witness :
  Mat_ok mem_gray mat_2ch /\ Mat_depth mat_2ch = CV_8U /\
  exists out m',
    @mat2Image eval_libs mat_2ch Format_Indexed8 mem_gray = Some (out, m') /\
    QImage_byte m' out 0 0 = Mat_byte mem_gray mat_2ch 0 0.
Proof.
  assert (Mat_ok mem_gray mat_2ch) as Hok
    by (apply Mat_okb_ok; vm_compute; reflexivity).
  assert (m_type mat_2ch <> CV_8UC3) as H3 by (vm_compute; congruence).
  assert (m_type mat_2ch <> CV_8UC4) as H4 by (vm_compute; congruence).
  split; [exact Hok|]. split; [reflexivity|].
  destruct (@mat2Image_indexed8_takes_leading_bytes eval_libs mem_gray mat_2ch
              Hok eq_refl H3 H4)
    as (out & m' & Hrun & _ & _ & _ & Hb).
  exists out, m'. split; [exact Hrun|].
  apply (Hb 0 0); vm_compute; split; congruence.
Defined.

Lemma round_trip_mat_lossless_witness :
  Mat_ok mem_bgra mat_bgra /\ m_type mat_bgra = CV_8UC 4 /\
  exists out m1 mat' m2,
    @mat2Image eval_libs mat_bgra Format_RGB32 mem_bgra = Some (out, m1) /\
    @image2Mat eval_libs out 0 m1 = Some (mat', m2) /\
    Mat_byte m2 mat' 0 3 = Mat_byte mem_bgra mat_bgra 0 3.
Proof.
  assert (Mat_ok mem_bgra mat_bgra) as Hok
    by (apply Mat_okb_ok; vm_compute; reflexivity).
  split; [exact Hok|]. split; [reflexivity|].
  destruct (@round_trip_mat_lossless eval_libs mem_bgra mat_bgra 4 Format_RGB32
              Hok eq_refl (or_intror (or_intror (conj eq_refl eq_refl))))
    as (out & m1 & mat' & m2 & Hrun1 & Hrun2 & _ & _ & _ & _ & Hb).
  exists out, m1, mat', m2. split; [exact Hrun1|]. split; [exact Hrun2|].
  apply (Hb 0 3); vm_compute; split; congruence.
Defined.

Lemma round_trip_gray_through_color_witness :
  Mat_ok mem_gray mat_gray /\ m_type mat_gray = CV_8UC1 /\
  exists out m1 mat' m2 y,
    @mat2Image eval_libs mat_gray Format_RGB32 mem_gray = Some (out, m1) /\
    @image2Mat eval_libs out 1 m1 = Some (mat', m2) /\
    Mat_byte m2 mat' 0 0 = Some y.
Proof.
  assert (Mat_ok mem_gray mat_gray) as Hok
    by (apply Mat_okb_ok; vm_compute; reflexivity).
  split; [exact Hok|]. split; [reflexivity|].
  destruct (@round_trip_gray_through_color eval_libs mem_gray mat_gray Format_RGB32
              Hok eq_refl (or_introl eq_refl))
    as (out & m1 & mat' & m2 & Hrun1 & Hrun2 & _ & _ & _ & Hb).
  destruct (Hb 0 0) as (g & y & _ & Hy & _); [vm_compute; split; congruence ..|].
  exists out, m1, mat', m2, y. split; [exact Hrun1|]. split; [exact Hrun2|exact Hy].
Defined.

Lemma shared_round_trip_image_witness :
  QImage_ok mem_bgra img_bgra /\ canonical (QImage_format img_bgra) /\
  exists mat out,
    image2Mat_shared img_bgra mem_bgra = Some (mat, mem_bgra) /\
    mat2Image_shared mat mem_bgra = Some (out, mem_bgra) /\
    QImage_format out = Format_ARGB32.
Proof.
  assert (QImage_ok mem_bgra img_bgra) as Hok
    by (apply QImage_okb_ok; vm_compute; reflexivity).
  assert (canonical (QImage_format img_bgra)) as Hcan
    by (right; right; left; reflexivity).
  split; [exact Hok|]. split; [exact Hcan|].
  destruct (shared_round_trip_image mem_bgra img_bgra Hok Hcan)
    as (mat & out & Hrun1 & Hrun2 & _ & _ & _ & _ & _ & Hf & _).
  exists mat, out. split; [exact Hrun1|]. split; [exact Hrun2|exact Hf].
Defined.

Lemma shared_round_trip_mat_witness :
  Mat_ok mem_rgb_2rows mat_bgr_2rows /\ m_type mat_bgr_2rows = CV_8UC 3 /\
  exists out,
    mat2Image_shared mat_bgr_2rows mem_rgb_2rows = Some (out, mem_rgb_2rows) /\
    image2Mat_shared out mem_rgb_2rows = Some (mat_bgr_2rows, mem_rgb_2rows).
Proof.
  assert (Mat_ok mem_rgb_2rows mat_bgr_2rows) as Hok
    by (apply Mat_okb_ok; vm_compute; reflexivity).
  split; [exact Hok|]. split; [reflexivity|].
  destruct (shared_round_trip_mat mem_rgb_2rows mat_bgr_2rows 3 Hok eq_refl
              (or_intror (or_introl eq_refl)))
    as (out & Hrun1 & _ & Hrun2).
  exists out. split; [exact Hrun1|exact Hrun2].
Defined.

Lemma image2Mat_copy_agrees_with_view_witness :
  QImage_ok mem_rgb_2rows img_rgb_2rows /\
  canonical (QImage_format img_rgb_2rows) /\
  exists copy m' view,
    @image2Mat eval_libs img_rgb_2rows 0 mem_rgb_2rows = Some (copy, m') /\
    image2Mat_shared img_rgb_2rows mem_rgb_2rows = Some (view, mem_rgb_2rows) /\
    m_step copy <= m_step view.
Proof.
  assert (QImage_ok mem_rgb_2rows img_rgb_2rows) as Hok
    by (apply QImage_okb_ok; vm_compute; reflexivity).
  assert (canonical (QImage_format img_rgb_2rows)) as Hcan
    by (right; left; reflexivity).
  split; [exact Hok|]. split; [exact Hcan|].
  destruct (@image2Mat_copy_agrees_with_view eval_libs mem_rgb_2rows img_rgb_2rows
              Hok Hcan)
    as (copy & m' & view & Hrun1 & Hrun2 & _ & _ & _ & _ & _ & Hst & _).
  exists copy, m', view. split; [exact Hrun1|]. split; [exact Hrun2|exact Hst].
Defined.

Lemma mat2Image_copy_agrees_with_view_witness :
  Mat_ok mem_bgra mat_bgra /\ m_type mat_bgra = CV_8UC 4 /\
  exists copy m' view,
    @mat2Image eval_libs mat_bgra Format_RGB32 mem_bgra = Some (copy, m') /\
    mat2Image_shared mat_bgra mem_bgra = Some (view, mem_bgra) /\
    QImage_format copy = Format_RGB32 /\ QImage_format view = Format_ARGB32.
Proof.
  assert (Mat_ok mem_bgra mat_bgra) as Hok
    by (apply Mat_okb_ok; vm_compute; reflexivity).
  split; [exact Hok|]. split; [reflexivity|].
  destruct (@mat2Image_copy_agrees_with_view eval_libs mem_bgra mat_bgra 4
              Format_RGB32 Hok eq_refl
              (or_intror (or_intror (conj eq_refl eq_refl))))
    as (copy & m' & view & Hrun1 & Hrun2 & _ & _ & _ & _ & Hf1 & Hf2 & _).
  exists copy, m', view. split; [exact Hrun1|]. split; [exact Hrun2|].
  split; [exact Hf1|exact Hf2].
Defined.

Lemma image2Mat_converts_first_witness :
  QImage_isNull img_mono = false /\ ~ canonical (QImage_format img_mono) /\
  @QImage_convertToFormat shape_libs img_mono
     (read_format (QImage_format img_mono)) mem_gray =
    Some (img_mono_as_indexed8, mem_mono_as_indexed8) /\
  QImage_isNull img_mono_as_indexed8 = false /\
  QImage_format img_mono_as_indexed8 = read_format (QImage_format img_mono) /\
  QImage_width img_mono_as_indexed8 = QImage_width img_mono /\
  @image2Mat shape_libs img_mono 0 mem_gray =
    @image2Mat shape_libs img_mono_as_indexed8 0 mem_mono_as_indexed8.
Proof.
  assert (~ canonical (QImage_format img_mono)) as Hn.
  { unfold canonical. cbn. intros [?|[?|[?|?]]]; congruence. }
  split; [reflexivity|]. split; [exact Hn|]. do 4 (split; [reflexivity|]).
  exact (proj2 (@image2Mat_converts_first shape_libs img_mono img_mono_as_indexed8 0
                  mem_gray mem_mono_as_indexed8 (or_introl eq_refl) eq_refl Hn
                  eq_refl eq_refl eq_refl eq_refl)).
Defined.

Lemma mat2Image_scales_first_witness :
  Mat_empty mat_16u = false /\ Mat_depth mat_16u = CV_16U /\
  @Mat_convertTo shape_libs mat_16u CV_8U Scale_255_over_65535 mem_gray =
    Some (mat_16u_as_8u, mem_16u_as_8u) /\
  Mat_depth mat_16u_as_8u = CV_8U /\ m_rows mat_16u_as_8u = m_rows mat_16u /\
  Mat_empty mat_16u_as_8u = false /\
  @mat2Image shape_libs mat_16u Format_RGB32 mem_gray =
    @mat2Image shape_libs mat_16u_as_8u Format_RGB32 mem_16u_as_8u.
Proof.
  do 6 (split; [reflexivity|]).
  exact (@mat2Image_scales_first shape_libs mat_16u mat_16u_as_8u Format_RGB32
           mem_gray mem_16u_as_8u eq_refl (or_introl (conj eq_refl eq_refl))
           eq_refl eq_refl eq_refl).
Defined.

Lemma mat2Image_indexed8_grays_first_witness :
  Mat_empty mat_bgr = false /\ m_type mat_bgr = CV_8UC3 /\
  @cv_cvtColor shape_libs mat_bgr CV_BGR2GRAY 1 mem_rgb =
    Some (mat_bgr_as_gray, mem_bgr_as_gray) /\
  m_type mat_bgr_as_gray = CV_8UC1 /\ Mat_empty mat_bgr_as_gray = false /\
  @mat2Image shape_libs mat_bgr Format_Indexed8 mem_rgb =
    @mat2Image shape_libs mat_bgr_as_gray Format_Indexed8 mem_bgr_as_gray.
Proof.
  do 5 (split; [reflexivity|]).
  exact (proj1 (@mat2Image_indexed8_grays_first shape_libs mat_bgr mat_bgr_as_gray
                  mem_rgb mem_bgr_as_gray eq_refl
                  (or_introl (conj eq_refl eq_refl)) eq_refl eq_refl)).
Defined.

Lemma image2Mat_ignores_padding_witness :
  QImage_ok mem_rgb img_rgb /\ QImage_ok mem_rgb_pad img_rgb /\
  canonical (QImage_format img_rgb) /\
  (forall i k, 0 <= i < QImage_height img_rgb ->
     0 <= k < QImage_row_bytes img_rgb ->
     QImage_byte mem_rgb img_rgb i k = QImage_byte mem_rgb_pad img_rgb i k) /\
  exists mat1 m1' mat2 m2',
    @image2Mat eval_libs img_rgb 4 mem_rgb = Some (mat1, m1') /\
    @image2Mat eval_libs img_rgb 4 mem_rgb_pad = Some (mat2, m2') /\
    Mat_byte m1' mat1 0 3 = Mat_byte m2' mat2 0 3.
Proof.
  assert (QImage_ok mem_rgb img_rgb) as Hok1
    by (apply QImage_okb_ok; vm_compute; reflexivity).
  assert (QImage_ok mem_rgb_pad img_rgb) as Hok2
    by (apply QImage_okb_ok; vm_compute; reflexivity).
  assert (canonical (QImage_format img_rgb)) as Hcan by (right; left; reflexivity).
  assert (forall i k, 0 <= i < QImage_height img_rgb ->
            0 <= k < QImage_row_bytes img_rgb ->
            QImage_byte mem_rgb img_rgb i k = QImage_byte mem_rgb_pad img_rgb i k)
    as Hsame.
  { intros i k Hi Hk.
    change (QImage_height img_rgb) with 1 in Hi.
    change (QImage_row_bytes img_rgb) with 3 in Hk.
    assert (i = 0) as -> by lia.
    assert (k = 0 \/ k = 1 \/ k = 2) as [->|[->| ->]] by lia; reflexivity. }
  split; [exact Hok1|]. split; [exact Hok2|]. split; [exact Hcan|].
  split; [exact Hsame|].
  destruct (@image2Mat_ignores_padding eval_libs mem_rgb mem_rgb_pad img_rgb 4
              Hok1 Hok2 Hcan (or_intror (or_intror (or_intror eq_refl))) Hsame)
    as (mat1 & m1' & mat2 & m2' & Hrun1 & Hrun2 & _ & Hr & Hc & _ & Hb).
  exists mat1, m1', mat2, m2'. split; [exact Hrun1|]. split; [exact Hrun2|].
  vm_compute in Hrun1. injection Hrun1 as <- <-.
  apply (Hb 0 3); vm_compute; split; congruence.
Defined.

Lemma mat2Image_ignores_padding_witness :
  Mat_ok mem_rgb_2rows mat_bgr_2rows /\ Mat_ok mem_rgb_2rows_pad mat_bgr_2rows /\
  m_type mat_bgr_2rows = CV_8UC 3 /\
  (forall i k, 0 <= i < m_rows mat_bgr_2rows ->
     0 <= k < Mat_row_bytes mat_bgr_2rows ->
     Mat_byte mem_rgb_2rows mat_bgr_2rows i k =
     Mat_byte mem_rgb_2rows_pad mat_bgr_2rows i k) /\
  exists out1 m1' out2 m2',
    @mat2Image eval_libs mat_bgr_2rows Format_RGB32 mem_rgb_2rows =
      Some (out1, m1') /\
    @mat2Image eval_libs mat_bgr_2rows Format_RGB32 mem_rgb_2rows_pad =
      Some (out2, m2') /\
    QImage_byte m1' out1 1 2 = QImage_byte m2' out2 1 2.
Proof.
  assert (Mat_ok mem_rgb_2rows mat_bgr_2rows) as Hok1
    by (apply Mat_okb_ok; vm_compute; reflexivity).
  assert (Mat_ok mem_rgb_2rows_pad mat_bgr_2rows) as Hok2
    by (apply Mat_okb_ok; vm_compute; reflexivity).
  assert (forall i k, 0 <= i < m_rows mat_bgr_2rows ->
            0 <= k < Mat_row_bytes mat_bgr_2rows ->
            Mat_byte mem_rgb_2rows mat_bgr_2rows i k =
            Mat_byte mem_rgb_2rows_pad mat_bgr_2rows i k) as Hsame.
  { intros i k Hi Hk.
    change (m_rows mat_bgr_2rows) with 2 in Hi.
    change (Mat_row_bytes mat_bgr_2rows) with 3 in Hk.
    assert (i = 0 \/ i = 1) as [->| ->] by lia;
      (assert (k = 0 \/ k = 1 \/ k = 2) as [->|[->| ->]] by lia); reflexivity. }
  split; [exact Hok1|]. split; [exact Hok2|]. split; [reflexivity|].
  split; [exact Hsame|].
  destruct (@mat2Image_ignores_padding eval_libs mem_rgb_2rows mem_rgb_2rows_pad
              mat_bgr_2rows Format_RGB32 3 Hok1 Hok2 eq_refl
              (or_intror (or_introl eq_refl)) (or_introl eq_refl) Hsame)
    as (out1 & m1' & out2 & m2' & Hrun1 & Hrun2 & _ & _ & _ & _ & Hb).
  exists out1, m1', out2, m2'. split; [exact Hrun1|]. split; [exact Hrun2|].
  vm_compute in Hrun1. injection Hrun1 as <- <-.
  apply (Hb 1 2); vm_compute; split; congruence.
Defined.

Section MoreRoundTrips.
Context `{Libs}.

(** X27: an image of one of the four formats converted to a matrix with
    the automatic channel count and back to the format of as many bytes
    per pixel comes back with its size and every byte of its rows of
    pixels, the fourth byte of 32-bit pixels included; an ARGB32 image can
    only come back as RGB32. *)
Theorem round_trip_image_lossless (m : mem) (img : QImage) :
  QImage_ok m img -> canonical (QImage_format img) ->
  let fmt := if bool_decide (QImage_format img = Format_ARGB32)
             then Format_RGB32 else QImage_format img in
  exists mat m1 out m2,
    image2Mat img 0 m = Some (mat, m1) /\
    mat2Image mat fmt m1 = Some (out, m2) /\
    QImage_format out = fmt /\
    QImage_width out = QImage_width img /\
    QImage_height out = QImage_height img /\
    forall i k, 0 <= i < QImage_height img -> 0 <= k < QImage_row_bytes img ->
      is_Some (QImage_byte m img i k) /\
      QImage_byte m2 out i k = QImage_byte m img i k.
Proof.
  intros Hok Hcan fmt.
  destruct (image2Mat_ok_spec img 0 m Hok Hcan ltac:(by left))
    as (Hc & m1 & Hrun1 & Hmok & _ & Hl1).
  change (0 =? 0) with true in *. cbv iota in *.
  set (s := QImage_depth img `quot` 8) in *.
  set (mat := mkMat _ _ _ _ _) in *.
  assert (fmt = Format_RGB32 \/ fmt = Format_RGB888 \/
          (fmt = Format_Indexed8 /\ s = 1)) as Hfmt.
  { unfold fmt, s.
    destruct (canonical_depth img Hcan) as [[E ->]|[[E ->]|[[E|E] ->]]];
      rewrite E; cbn; tauto. }
  assert (bytes_per_pixel fmt = s) as Hbpp.
  { unfold fmt, s.
    destruct (canonical_depth img Hcan) as [[E ->]|[[E ->]|[[E|E] ->]]];
      by rewrite E. }
  destruct (mat2Image_spec mat fmt s m1 Hmok eq_refl Hc Hfmt)
    as (m2 & Hrun2 & _ & _ & Hl2).
  cbv zeta in Hl2, Hrun2. rewrite Hbpp in Hl2.
  eexists mat, m1, _, m2. split; [exact Hrun1|]. split; [exact Hrun2|].
  do 3 (split; [done|]). intros i k Hi Hk.
  destruct Hok as (_ & _ & _ & _ & Hv).
  split; [by apply Hv|].
  unfold QImage_byte at 1. rewrite (Hl2 i k) by done.
  rewrite mat2Image_byte_same by (done || lia).
  unfold byte_at at 1. rewrite Hl1 by done. cbn [default from_option id].
  unfold s. rewrite image2Mat_byte_same by (done || lia).
  symmetry. by apply load_byte_at, Hv.
Qed.

(** X28: a matrix of 3 channels converted to an RGB32 image and back to 3
    channels comes back with its type, its size and every byte of its
    rows of pixels: the byte 255 added to each pixel on the way is left
    out on the way back. *)
Theorem round_trip_bgr_through_rgb32 (m : mem) (mat : Mat) :
  Mat_ok m mat -> m_type mat = CV_8UC3 ->
  exists out m1 mat' m2,
    mat2Image mat Format_RGB32 m = Some (out, m1) /\
    image2Mat out 3 m1 = Some (mat', m2) /\
    m_type mat' = CV_8UC3 /\ m_rows mat' = m_rows mat /\
    m_cols mat' = m_cols mat /\
    forall i k, 0 <= i < m_rows mat -> 0 <= k < m_cols mat * 3 ->
      is_Some (Mat_byte m mat i k) /\
      Mat_byte m2 mat' i k = Mat_byte m mat i k.
Proof.
  intros Hok Htype.
  destruct (mat2Image_spec mat Format_RGB32 3 m Hok Htype ltac:(tauto)
              ltac:(tauto)) as (m1 & Hrun1 & Hiok & _ & Hl1).
  cbv zeta in Hl1, Hiok, Hrun1.
  change (bytes_per_pixel Format_RGB32) with 4 in Hl1.
  set (out := Some (mkQImageData _ _ _ _ _ _)) in *.
  assert (canonical (QImage_format out)) as Hcan by (right; right; by left).
  destruct (image2Mat_ok_spec out 3 m1 Hiok Hcan ltac:(tauto))
    as (_ & m2 & Hrun2 & _ & _ & Hl2).
  change (3 =? 0) with false in *. cbv iota in *.
  change (QImage_height out) with (m_rows mat) in Hl2.
  change (QImage_width out) with (m_cols mat) in Hl2.
  eexists out, m1, _, m2. split; [exact Hrun1|]. split; [exact Hrun2|].
  do 3 (split; [done|]). intros i k Hi Hk.
  destruct Hok as (_ & _ & _ & Hv).
  assert (valid m (Mat_row_data mat i +ₚ k)) as Hvk.
  { apply Hv; [done|]. unfold Mat_row_bytes. rewrite Htype.
    by change (CV_ELEM_SIZE CV_8UC3) with 3. }
  split; [exact Hvk|].
  unfold Mat_byte. rewrite Hl2 by done.
  rewrite (load_byte_at _ _ Hvk). f_equal.
  destruct (pixel_of_offset 3 k ltac:(lia)) as [Hkd Ht].
  assert (0 <= k / 3 < m_cols mat) as Hj.
  { split; [apply Z.div_pos; lia|apply Z.div_lt_upper_bound; lia]. }
  unfold image2Mat_byte. cbv zeta.
  change (QImage_depth out `quot` 8) with 4.
  change (3 =? 1) with false. change (4 =? 1) with false.
  change (4 =? 3) with false. cbv iota. cbn [andb].
  unfold src_px. rewrite ptr_add_add.
  unfold byte_at at 1. rewrite Hl1 by (done || lia).
  cbn [default from_option id]. unfold mat2Image_byte. cbv zeta.
  destruct (div_pixel 4 (k / 3) (k mod 3) ltac:(lia)) as [-> ->].
  assert ((k mod 3 =? 3) = false) as -> by lia.
  change (4 =? 4) with true. change (3 =? 1) with false. cbn [andb]. cbv iota.
  by rewrite Mat_at_offset.
Qed.

End MoreRoundTrips.

Lemma round_trip_image_lossless_witness :
  QImage_ok mem_bgra img_bgra /\ canonical (QImage_format img_bgra) /\
  exists mat m1 out m2,
    @image2Mat eval_libs img_bgra 0 mem_bgra = Some (mat, m1) /\
    @mat2Image eval_libs mat Format_RGB32 m1 = Some (out, m2) /\
    QImage_byte m2 out 0 3 = QImage_byte mem_bgra img_bgra 0 3.
Proof.
  assert (QImage_ok mem_bgra img_bgra) as Hok
    by (apply QImage_okb_ok; vm_compute; reflexivity).
  assert (canonical (QImage_format img_bgra)) as Hcan
    by (right; right; left; reflexivity).
  split; [exact Hok|]. split; [exact Hcan|].
  destruct (@round_trip_image_lossless eval_libs mem_bgra img_bgra Hok Hcan)
    as (mat & m1 & out & m2 & Hrun1 & Hrun2 & _ & _ & _ & Hb).
  exists mat, m1, out, m2. split; [exact Hrun1|]. split; [exact Hrun2|].
  apply (Hb 0 3); vm_compute; split; congruence.
Defined.

Lemma round_trip_bgr_through_rgb32_witness :
  Mat_ok mem_rgb mat_bgr /\ m_type mat_bgr = CV_8UC3 /\
  exists out m1 mat' m2,
    @mat2Image eval_libs mat_bgr Format_RGB32 mem_rgb = Some (out, m1) /\
    @image2Mat eval_libs out 3 m1 = Some (mat', m2) /\
    Mat_byte m2 mat' 0 2 = Mat_byte mem_rgb mat_bgr 0 2.
Proof.
  assert (Mat_ok mem_rgb mat_bgr) as Hok
    by (apply Mat_okb_ok; vm_compute; reflexivity).
  split; [exact Hok|]. split; [reflexivity|].
  destruct (@round_trip_bgr_through_rgb32 eval_libs mem_rgb mat_bgr Hok eq_refl)
    as (out & m1 & mat' & m2 & Hrun1 & Hrun2 & _ & _ & _ & Hb).
  exists out, m1, mat', m2. split; [exact Hrun1|]. split; [exact Hrun2|].
  apply (Hb 0 2); vm_compute; split; congruence.
Defined.

(** * The rescale of 16-bit matrices *)

(** [rescale_16U] gives the integer nearest to [v / 257], within a byte. *)
Lemma rescale_16U_nearest (v : Z) :
  0 <= v <= 65535 ->
  0 <= rescale_16U v <= 255 /\ 2 * Z.abs (257 * rescale_16U v - v) < 257.
Proof.
  intros Hv. unfold rescale_16U, saturate_cast_uchar, cvRound_ratio. cbv zeta.
  pose proof (Z.div_mod (v * 255) 65535 ltac:(lia)) as Hd.
  pose proof (Z.mod_pos_bound (v * 255) 65535 ltac:(lia)) as Hr.
  set (q := v * 255 / 65535) in *. set (r := (v * 255) mod 65535) in *.
  destruct (2 * r <? 65535) eqn:E1; [lia|].
  destruct (65535 <? 2 * r) eqn:E2; [lia|]. lia.
Qed.

(** [v / 257] is at least 1/514 away from every half-integer. *)
Lemma rescale_16U_margin (v k : Z) : 1 <= Z.abs (2 * v - 257 * (2 * k + 1)).
Proof. lia. Qed.

Lemma u16_at_range (m : mem) (p : ptr) : 0 <= u16_at m p <= 65535.
Proof.
  unfold u16_at. pose proof (uchar_val_range (byte_at m p)).
  pose proof (uchar_val_range (byte_at m (p +ₚ 1))). lia.
Qed.

Lemma valid_rows_validb (m : mem) (rowp : Z -> ptr) (h n : Z) :
  (forall i k, 0 <= i < h -> 0 <= k < n -> valid m (rowp i +ₚ k)) ->
  rows_validb m rowp h n = true.
Proof.
  intros Hv. unfold rows_validb. apply forallb_forall. intros i Hi.
  apply list_elem_of_In, elem_of_seqZ in Hi.
  apply forallb_forall. intros k Hk.
  apply list_elem_of_In, elem_of_seqZ in Hk.
  apply bool_decide_eq_true. apply Hv; lia.
Qed.

(** A store with one more block: the old addresses, and the new block. *)
Lemma load_app_old (m : mem) (blk : list uchar) (q : ptr) :
  p_block q <> Datatypes.S (length m) -> load (m ++ [blk]) q = load m q.
Proof.
  destruct q as [b o]. intros Hb. unfold load, block_of; simpl in *.
  destruct b as [|k]; [done|].
  destruct (decide (k < length m)%nat).
  - by rewrite lookup_app_l.
  - rewrite !lookup_ge_None_2; [done|lia|].
    rewrite length_app; simpl. lia.
Qed.

Lemma load_app_new (m : mem) (f : Z -> uchar) (n k : Z) :
  0 <= k < n ->
  load (m ++ [f <$> seqZ 0 n]) (Ptr (Datatypes.S (length m)) k) = Some (f k).
Proof.
  intros Hk. unfold load, block_of; simpl.
  rewrite list_lookup_middle by done. rewrite decide_True by lia.
  rewrite list_lookup_fmap, lookup_seqZ_lt by lia. simpl.
  f_equal. f_equal. lia.
Qed.

(** The types of 16-bit matrices of 1, 3 and 4 channels. *)
Lemma CV_16UC_facts (cn : Z) :
  cn = 1 \/ cn = 3 \/ cn = 4 ->
  CV_MAT_DEPTH (CV_MAKETYPE CV_16U cn) = CV_16U /\
  CV_MAT_CN (CV_MAKETYPE CV_16U cn) = cn /\
  CV_ELEM_SIZE (CV_MAKETYPE CV_16U cn) = cn * 2.
Proof. by intros [->|[->| ->]]. Qed.

(** The documented [convertTo] on a 16-bit matrix whose rows lie in the
    store: the 8-bit matrix it returns, and its elements. *)
Lemma convertTo_16U_8U_spec (mat : Mat) (cn : Z) (m : mem) :
  Mat_ok m mat -> m_type mat = CV_MAKETYPE CV_16U cn ->
  cn = 1 \/ cn = 3 \/ cn = 4 ->
  let b := Datatypes.S (length m) in
  let mat_b := mkMat (CV_8UC cn) (m_rows mat) (m_cols mat) (m_cols mat * cn)
                 (Ptr b 0) in
  exists m1,
    convertTo_16U_8U mat m = Some (mat_b, m1) /\
    (forall q, p_block q <> b -> load m1 q = load m q) /\
    Mat_ok m1 mat_b /\
    forall i e, 0 <= i < m_rows mat -> 0 <= e < m_cols mat * cn ->
      load m1 (Mat_row_data mat_b i +ₚ e) =
        Some (to_uchar (rescale_16U (u16_at m (Mat_row_data mat i +ₚ 2 * e)))).
Proof.
  intros Hok Htype Hcn b mat_b.
  destruct (CV_16UC_facts cn Hcn) as (_ & Hch & Hes).
  destruct Hok as (Hr & Hc & Hst & Hv).
  unfold Mat_row_bytes in Hst, Hv. rewrite Htype, Hes in Hst, Hv.
  set (n := m_cols mat * cn).
  assert (0 < n) as Hn by (unfold n; nia).
  set (element := fun idx =>
         to_uchar (rescale_16U
                     (u16_at m (Mat_row_data mat (idx / n) +ₚ 2 * (idx mod n))))).
  exists (m ++ [element <$> seqZ 0 (m_rows mat * n)]).
  assert (forall i e, 0 <= i < m_rows mat -> 0 <= e < n ->
            load (m ++ [element <$> seqZ 0 (m_rows mat * n)])
              (Mat_row_data mat_b i +ₚ e) = Some (element (n * i + e))) as Hnew.
  { intros i e Hi He. unfold Mat_row_data, mat_b, ptr_add. cbn.
    replace (0 + n * i + e) with (n * i + e) by lia.
    apply load_app_new. nia. }
  split; [|split; [|split]].
  - unfold convertTo_16U_8U. cbv zeta. unfold Mat_channels. rewrite Htype, Hch.
    assert ((0 <? m_rows mat * m_cols mat) = true) as -> by (apply Z.ltb_lt; nia).
    cbn [negb]. cbv iota. rewrite valid_rows_validb; [done|].
    intros i k Hi Hk. apply Hv; [done|]. fold n in Hk. unfold n in Hk. lia.
  - intros q Hq. by apply load_app_old.
  - split; [done|]. split; [done|]. split.
    + unfold Mat_row_bytes, mat_b. cbn [m_cols m_type m_step].
      rewrite (CV_ELEM_SIZE_8UC cn Hcn). lia.
    + intros i k Hi Hk. unfold Mat_row_bytes, mat_b in Hk.
      cbn [m_cols m_type m_rows] in Hi, Hk. rewrite (CV_ELEM_SIZE_8UC cn Hcn) in Hk.
      unfold valid. rewrite Hnew by done. unfold is_Some; eauto.
  - intros i e Hi He. rewrite Hnew by done. unfold element.
    assert ((n * i + e) / n = i) as ->.
    { symmetry. apply (Z.div_unique _ _ i e); lia. }
    assert ((n * i + e) mod n = e) as ->.
    { symmetry. apply (Z.mod_unique _ _ i e); lia. }
    done.
Qed.

(** The element of the matrix that a byte of the image is taken from lies
    in the row. *)
Lemma mat2Image_source_index (cols cn bpp k : Z) :
  cn = 1 \/ cn = 3 \/ cn = 4 -> bpp = 4 \/ bpp = 3 \/ (bpp = 1 /\ cn = 1) ->
  0 <= k < cols * bpp ->
  (bpp =? 4) && (k mod bpp =? 3) && negb (cn =? 4) = false ->
  0 <= k / bpp * cn + (if cn =? 1 then 0 else k mod bpp) < cols * cn.
Proof.
  intros Hcn Hbpp Hk E.
  destruct (pixel_of_offset bpp k ltac:(lia)) as [Hkd Ht].
  assert (0 <= k / bpp < cols) as Hj.
  { split; [apply Z.div_pos; lia|apply Z.div_lt_upper_bound; lia]. }
  destruct (cn =? 1) eqn:E1; [lia|].
  destruct (cn =? 4) eqn:E4; [lia|].
  assert (cn = 3) as -> by lia.
  destruct (bpp =? 4) eqn:E5; [|lia].
  destruct (k mod bpp =? 3) eqn:E6; [done|]. lia.
Qed.

Section Rescale.
Context `{Libs}.

(** [mat2Image] after the depth normalisation. *)
Lemma mat2Image_to_8bit (mat mat_b : Mat) (fmt : Format) (m m1 : mem) :
  Mat_empty mat = false -> to_8bit mat m = Some (mat_b, m1) ->
  Mat_depth mat_b = CV_8U -> m_rows mat_b = m_rows mat ->
  Mat_empty mat_b = false ->
  mat2Image mat fmt m = mat2Image mat_b fmt m1.
Proof.
  intros Hne E Hd Hrows Hne'. unfold mat2Image. rewrite Hne, Hne'.
  assert (to_8bit mat_b m1 = Some (mat_b, m1)) as E'.
  { unfold to_8bit. by rewrite Hd. }
  unfold bind. rewrite E, E'. by rewrite Hrows.
Qed.

(** C2 (as amended): in [mat2Image] a matrix of depth 16U goes through
    [convertTo(mat_b, CV_8U, 255./65535.)], which OpenCV documents as
    [saturate_cast<uchar>] of the scaled value, rounded to the nearest
    integer and not truncated.  With [convertTo] as documented, for every
    16-bit matrix of 1, 3 or 4 channels whose rows lie in the store and
    every format [mat2Image] produces from it, the conversion succeeds and
    every byte of the image that is taken from the matrix is [rescale_16U]
    of the 16-bit element it is taken from, the integer nearest to
    [v * 255 / 65535]; for one channel this is the element of the pixel.
    So 65535 gives 255 and 0 gives 0, and 32768 gives 128, not
    floor(32768 * 255 / 65535) = 127. *)
Theorem mat2Image_rescales_16bit
    (mat : Mat) (fmt : Format) (cn : Z) (m : mem) :
  convertTo_as_documented ->
  Mat_ok m mat -> m_type mat = CV_MAKETYPE CV_16U cn ->
  cn = 1 \/ cn = 3 \/ cn = 4 ->
  fmt = Format_RGB32 \/ fmt = Format_RGB888 \/ (fmt = Format_Indexed8 /\ cn = 1) ->
  let bpp := bytes_per_pixel fmt in
  (exists out m',
     mat2Image mat fmt m = Some (out, m') /\
     QImage_format out = fmt /\
     QImage_width out = m_cols mat /\ QImage_height out = m_rows mat /\
     (forall i k, 0 <= i < m_rows mat -> 0 <= k < m_cols mat * bpp ->
        exists y, QImage_byte m' out i k = Some y /\
          uchar_val y =
            if (bpp =? 4) && (k mod bpp =? 3) && negb (cn =? 4) then 255
            else rescale_16U
                   (u16_at m (Mat_row_data mat i +ₚ
                                2 * (k / bpp * cn +
                                     (if cn =? 1 then 0 else k mod bpp))))) /\
     (cn = 1 ->
      forall i j t, 0 <= i < m_rows mat -> 0 <= j < m_cols mat ->
        0 <= t < Z.min 3 bpp ->
        exists y, QImage_byte m' out i (j * bpp + t) = Some y /\
          uchar_val y = rescale_16U (u16_at m (Mat_row_data mat i +ₚ 2 * j)))) /\
  (forall v, 0 <= v <= 65535 ->
     0 <= rescale_16U v <= 255 /\ 2 * Z.abs (257 * rescale_16U v - v) < 257) /\
  rescale_16U 65535 = 255 /\ rescale_16U 0 = 0 /\ rescale_16U 32768 = 128 /\
  32768 * 255 / 65535 = 127.
Proof.
  intros Hdoc Hok Htype Hcn Hfmt bpp.
  split; [|split; [apply rescale_16U_nearest|by vm_compute]].
  destruct (CV_16UC_facts cn Hcn) as (Hd16 & _ & Hes).
  destruct (convertTo_16U_8U_spec mat cn m Hok Htype Hcn)
    as (m1 & Hconv & _ & Hokb & Hel).
  cbv zeta in Hconv, Hokb, Hel.
  set (mat_b := mkMat _ _ _ _ _) in *.
  assert (bpp = 4 \/ bpp = 3 \/ (bpp = 1 /\ cn = 1)) as Hbpp.
  { unfold bpp. destruct Hfmt as [->|[->|[-> ->]]]; auto. }
  assert (Mat_depth mat = CV_16U) as Hd by (unfold Mat_depth; by rewrite Htype).
  assert (to_8bit mat m = Some (mat_b, m1)) as E.
  { unfold to_8bit. rewrite Hd. eval_eqb. by rewrite Hdoc. }
  assert (0 < m_cols mat * cn) as Hpos by (destruct Hok as (_ & ? & _); nia).
  assert (mat2Image mat fmt m = mat2Image mat_b fmt m1) as Heq.
  { apply mat2Image_to_8bit; try done.
    - apply (Mat_ok_not_empty m mat Hok). unfold Mat_row_bytes.
      rewrite Htype, Hes. lia.
    - unfold Mat_depth, mat_b. cbn [m_type]. by destruct Hcn as [->|[->| ->]].
    - apply (Mat_ok_not_empty m1 mat_b Hokb). unfold Mat_row_bytes, mat_b.
      cbn [m_cols m_type]. by rewrite (CV_ELEM_SIZE_8UC cn Hcn). }
  destruct (mat2Image_spec mat_b fmt cn m1 Hokb eq_refl Hcn Hfmt)
    as (m' & Hrun & _ & _ & Hl).
  cbv zeta in Hl, Hrun. fold bpp in Hl.
  change (m_rows mat_b) with (m_rows mat) in *.
  change (m_cols mat_b) with (m_cols mat) in *.
  set (out := Some (mkQImageData _ _ _ _ _ _)) in *.
  assert (forall i k, 0 <= i < m_rows mat -> 0 <= k < m_cols mat * bpp ->
            exists y, QImage_byte m' out i k = Some y /\
              uchar_val y =
                if (bpp =? 4) && (k mod bpp =? 3) && negb (cn =? 4) then 255
                else rescale_16U
                       (u16_at m (Mat_row_data mat i +ₚ
                                    2 * (k / bpp * cn +
                                         (if cn =? 1 then 0 else k mod bpp)))))
    as Hbytes.
  { intros i k Hi Hk. exists (mat2Image_byte m1 mat_b cn bpp i k).
    split; [by apply Hl|]. unfold mat2Image_byte. cbv zeta.
    destruct ((bpp =? 4) && (k mod bpp =? 3) && negb (cn =? 4)) eqn:Efill;
      [done|].
    pose proof (mat2Image_source_index (m_cols mat) cn bpp k Hcn Hbpp Hk Efill)
      as He.
    rewrite Mat_at_row. unfold byte_at. rewrite Hel by done.
    cbn [default from_option id]. rewrite uchar_val_to_uchar.
    apply Z.mod_small.
    pose proof (rescale_16U_nearest _ (u16_at_range m
                  (Mat_row_data mat i +ₚ
                     2 * (k / bpp * cn + (if cn =? 1 then 0 else k mod bpp)))))
      as [Hb _]. lia. }
  exists out, m'. split; [by rewrite Heq|]. do 3 (split; [done|]).
  split; [exact Hbytes|].
  intros -> i j t Hi Hj Ht.
  destruct (Hbytes i (j * bpp + t) Hi ltac:(nia)) as (y & Hy & Hval).
  exists y. split; [exact Hy|]. rewrite Hval.
  destruct (div_pixel bpp j t ltac:(lia)) as [-> ->].
  assert ((t =? 3) = false) as -> by lia. rewrite andb_false_r. cbn [andb].
  change (1 =? 1) with true. cbv iota. do 3 f_equal. lia.
Qed.

End Rescale.

Lemma mat2Image_rescales_16bit_witness :
  @convertTo_as_documented opencv_libs /\
  Mat_ok mem_16u_row mat_16u_row /\
  m_type mat_16u_row = CV_MAKETYPE CV_16U 1 /\
  exists out m' y,
    @mat2Image opencv_libs mat_16u_row Format_Indexed8 mem_16u_row =
      Some (out, m') /\
    QImage_byte m' out 0 2 = Some y /\
    uchar_val y =
      rescale_16U (u16_at mem_16u_row (Mat_row_data mat_16u_row 0 +ₚ 2 * 2)).
Proof.
  assert (@convertTo_as_documented opencv_libs) as Hdoc.
  { intros mat m Hd. cbn. rewrite Hd. reflexivity. }
  assert (Mat_ok mem_16u_row mat_16u_row) as Hok
    by (apply Mat_okb_ok; vm_compute; reflexivity).
  split; [exact Hdoc|]. split; [exact Hok|]. split; [reflexivity|].
  destruct (@mat2Image_rescales_16bit opencv_libs mat_16u_row Format_Indexed8 1
              mem_16u_row Hdoc Hok eq_refl (or_introl eq_refl)
              (or_intror (or_intror (conj eq_refl eq_refl))))
    as [(out & m' & Hrun & _ & _ & _ & _ & Hone) _].
  destruct (Hone eq_refl 0 2 0) as (y & Hy & Hval);
    [vm_compute; split; congruence ..|].
  exists out, m', y. split; [exact Hrun|]. split; [exact Hy|exact Hval].
Defined.

(** C2, as first stated, fails at 32768: with [convertTo] as OpenCV
    documents it, the 16-bit pixel of value 32768 comes out as 128, not as
    floor(32768 * 255 / 65535) = 127; 0 and 65535 come out as 0 and 255. *)
Lemma mat2Image_32768_is_128 :
  u16_at mem_16u_row (Mat_row_data mat_16u_row 0 +ₚ 2 * 0) = 0 /\
  u16_at mem_16u_row (Mat_row_data mat_16u_row 0 +ₚ 2 * 1) = 32768 /\
  u16_at mem_16u_row (Mat_row_data mat_16u_row 0 +ₚ 2 * 2) = 65535 /\
  exists out m',
    @mat2Image opencv_libs mat_16u_row Format_Indexed8 mem_16u_row =
      Some (out, m') /\
    uchar_val <$> QImage_byte m' out 0 0 = Some 0 /\
    uchar_val <$> QImage_byte m' out 0 2 = Some 255 /\
    uchar_val <$> QImage_byte m' out 0 1 = Some 128 /\
    uchar_val <$> QImage_byte m' out 0 1 <> Some (32768 * 255 / 65535).
Proof.
  do 3 (split; [reflexivity|]).
  eexists _, _. split; [vm_compute; reflexivity|]. do 3 (split; [reflexivity|]).
  vm_compute. intros [=].
Qed.
